(** * xbargo: rendering xbar plugins

    A shallow embedding of [xbargo.go] (package [xbargo]) and of the parts of
    the Go standard library its renderer calls ([strings], [fmt], [strconv],
    [unicode/utf8], [encoding/base64], [io]), followed by the properties of
    the line protocol it emits.

    Conventions.
    - A Go [string] is a sequence of bytes: [String.string].  A [[]byte] is a
      [list byte].  Machine integers are [Z], bit operations are [Z.land],
      [Z.lor], [Z.shiftl], [Z.shiftr].
    - A [*MenuItem] that the renderer dereferences without a nil test
      ([Plugin.Title], the entries of [SubMenu]) is a value; [Alt], which is
      tested against nil, is an [option].
    - An [io.Reader] is a stateful object that may be shared between menu
      items: readers live in a store indexed by references, [Icon] holds a
      reference.
    - A panic is an outcome of its own, distinct from a returned [error]. *)

From Stdlib Require Import ZArith NArith List String Ascii Lia Bool DecimalString.
From Stdlib.Strings Require Import Byte.
From stdpp Require Import gmap strings list.
From coqutil Require Import Z.prove_Zeq_bitwise.

#[local] Set Warnings "-register-all".
#[local] Open Scope Z_scope.

(** ** Characters spelled by their code, and bytes as numbers *)

Definition dquote : ascii := "034"%char.
Definition newline : ascii := "010"%char.
Definition backslash : ascii := "092"%char.

Definition Z_of_ascii (c : ascii) : Z := Z.of_N (N_of_ascii c).
Definition ascii_of_Z (z : Z) : ascii := ascii_of_N (Z.to_N (z mod 256)).
Definition Z_of_byte (b : byte) : Z := Z.of_N (Byte.to_N b).
Definition byte_of_Z (z : Z) : byte :=
  default x00 (Byte.of_N (Z.to_N (z mod 256))).

(** [s[i]] for an index known to be in range; the zero byte otherwise. *)
Definition index (s : string) (i : Z) : ascii :=
  default zero (String.get (Z.to_nat i) s).

(** ** Package strings *)
Module Strings.

(** [strings.Join(elems, sep)] *)
Definition Join (elems : list string) (sep : string) : string :=
  String.concat sep elems.

(** [strings.Repeat(s, count)] for [count >= 0]. *)
Fixpoint Repeat (s : string) (count : nat) : string :=
  match count with
  | O => ""
  | S n => s +:+ Repeat s n
  end.

End Strings.

(** ** Package unicode/utf8 *)
Module Utf8.

Definition RuneError : Z := 0xFFFD.
Definition MaxRune : Z := 0x10FFFF.
Definition RuneSelf : Z := 0x80.
Definition surrogateMin : Z := 0xD800.
Definition surrogateMax : Z := 0xDFFF.
Definition locb : Z := 0x80.
Definition hicb : Z := 0xBF.

(** The [first] table with [acceptRanges] folded in: for a leading byte,
    the length of the sequence it opens and the range its second byte must
    lie in; [None] for ASCII and for bytes that open no sequence. *)
Definition first (s0 : Z) : option (nat * Z * Z) :=
  if s0 <? 0xC2 then None
  else if s0 <=? 0xDF then Some (2%nat, locb, hicb)
  else if s0 =? 0xE0 then Some (3%nat, 0xA0, hicb)
  else if s0 <=? 0xEC then Some (3%nat, locb, hicb)
  else if s0 =? 0xED then Some (3%nat, locb, 0x9F)
  else if s0 <=? 0xEF then Some (3%nat, locb, hicb)
  else if s0 =? 0xF0 then Some (4%nat, 0x90, hicb)
  else if s0 <=? 0xF3 then Some (4%nat, locb, hicb)
  else if s0 =? 0xF4 then Some (4%nat, locb, 0x8F)
  else None.

Definition cont (b : Z) : bool := (locb <=? b) && (b <=? hicb).

(** [utf8.DecodeRuneInString(s)]: the rune and its width in bytes. *)
Definition DecodeRuneInString (s : string) : Z * nat :=
  match s with
  | EmptyString => (RuneError, 0%nat)
  | String c0 t0 =>
      let s0 := Z_of_ascii c0 in
      match first s0 with
      | None => (if s0 <? RuneSelf then s0 else RuneError, 1%nat)
      | Some (sz, lo, hi) =>
          match t0 with
          | EmptyString => (RuneError, 1%nat)
          | String c1 t1 =>
              let s1 := Z_of_ascii c1 in
              if (s1 <? lo) || (hi <? s1) then (RuneError, 1%nat)
              else if (sz <=? 2)%nat then
                (Z.lor (Z.shiftl (Z.land s0 0x1F) 6) (Z.land s1 0x3F), 2%nat)
              else
                match t1 with
                | EmptyString => (RuneError, 1%nat)
                | String c2 t2 =>
                    let s2 := Z_of_ascii c2 in
                    if negb (cont s2) then (RuneError, 1%nat)
                    else if (sz <=? 3)%nat then
                      (Z.lor (Z.lor (Z.shiftl (Z.land s0 0x0F) 12)
                                    (Z.shiftl (Z.land s1 0x3F) 6))
                             (Z.land s2 0x3F), 3%nat)
                    else
                      match t2 with
                      | EmptyString => (RuneError, 1%nat)
                      | String c3 _ =>
                          let s3 := Z_of_ascii c3 in
                          if negb (cont s3) then (RuneError, 1%nat)
                          else
                            (Z.lor (Z.lor (Z.lor
                               (Z.shiftl (Z.land s0 0x07) 18)
                               (Z.shiftl (Z.land s1 0x3F) 12))
                               (Z.shiftl (Z.land s2 0x3F) 6))
                               (Z.land s3 0x3F), 4%nat)
                      end
                end
          end
      end
  end.

Definition bytes (l : list Z) : string :=
  string_of_list_ascii (map ascii_of_Z l).

(** [utf8.AppendRune(nil, r)] *)
Definition AppendRune (r : Z) : string :=
  if r <=? 0x7F then bytes [r]
  else if r <=? 0x7FF then
    bytes [Z.lor 0xC0 (Z.shiftr r 6); Z.lor 0x80 (Z.land r 0x3F)]
  else
    let r := if (MaxRune <? r) || ((surrogateMin <=? r) && (r <=? surrogateMax))
             then RuneError else r in
    if r <=? 0xFFFF then
      bytes [Z.lor 0xE0 (Z.shiftr r 12);
             Z.lor 0x80 (Z.land (Z.shiftr r 6) 0x3F);
             Z.lor 0x80 (Z.land r 0x3F)]
    else
      bytes [Z.lor 0xF0 (Z.shiftr r 18);
             Z.lor 0x80 (Z.land (Z.shiftr r 12) 0x3F);
             Z.lor 0x80 (Z.land (Z.shiftr r 6) 0x3F);
             Z.lor 0x80 (Z.land r 0x3F)].

Definition ValidRune (r : Z) : bool :=
  ((0 <=? r) && (r <? surrogateMin)) || ((surrogateMax <? r) && (r <=? MaxRune)).

End Utf8.

(** ** Package strconv *)
Module Strconv.

Definition lowerhex : string := "0123456789abcdef".

Definition hexdigit (d : Z) : string := String (index lowerhex d) "".

(** [s[width:]] *)
Fixpoint skip (width : nat) (s : string) : string :=
  match width, s with
  | S n, String _ t => skip n t
  | _, _ => s
  end.

Section Tables.

(** [strconv.IsPrint] decides runes above U+00FF by binary search in the
    tables generated from the Unicode database ([isPrint16],
    [isNotPrint16], [isPrint32], [isNotPrint32]).  The tables are data
    of the Go distribution; the renderer is stated over any such table. *)
Variable isPrintTable : Z -> bool.

(** [strconv.IsPrint(r)] *)
Definition IsPrint (r : Z) : bool :=
  if r <=? 0xFF then
    if (0x20 <=? r) && (r <=? 0x7E) then true
    else if (0xA1 <=? r) && (r <=? 0xFF) then negb (r =? 0xAD)
    else false
  else isPrintTable r.

(** [appendEscapedRune(buf, r, quote, false, false)] with the double
    quote as [quote]. *)
Definition appendEscapedRune (r : Z) : string :=
  if (r =? Z_of_ascii dquote) || (r =? Z_of_ascii backslash) then
    String backslash (String (ascii_of_Z r) "")
  else if IsPrint r then Utf8.AppendRune r
  else if r =? 7 then "\a"
  else if r =? 8 then "\b"
  else if r =? 12 then "\f"
  else if r =? 10 then "\n"
  else if r =? 13 then "\r"
  else if r =? 9 then "\t"
  else if r =? 11 then "\v"
  else if (r <? 0x20) || (r =? 0x7F) then
    "\x" +:+ hexdigit (Z.shiftr r 4) +:+ hexdigit (Z.land r 0xF)
  else
    let r := if Utf8.ValidRune r then r else 0xFFFD in
    if r <? 0x10000 then
      "\u" +:+ hexdigit (Z.land (Z.shiftr r 12) 0xF)
           +:+ hexdigit (Z.land (Z.shiftr r 8) 0xF)
           +:+ hexdigit (Z.land (Z.shiftr r 4) 0xF)
           +:+ hexdigit (Z.land r 0xF)
    else
      "\U" +:+ hexdigit (Z.land (Z.shiftr r 28) 0xF)
           +:+ hexdigit (Z.land (Z.shiftr r 24) 0xF)
           +:+ hexdigit (Z.land (Z.shiftr r 20) 0xF)
           +:+ hexdigit (Z.land (Z.shiftr r 16) 0xF)
           +:+ hexdigit (Z.land (Z.shiftr r 12) 0xF)
           +:+ hexdigit (Z.land (Z.shiftr r 8) 0xF)
           +:+ hexdigit (Z.land (Z.shiftr r 4) 0xF)
           +:+ hexdigit (Z.land r 0xF).

(** The loop of [appendQuotedWith]: [for width := 0; len(s) > 0;
    s = s[width:]].  Every turn consumes at least one byte, so
    [String.length s] turns are enough. *)
Fixpoint quoteLoop (turns : nat) (s : string) : string :=
  match turns, s with
  | S turns', String c0 _ =>
      let s0 := Z_of_ascii c0 in
      let '(r, width) :=
        if Utf8.RuneSelf <=? s0 then Utf8.DecodeRuneInString s
        else (s0, 1%nat) in
      if (width =? 1)%nat && (r =? Utf8.RuneError) then
        "\x" +:+ hexdigit (Z.shiftr s0 4) +:+ hexdigit (Z.land s0 0xF)
             +:+ quoteLoop turns' (skip 1 s)
      else
        appendEscapedRune r +:+ quoteLoop turns' (skip width s)
  | _, _ => ""
  end.

(** [strconv.Quote(s)] *)
Definition Quote (s : string) : string :=
  String dquote (quoteLoop (String.length s) s +:+ String dquote "").

End Tables.

End Strconv.

(** ** Package fmt: the verbs the renderer uses *)
Module Fmt.

(** [%t] *)
Definition verb_t (b : bool) : string := if b then "true" else "false".

(** [%d] on an unsigned operand *)
Definition verb_d (n : N) : string := NilZero.string_of_uint (N.to_uint n).

(** [%q] on a string operand, no flags: [strconv.Quote]. *)
Definition verb_q (isPrintTable : Z -> bool) (s : string) : string :=
  Strconv.Quote isPrintTable s.

End Fmt.

(** ** Package encoding/base64: [StdEncoding] *)
Module Base64.

Definition encodeStd : string :=
  "ABCDEFGHIJKLMNOPQRSTUVWXYZabcdefghijklmnopqrstuvwxyz0123456789+/".

Definition StdPadding : ascii := "="%char.

(** [enc.encode[i]] *)
Definition encode (i : Z) : ascii := index encodeStd i.

(** [Encoding.Encode] of [StdEncoding], its destination returned as a
    string ([EncodeToString]): whole groups of three bytes first, then the
    remaining one or two bytes with padding. *)
Fixpoint EncodeToString (src : list byte) : string :=
  match src with
  | [] => ""
  | [s0] =>
      let val := Z.shiftl (Z_of_byte s0) 16 in
      String (encode (Z.land (Z.shiftr val 18) 0x3F))
        (String (encode (Z.land (Z.shiftr val 12) 0x3F))
           (String StdPadding (String StdPadding "")))
  | [s0; s1] =>
      let val := Z.lor (Z.shiftl (Z_of_byte s0) 16) (Z.shiftl (Z_of_byte s1) 8) in
      String (encode (Z.land (Z.shiftr val 18) 0x3F))
        (String (encode (Z.land (Z.shiftr val 12) 0x3F))
           (String (encode (Z.land (Z.shiftr val 6) 0x3F))
              (String StdPadding "")))
  | s0 :: s1 :: s2 :: rest =>
      let val := Z.lor (Z.lor (Z.shiftl (Z_of_byte s0) 16)
                              (Z.shiftl (Z_of_byte s1) 8))
                       (Z_of_byte s2) in
      String (encode (Z.land (Z.shiftr val 18) 0x3F))
        (String (encode (Z.land (Z.shiftr val 12) 0x3F))
           (String (encode (Z.land (Z.shiftr val 6) 0x3F))
              (String (encode (Z.land val 0x3F))
                 (EncodeToString rest))))
  end.

(** [enc.decodeMap[c]]: the position of [c] in the alphabet, [0xFF] for a
    byte outside it. *)
Fixpoint position (c : ascii) (alphabet : string) (i : Z) : Z :=
  match alphabet with
  | EmptyString => 0xFF
  | String d rest => if Ascii.eqb c d then i else position c rest (i + 1)
  end.

Definition decodeMap (c : ascii) : Z := position c encodeStd 0.

(** [Encoding.DecodeString] of [StdEncoding] on input without line
    breaks: four characters give three bytes; padding is accepted in the
    last group only; anything else is a [CorruptInputError] ([None]). *)
Fixpoint DecodeString (s : string) : option (list byte) :=
  match s with
  | EmptyString => Some []
  | String c0 (String c1 (String c2 (String c3 rest))) =>
      let d0 := decodeMap c0 in
      let d1 := decodeMap c1 in
      let d2 := decodeMap c2 in
      let d3 := decodeMap c3 in
      if (d0 =? 0xFF) || (d1 =? 0xFF) then None
      else if Ascii.eqb c3 StdPadding then
        match rest with
        | EmptyString =>
            if Ascii.eqb c2 StdPadding then
              let val := Z.lor (Z.shiftl d0 18) (Z.shiftl d1 12) in
              Some [byte_of_Z (Z.shiftr val 16)]
            else if d2 =? 0xFF then None
            else
              let val := Z.lor (Z.lor (Z.shiftl d0 18) (Z.shiftl d1 12))
                               (Z.shiftl d2 6) in
              Some [byte_of_Z (Z.shiftr val 16); byte_of_Z (Z.shiftr val 8)]
        | String _ _ => None
        end
      else if (d2 =? 0xFF) || (d3 =? 0xFF) then None
      else
        let val := Z.lor (Z.lor (Z.lor (Z.shiftl d0 18) (Z.shiftl d1 12))
                                (Z.shiftl d2 6)) d3 in
        match DecodeString rest with
        | Some tl =>
            Some (byte_of_Z (Z.shiftr val 16) :: byte_of_Z (Z.shiftr val 8)
                    :: byte_of_Z val :: tl)
        | None => None
        end
  | _ => None
  end.

End Base64.

(** ** Package io *)
Module IO.

(** An [error] value, identified by its message. *)
Definition error : Type := string.

(** An [io.Reader], as the sequence of results its [Read] will return:
    some bytes, an error other than [io.EOF], or [io.EOF] from then on. *)
Inductive Reader : Type :=
| AtEOF
| Chunk (p : list byte) (next : Reader)
| Fault (e : error) (next : Reader).

(** [bytes.NewReader(b)] *)
Definition NewReader (b : list byte) : Reader := Chunk b AtEOF.

(** [io.ReadAll(r)]: reads until [io.EOF] (reported as a nil error) or
    until the first error; returns what was read, the error, and the
    reader as it is left. *)
Fixpoint ReadAll (r : Reader) : list byte * option error * Reader :=
  match r with
  | AtEOF => ([], None, AtEOF)
  | Chunk p next =>
      let '(b, err, r') := ReadAll next in (p ++ b, err, r')
  | Fault e next => ([], Some e, next)
  end.

(** An [io.Writer]: [Write(p)] returns the writer as it is left and the
    error, if any. *)
Class Writer (W : Type) : Type := Write : W -> string -> W * option error.

(** [bytes.Buffer]: every write succeeds and appends. *)
#[global] Instance Buffer : Writer string := fun w p => (w +:+ p, None).

(** A writer that keeps each [Write] call's argument apart. *)
#[global] Instance Recorder : Writer (list string) :=
  fun w p => (w ++ [p], None).

(** A pipe whose reader goes away after [room] more writes
    ([io.ErrClosedPipe] afterwards). *)
Record Pipe : Type := { accepted : list string; room : nat }.

Definition ErrClosedPipe : error := "io: read/write on closed pipe".

#[global] Instance PipeWriter : Writer Pipe := fun w p =>
  match room w with
  | O => (w, Some ErrClosedPipe)
  | S n => ({| accepted := accepted w ++ [p]; room := n |}, None)
  end.

End IO.

(** ** Effects: reader store, panics, early returns *)

(** The readers reachable from a plugin, by reference. *)
Abbreviation Store := (gmap nat IO.Reader).

(** What a call comes to: it returns, or it panics with a value. *)
Inductive outcome (A : Type) : Type :=
| Ret (a : A)
| Panic (e : IO.error).
Arguments Ret {A} a.
Arguments Panic {A} e.

(** A computation over a state [S] that may panic. *)
Definition M (S A : Type) : Type := S -> outcome A * S.

Definition ret {S A} (a : A) : M S A := fun st => (Ret a, st).

Definition panic {S A} (e : IO.error) : M S A := fun st => (Panic e, st).

Definition bind {S A B} (c : M S A) (k : A -> M S B) : M S B := fun st =>
  match c st with
  | (Ret a, st') => k a st'
  | (Panic e, st') => (Panic e, st')
  end.

Notation "x <- c ;; k" := (bind c (fun x => k))
  (at level 100, c at next level, right associativity).

(** [if err != nil { return err }] and the rest of the function body. *)
Definition orReturn {S} (err : option IO.error) (rest : M S (option IO.error))
  : M S (option IO.error) :=
  match err with
  | Some e => ret (Some e)
  | None => rest
  end.

(** [for _, x := range l { if err := f(x); err != nil { return err } }],
    falling through to [return nil]. *)
Definition forEach {S A} (f : A -> M S (option IO.error))
  : list A -> M S (option IO.error) :=
  fix loop (l : list A) : M S (option IO.error) :=
    match l with
    | [] => ret None
    | x :: rest => err <- f x ;; orReturn err (loop rest)
    end.

(** A computation on the readers alone, run where a writer is at hand too. *)
Definition onStore {W A} (c : M Store A) : M (Store * W) A := fun '(h, w) =>
  let '(r, h') := c h in (r, (h', w)).

(** [io.ReadAll] on the reader behind [ref].  (Go has no dangling
    reference; one that the store does not hold reads as exhausted.) *)
Definition ReadAllAt (ref : nat) : M Store (list byte * option IO.error) :=
  fun h =>
    match h !! ref with
    | Some rd =>
        let '(b, err, rd') := IO.ReadAll rd in (Ret (b, err), <[ref := rd']> h)
    | None => (Ret ([], None), h)
    end.

(** [fmt.Fprintf(w, format, ...)], [text] being what the format and its
    operands come to: one [Write] call, whose error is returned. *)
Definition Fprintf {W} `{IO.Writer W} (text : string)
  : M (Store * W) (option IO.error) := fun '(h, w) =>
  let '(w', err) := IO.Write w text in (Ret err, (h, w')).

(** [fmt.Fprintln(w, a)] for one string operand. *)
Definition Fprintln {W} `{IO.Writer W} (a : string)
  : M (Store * W) (option IO.error) :=
  Fprintf (a +:+ String newline "").

(** ** Data model of package xbargo *)

Record Style : Type := {
  MaxLength : N;                (* uint *)
  Color : string;
  IconImageTemplate : bool
}.

Record ShellAction : Type := {
  Command : string;
  Args : list string;
  OpenTerminal : bool
}.

Record HrefAction : Type := { URI : string }.

(** The dynamic type of a non-nil [Action].  [actionMarker] has value
    receivers, so pointers to the two structs satisfy the interface as
    well; the type switch of [renderSelf] has no case for them. *)
Inductive Action : Type :=
| Href (a : HrefAction)
| Shell (a : ShellAction)
| ByPointer.

#[local] Unset Elimination Schemes.
Inductive MenuItem : Type := mkMenuItem {
  Title : string;
  Icon : option nat;            (* io.Reader: nil, or a reference *)
  Style_ : Style;
  Shortcut : string;
  Action_ : option Action;
  Refresh : bool;
  Alt : option MenuItem;        (* *MenuItem, may be nil *)
  SubMenu : list MenuItem
}.
#[local] Set Elimination Schemes.

(** The two implementations of the interface [XbarElement]. *)
Inductive XbarElement : Type :=
| Separator
| Item (m : MenuItem).

Record Plugin : Type := {
  Plugin_Title : MenuItem;
  Elements : list XbarElement
}.

Definition zeroStyle : Style :=
  {| MaxLength := 0; Color := ""; IconImageTemplate := false |}.

(** [NewMenuItem(title)] *)
Definition NewMenuItem (title : string) : MenuItem :=
  {| Title := title; Icon := None; Style_ := zeroStyle; Shortcut := "";
     Action_ := None; Refresh := false; Alt := None; SubMenu := [] |}.

(** [NewShellAction(command, args...)] *)
Definition NewShellAction (command : string) (args : list string) : ShellAction :=
  {| Command := command; Args := args; OpenTerminal := false |}.

(** [NewCopyAction(text)] *)
Definition NewCopyAction (text : string) : ShellAction :=
  {| Command := "/bin/bash";
     Args := ["-c"; "echo -n " +:+ text +:+ " | pbcopy"];
     OpenTerminal := false |}.

(** [NewHrefAction(uri)] *)
Definition NewHrefAction (uri : string) : HrefAction := {| URI := uri |}.

(** [sa.WithTerminal()] *)
Definition WithTerminal (sa : ShellAction) : ShellAction :=
  {| Command := Command sa; Args := Args sa; OpenTerminal := true |}.

(** The builders of [*MenuItem]; each returns the item it changed. *)
Definition WithStyle (style : Style) (m : MenuItem) : MenuItem :=
  {| Title := Title m; Icon := Icon m; Style_ := style; Shortcut := Shortcut m;
     Action_ := Action_ m; Refresh := Refresh m; Alt := Alt m;
     SubMenu := SubMenu m |}.

Definition WithRefresh (m : MenuItem) : MenuItem :=
  {| Title := Title m; Icon := Icon m; Style_ := Style_ m; Shortcut := Shortcut m;
     Action_ := Action_ m; Refresh := true; Alt := Alt m; SubMenu := SubMenu m |}.

Definition WithAction (action : Action) (m : MenuItem) : MenuItem :=
  {| Title := Title m; Icon := Icon m; Style_ := Style_ m; Shortcut := Shortcut m;
     Action_ := Some action; Refresh := Refresh m; Alt := Alt m;
     SubMenu := SubMenu m |}.

Definition WithHref (uri : string) (m : MenuItem) : MenuItem :=
  WithAction (Href (NewHrefAction uri)) m.

Definition WithShell (command : string) (args : list string) (m : MenuItem)
  : MenuItem :=
  WithAction (Shell (NewShellAction command args)) m.

Definition WithIcon (icon : nat) (m : MenuItem) : MenuItem :=
  {| Title := Title m; Icon := Some icon; Style_ := Style_ m;
     Shortcut := Shortcut m; Action_ := Action_ m; Refresh := Refresh m;
     Alt := Alt m; SubMenu := SubMenu m |}.

Definition WithAlt (item : MenuItem) (m : MenuItem) : MenuItem :=
  {| Title := Title m; Icon := Icon m; Style_ := Style_ m; Shortcut := Shortcut m;
     Action_ := Action_ m; Refresh := Refresh m; Alt := Some item;
     SubMenu := SubMenu m |}.

(** [strings.Join(append(modStrings, key), "+")] *)
Definition WithShortcut (key : string) (modifiers : list string) (m : MenuItem)
  : MenuItem :=
  {| Title := Title m; Icon := Icon m; Style_ := Style_ m;
     Shortcut := Strings.Join (modifiers ++ [key]) "+";
     Action_ := Action_ m; Refresh := Refresh m; Alt := Alt m;
     SubMenu := SubMenu m |}.

Definition WithSubMenu (items : list MenuItem) (m : MenuItem) : MenuItem :=
  {| Title := Title m; Icon := Icon m; Style_ := Style_ m; Shortcut := Shortcut m;
     Action_ := Action_ m; Refresh := Refresh m; Alt := Alt m;
     SubMenu := SubMenu m ++ items |}.

Definition CommandKey : string := "CmdOrCtrl".
Definition OptionKey : string := "OptionOrAlt".
Definition ControlKey : string := "ctrl".
Definition ShiftKey : string := "shift".

(** [NewPlugin()] *)
Definition NewPlugin : Plugin :=
  {| Plugin_Title :=
       WithStyle {| MaxLength := 0; Color := ""; IconImageTemplate := true |}
                 (NewMenuItem "");
     Elements := [] |}.

Definition Plugin_WithIcon (icon : nat) (p : Plugin) : Plugin :=
  {| Plugin_Title := WithIcon icon (Plugin_Title p); Elements := Elements p |}.

Definition WithText (title : string) (p : Plugin) : Plugin :=
  {| Plugin_Title :=
       {| Title := title; Icon := Icon (Plugin_Title p);
          Style_ := Style_ (Plugin_Title p); Shortcut := Shortcut (Plugin_Title p);
          Action_ := Action_ (Plugin_Title p); Refresh := Refresh (Plugin_Title p);
          Alt := Alt (Plugin_Title p); SubMenu := SubMenu (Plugin_Title p) |};
     Elements := Elements p |}.

Definition WithElements (elements : list XbarElement) (p : Plugin) : Plugin :=
  {| Plugin_Title := Plugin_Title p; Elements := Elements p ++ elements |}.

(** ** The renderer *)

Definition nonEmpty (s : string) : bool := negb (String.eqb s "").

(** [(Separator) renderSelf], [renderAlt], [children] *)
Definition Separator_renderSelf : M Store string := ret "---".
Definition Separator_renderAlt : M Store string := ret "".
Definition Separator_children : list XbarElement := [].

(** [(m *MenuItem) children] *)
Definition MenuItem_children (m : MenuItem) : list XbarElement :=
  map Item (SubMenu m).

Section Render.

(** The printable runes above U+00FF (see [Strconv.IsPrint]). *)
Variable isPrintTable : Z -> bool.

(** The loop over [action.Args] in [renderSelf]:
    [part = fmt.Sprintf("%s param%d='%s'", part, i+1, arg)],
    [i] being the index of [arg]. *)
Fixpoint paramLoop (part : string) (i : nat) (args : list string) : string :=
  match args with
  | [] => part
  | arg :: rest =>
      paramLoop (part +:+ " param" +:+ Fmt.verb_d (N.of_nat (i + 1))
                      +:+ "='" +:+ arg +:+ "'")
                (i + 1) rest
  end.

(** The [case ShellAction] of [renderSelf]: the value of [part] that is
    appended to [parts]. *)
Definition shellPart (action : ShellAction) : string :=
  let part := "terminal=" +:+ Fmt.verb_t (OpenTerminal action)
                +:+ " shell=" +:+ Fmt.verb_q isPrintTable (Command action) in
  paramLoop part 0 (Args action).

(** [renderSelf] up to the action: [parts] after the title, the shortcut
    and the style have been looked at. *)
Definition partsBeforeAction (m : MenuItem) : list string :=
  let parts := [Title m +:+ "|"] in
  let parts :=
    if nonEmpty (Shortcut m) then parts ++ ["key=" +:+ Shortcut m]
    else parts in
  let parts :=
    if (0 <? MaxLength (Style_ m))%N
    then parts ++ ["length=" +:+ Fmt.verb_d (MaxLength (Style_ m))]
    else parts in
  if nonEmpty (Color (Style_ m))
  then parts ++ ["color=" +:+ Color (Style_ m)]
  else parts.

(** [renderSelf] up to the icon: [parts] after the type switch on
    [m.Action]. *)
Definition partsBeforeIcon (m : MenuItem) : list string :=
  let parts := partsBeforeAction m in
  match Action_ m with
  | None => parts
  | Some (Href action) => parts ++ ["href=" +:+ URI action]
  | Some (Shell action) => parts ++ [shellPart action]
  | Some ByPointer => parts
  end.

(** [imageType] in [renderSelf] *)
Definition imageType (m : MenuItem) : string :=
  if IconImageTemplate (Style_ m) then "templateImage" else "image".

(** The two fields [renderSelf] appends last. *)
Definition tailParts (m : MenuItem) : list string :=
  ["refresh=" +:+ Fmt.verb_t (Refresh m); "trim=false"].

(** [(m *MenuItem) renderSelf] *)
Definition MenuItem_renderSelf (m : MenuItem) : M Store string :=
  let parts := partsBeforeIcon m in
  parts <-
    match Icon m with
    | None => ret parts
    | Some icon =>
        read <- ReadAllAt icon ;;
        match read with
        | (b, Some err) => panic err
        | (b, None) =>
            ret (parts ++ [imageType m +:+ "=" +:+ Base64.EncodeToString b])
        end
    end ;;
  let parts := parts ++ tailParts m in
  ret (Strings.Join parts " ").

(** [(m *MenuItem) renderAlt] *)
Definition MenuItem_renderAlt (m : MenuItem) : M Store string :=
  match Alt m with
  | None => ret ""
  | Some alt => MenuItem_renderSelf alt
  end.

(** Method dispatch on an [XbarElement]. *)
Definition renderSelf (el : XbarElement) : M Store string :=
  match el with
  | Separator => Separator_renderSelf
  | Item m => MenuItem_renderSelf m
  end.

Definition renderAlt (el : XbarElement) : M Store string :=
  match el with
  | Separator => Separator_renderAlt
  | Item m => MenuItem_renderAlt m
  end.

Definition children (el : XbarElement) : list XbarElement :=
  match el with
  | Separator => Separator_children
  | Item m => MenuItem_children m
  end.

Section Writing.

Context {W : Type} `{IO.Writer W}.

(** The body of [printElement] at one element: [self] is its
    [renderSelf], [kids] the loop over its [children()], [alt] its
    [renderAlt]. *)
Definition printBody (self : M Store string)
    (kids : M (Store * W) (option IO.error)) (alt : M Store string)
    (level : nat) : M (Store * W) (option IO.error) :=
  let prefix := Strings.Repeat "--" level in
  s <- onStore self ;;
  err <- Fprintf (prefix +:+ s +:+ String newline "") ;;
  orReturn err (
  err <- kids ;;
  orReturn err (
  alt <- onStore alt ;;
  if nonEmpty alt then
    err <- Fprintf (prefix +:+ alt +:+ " alternate=true" +:+ String newline "") ;;
    orReturn err (ret None)
  else ret None)).

(** [printElement(w, el, level)] at a [*MenuItem], whose children are
    the items of its [SubMenu]. *)
Fixpoint printItem (m : MenuItem) (level : nat)
  : M (Store * W) (option IO.error) :=
  printBody (MenuItem_renderSelf m)
            (forEach (fun child => printItem child (level + 1)) (SubMenu m))
            (MenuItem_renderAlt m)
            level.

(** [printElement(w, el, level)] *)
Definition printElement (el : XbarElement) (level : nat)
  : M (Store * W) (option IO.error) :=
  match el with
  | Separator =>
      printBody Separator_renderSelf (ret None) Separator_renderAlt level
  | Item m => printItem m level
  end.

(** [(p *Plugin) RunW(w)] *)
Definition RunW (p : Plugin) : M (Store * W) (option IO.error) :=
  title <- onStore (MenuItem_renderSelf (Plugin_Title p)) ;;
  err <- Fprintln title ;;
  orReturn err (
  if (0 <? length (Elements p))%nat then
    err <- Fprintln "---" ;;
    orReturn err (forEach (fun item => printElement item 0) (Elements p))
  else ret None).

End Writing.

End Render.

(** * Vocabulary of the statements *)

(** A table without printable runes above U+00FF.  It stands in for Go's
    tables in examples whose strings hold no such rune, where no table is
    consulted. *)
Definition asciiTable : Z -> bool := fun _ => false.

(** A line, ended by a newline; lines one after the other. *)
Definition ln (s : string) : string := s +:+ String newline "".

Definition unlines (l : list string) : string := String.concat "" (map ln l).

(** A string between two double quotes. *)
Definition quoted (s : string) : string := String dquote (s +:+ String dquote "").

(** Bytes [0x20] to [0x7E]. *)
Definition printableAscii (s : string) : bool :=
  forallb (fun c => (0x20 <=? Z_of_ascii c) && (Z_of_ascii c <=? 0x7E))
          (list_ascii_of_string s).

(** A backslash before every double quote and every backslash. *)
Fixpoint escapeQuotes (s : string) : string :=
  match s with
  | EmptyString => ""
  | String c rest =>
      if Ascii.eqb c dquote || Ascii.eqb c backslash
      then String backslash (String c (escapeQuotes rest))
      else String c (escapeQuotes rest)
  end.

(** The fields [ param<i>='<arg>'], numbered from one, in order. *)
Definition paramFields (args : list string) : string :=
  String.concat ""
    (imap (fun i arg => " param" +:+ Fmt.verb_d (N.of_nat (i + 1))
                          +:+ "='" +:+ arg +:+ "'") args).

(** The shell field with the command put between double quotes as it is,
    nothing escaped. *)
Definition shellFieldUnescaped (action : ShellAction) : string :=
  "terminal=" +:+ Fmt.verb_t (OpenTerminal action)
    +:+ " shell=" +:+ quoted (Command action)
    +:+ paramFields (Args action).

(** The command [echo "hi"], with one argument. *)
Definition quotedCommand : ShellAction :=
  NewShellAction ("echo " +:+ quoted "hi") ["x"].

(** The first four bytes of a PNG file, behind a [bytes.Reader] that a
    plugin uses as its icon. *)
Definition pngMagic : list byte := [x89; x50; x4e; x47].

Definition statusStore : Store := {[ 0%nat := IO.NewReader pngMagic ]}.

Definition statusPlugin : Plugin := Plugin_WithIcon 0%nat NewPlugin.

(** [nodeAt el d n]: the element [n] sits [d] levels of [children()] under
    the element [el]. *)
Inductive nodeAt : XbarElement -> nat -> XbarElement -> Prop :=
| nodeAt_here (el : XbarElement) : nodeAt el 0 el
| nodeAt_child (el child n : XbarElement) (d : nat) :
    In child (children el) -> nodeAt child d n -> nodeAt el (S d) n.

(** The lines [printElement] writes for an item when nothing fails: one for
    itself, those of its submenu, one more if it has an alternate. *)
Fixpoint lineCount (m : MenuItem) : nat :=
  1 + list_sum (map lineCount (SubMenu m))
    + match Alt m with Some _ => 1 | None => 0 end.

(** An item stripped of its submenu and of its alternate. *)
Definition bareItem (m : MenuItem) : MenuItem :=
  {| Title := Title m; Icon := Icon m; Style_ := Style_ m; Shortcut := Shortcut m;
     Action_ := Action_ m; Refresh := Refresh m; Alt := None; SubMenu := [] |}.

(** The line of an element at a level, and the line of its alternate. *)
Definition lineOf (level : nat) (body : string) : string :=
  Strings.Repeat "--" level +:+ body +:+ String newline "".

Definition altLineOf (level : nat) (body : string) : string :=
  Strings.Repeat "--" level +:+ body +:+ " alternate=true" +:+ String newline "".

(** No icon on an item, on its alternate, or anywhere in its submenu. *)
Fixpoint iconFree (m : MenuItem) : bool :=
  match Icon m with None => true | Some _ => false end
  && match Alt m with
     | Some alt => match Icon alt with None => true | Some _ => false end
     | None => true
     end
  && forallb iconFree (SubMenu m).

Definition iconFreeElement (el : XbarElement) : bool :=
  match el with
  | Separator => true
  | Item m => iconFree m
  end.

(** No icon on the title nor on anything the elements hold. *)
Definition iconFreePlugin (p : Plugin) : bool :=
  match Icon (Plugin_Title p) with None => true | Some _ => false end
  && forallb iconFreeElement (Elements p).

(** What [renderSelf] returns for an item without icon. *)
Definition selfText (isPrintTable : Z -> bool) (m : MenuItem) : string :=
  Strings.Join (partsBeforeIcon isPrintTable m ++ tailParts m) " ".

(** The lines of the protocol for a tree of items without icons: the line
    of the item, then the lines of each child one level deeper, in order,
    then the line of the alternate if there is one, at the level of the
    item. *)
Fixpoint itemLines (isPrintTable : Z -> bool) (level : nat) (m : MenuItem)
  {struct m} : list string :=
  lineOf level (selfText isPrintTable m)
    :: List.concat (map (itemLines isPrintTable (level + 1)) (SubMenu m))
    ++ match Alt m with
       | Some alt => [altLineOf level (selfText isPrintTable alt)]
       | None => []
       end.

Definition elementLines (isPrintTable : Z -> bool) (level : nat) (el : XbarElement)
  : list string :=
  match el with
  | Separator => [lineOf level "---"]
  | Item m => itemLines isPrintTable level m
  end.

(** The title line; then, if there are elements, a separator line and the
    lines of each element at level 0. *)
Definition pluginLines (isPrintTable : Z -> bool) (p : Plugin) : list string :=
  ln (selfText isPrintTable (Plugin_Title p))
    :: match Elements p with
       | [] => []
       | _ :: _ =>
           ln "---" :: List.concat (map (elementLines isPrintTable 0) (Elements p))
       end.

(** A plugin with an item, and under a second item a child whose icon
    cannot be read: the reader delivers four bytes and then fails. *)
Definition ErrUnexpectedEOF : IO.error := "unexpected EOF".

Definition brokenStore : Store :=
  {[ 7%nat := IO.Chunk pngMagic (IO.Fault ErrUnexpectedEOF IO.AtEOF) ]}.

Definition brokenPlugin : Plugin :=
  WithElements
    [Item (NewMenuItem "Hello");
     Item (WithSubMenu [WithIcon 7%nat (NewMenuItem "Status"); NewMenuItem "After"]
             (NewMenuItem "Statuses"));
     Item (NewMenuItem "Last")]
    (WithText "T" NewPlugin).

(** A plugin titled [Submenu] with one item, [Places], that holds [London]
    and [Paris]. *)
Definition placesPlugin : Plugin :=
  WithElements
    [Item (WithSubMenu [NewMenuItem "London"; NewMenuItem "Paris"]
             (NewMenuItem "Places"))]
    (WithText "Submenu" NewPlugin).

(** An item with two children and an alternate. *)
Definition placesWithAlt : MenuItem :=
  WithAlt (NewMenuItem "Option key is pressed")
    (WithSubMenu [NewMenuItem "London"; NewMenuItem "Paris"] (NewMenuItem "Places")).

(** A computation over a recording writer that only appends to the
    record: run with lines already recorded, it does what it does from an
    empty record, its lines put after theirs. *)
Definition appends {A} (c : M (Store * list string) A) : Prop :=
  forall h log,
    c (h, log) = (fst (c (h, [])), (fst (snd (c (h, []))), log ++ snd (snd (c (h, []))))).

(** A computation that neither reads nor changes the readers. *)
Definition storeBlind {W A} (c : M (Store * W) A) : Prop :=
  forall h w, c (h, w) = (fst (c (∅, w)), (h, snd (snd (c (∅, w))))).

(** A computation on the readers that returns the same value from every
    store and leaves the store alone. *)
Definition pureOnStore {A} (c : M Store A) : Prop :=
  exists a, forall h, c h = (Ret a, h).

(** Handing the lines of a record to a writer, one [Write] each, until one
    fails. *)
Fixpoint replay {W} `{IO.Writer W} (w : W) (log : list string) : W * option IO.error :=
  match log with
  | [] => (w, None)
  | line :: rest =>
      match IO.Write w line with
      | (w', None) => replay w' rest
      | (w', Some e) => (w', Some e)
      end
  end.

(** [c] does to a writer what [recorded] does to a record: whenever the
    writer accepts the lines [recorded] writes, [c] has the outcome of
    [recorded], leaves the readers as [recorded] does, and has handed the
    writer those lines in that order. *)
Definition follows {W} `{IO.Writer W} {A} (c : M (Store * W) A)
    (recorded : M (Store * list string) A) : Prop :=
  forall h w w',
    replay w (snd (snd (recorded (h, [])))) = (w', None) ->
    c (h, w) = (fst (recorded (h, [])), (fst (snd (recorded (h, []))), w')).

(** The plugins of [xbargo_test.go] ([userHomeDir] is [/tmp/xbargo_test]). *)
Definition runShellPlugin : Plugin :=
  WithElements
    [Item (WithAlt (WithShell "say" ["goodbye"; "world"] (NewMenuItem "🗣️ Say Goodbye"))
             (WithShell "say" ["hello"; "world"] (NewMenuItem "🗣️ Say Hello")));
     Separator;
     Item (WithShortcut "b" [ShiftKey]
             (WithShell "open"
                ["-b"; "com.apple.systempreferences";
                 "/System/Library/PreferencePanes/Battery.prefPane"]
                (NewMenuItem "🔋 Battery Preferences")));
     Separator;
     Item (WithSubMenu
             [WithAction
                (Shell (WithTerminal
                          (NewShellAction "tree" ["-d"; "-L"; "1"; "/tmp/xbargo_test"])))
                (NewMenuItem "View Tree");
              WithShortcut "c" [CommandKey]
                (WithAction (Shell (NewCopyAction "/tmp/xbargo_test"))
                   (NewMenuItem "Copy Path"))]
             (NewMenuItem "🏠 Home Directory"));
     Separator;
     Item (WithShortcut "n" [ControlKey; OptionKey]
             (WithShell "osascript"
                ["-e";
                 "display notification " +:+ quoted "This is a notification"
                   +:+ " with title " +:+ quoted "Example"
                   +:+ " subtitle " +:+ quoted "Thanks for clicking!"]
                (NewMenuItem "ℹ️ Send Notification")))]
    (WithText "🐌" NewPlugin).

Definition alternateOptionsPlugin : Plugin :=
  WithElements
    [Item (WithAlt (NewMenuItem "Option key is pressed") (NewMenuItem "Hello"));
     Item (NewMenuItem "Another")]
    (WithText "Alternate Options" NewPlugin).

Definition submenusPlugin : Plugin :=
  WithElements
    [Item (WithSubMenu [NewMenuItem "London"; NewMenuItem "Paris"; NewMenuItem "Tokyo"]
             (NewMenuItem "Places"));
     Separator;
     Item (WithSubMenu
             [NewMenuItem "Apple"; NewMenuItem "Orange";
              WithSubMenu [NewMenuItem "Watermelon"; NewMenuItem "Honeydew"]
                (NewMenuItem "Melon")]
             (NewMenuItem "Fruit"))]
    (WithText "Submenu" NewPlugin).

Definition bytesOf (s : string) : list byte :=
  map byte_of_ascii (list_ascii_of_string s).

(** ** Vocabulary of the further properties *)

(** Two items that hold the same reader, as two items given the same
    package-level icon do. *)
Definition sharedStore : Store := {[ 3%nat := IO.NewReader pngMagic ]}.

Definition firstUser : MenuItem := WithIcon 3%nat (NewMenuItem "Available").

Definition secondUser : MenuItem := WithIcon 3%nat (NewMenuItem "Also available").

(** An item with every optional field set. *)
Definition fullItem : MenuItem :=
  WithRefresh
    (WithIcon 3%nat
       (WithHref "https://xbarapp.com"
          (WithStyle {| MaxLength := 12; Color := "red"; IconImageTemplate := false |}
             (WithShortcut "k" [ShiftKey] (NewMenuItem "Site"))))).

(** [c] gives up where the writer does: when the writer refuses one of the
    lines [recorded] writes, with the error [e], [c] returns [e] and leaves
    the writer as that refusal left it. *)
Definition stops {W} `{IO.Writer W} (c : M (Store * W) (option IO.error))
    (recorded : M (Store * list string) (option IO.error)) : Prop :=
  forall h w w' e,
    replay w (snd (snd (recorded (h, [])))) = (w', Some e) ->
    exists h', c (h, w) = (Ret (Some e), (h', w')).

(** A computation over a recording writer that returns no error. *)
Definition quiet (c : M (Store * list string) (option IO.error)) : Prop :=
  forall st e, fst (c st) <> Ret (Some e).

(** [deeper] puts one more [--] in front of a line. *)
Definition deeper (line : string) : string := "--" +:+ line.

(** [c1] does what [c0] does, each of its lines one level deeper. *)
Definition nested {A} (c1 c0 : M (Store * list string) A) : Prop :=
  forall h,
    c1 (h, []) = (fst (c0 (h, [])),
                  (fst (snd (c0 (h, []))), map deeper (snd (snd (c0 (h, [])))))).

(** The body of the line of an item: it ends with the two fields that
    [renderSelf] always appends. *)
Definition itemBody (body : string) : Prop :=
  exists front refresh,
    body = front +:+ " refresh=" +:+ Fmt.verb_t refresh +:+ " trim=false".

(** The lines of the protocol: a separator, an item or the alternate of
    an item, at some level, each ended by a newline. *)
Inductive protocolLine : string -> Prop :=
| separatorLine (level : nat) : protocolLine (lineOf level "---")
| itemLine (level : nat) (body : string) :
    itemBody body -> protocolLine (lineOf level body)
| alternateLine (level : nat) (body : string) :
    itemBody body -> protocolLine (altLineOf level body).

(** A computation over a recording writer that writes lines of the
    protocol only. *)
Definition writesLines {A} (c : M (Store * list string) A) : Prop :=
  forall h, Forall protocolLine (snd (snd (c (h, [])))).

(** A string without a newline byte. *)
Fixpoint noNewline (s : string) : bool :=
  match s with
  | EmptyString => true
  | String c rest => negb (Ascii.eqb c newline) && noNewline rest
  end.

(** The strings of an item that [renderSelf] formats with [%s]. *)
Definition verbatimFields (m : MenuItem) : list string :=
  Title m :: Shortcut m :: Color (Style_ m)
    :: match Action_ m with
       | Some (Href action) => [URI action]
       | Some (Shell action) => Args action
       | _ => []
       end.

(** The 64 characters of the standard alphabet and the padding. *)
Definition inAlphabet (c : ascii) : bool :=
  existsb (Ascii.eqb c) (list_ascii_of_string Base64.encodeStd)
  || Ascii.eqb c Base64.StdPadding.

(** A command of two lines, and an icon of four bytes. *)
Definition twoLineCommand : MenuItem :=
  WithIcon 3%nat
    (WithShell ("date" +:+ String newline "uptime") ["-u"] (NewMenuItem "Clock")).

(** Neither a double quote nor a backslash. *)
Definition plainChar (c : ascii) : bool :=
  negb (Ascii.eqb c dquote) && negb (Ascii.eqb c backslash).

Definition plain (s : string) : bool := forallb plainChar (list_ascii_of_string s).

(** Read from left to right, a backslash taking the byte after it along,
    the string holds no double quote that stands alone and does not end
    amid an escape. *)
Fixpoint escaped (s : string) : bool :=
  match s with
  | EmptyString => true
  | String c rest =>
      if Ascii.eqb c backslash then
        match rest with
        | EmptyString => false
        | String _ rest' => escaped rest'
        end
      else negb (Ascii.eqb c dquote) && escaped rest
  end.

(** The [Write] calls of a run in which nothing fails: one for the title,
    one for the separator under it if there are elements, one for each
    separator, and for each item those counted by [lineCount]. *)
Definition elementLineCount (el : XbarElement) : nat :=
  match el with
  | Separator => 1
  | Item m => lineCount m
  end.

Definition pluginLineCount (p : Plugin) : nat :=
  1 + (if (0 <? length (Elements p))%nat then 1 else 0)
    + list_sum (map elementLineCount (Elements p)).

(** The readers that printing an item reads, in the order of the reads:
    its icon, those of its submenu, the icon of its alternate. *)
Definition iconOf (m : MenuItem) : list nat :=
  match Icon m with Some icon => [icon] | None => [] end.

Fixpoint icons (m : MenuItem) : list nat :=
  iconOf m
    ++ List.concat (map icons (SubMenu m))
    ++ match Alt m with Some alt => iconOf alt | None => [] end.

Definition elementIcons (el : XbarElement) : list nat :=
  match el with
  | Separator => []
  | Item m => icons m
  end.

Definition pluginIcons (p : Plugin) : list nat :=
  iconOf (Plugin_Title p) ++ List.concat (map elementIcons (Elements p)).



(** The error [io.ReadAll] meets on the reader behind a reference, if it
    meets one; and the first such error among references, in their
    order. *)
Definition faultAt (h : Store) (icon : nat) : option IO.error :=
  match h !! icon with
  | Some rd => snd (fst (IO.ReadAll rd))
  | None => None
  end.

Fixpoint firstFault (h : Store) (refs : list nat) : option IO.error :=
  match refs with
  | [] => None
  | icon :: rest =>
      match faultAt h icon with
      | Some e => Some e
      | None => firstFault h rest
      end
  end.

(** A computation on the readers that panics with the first fault among
    [refs], and without one returns and leaves every reader as good or
    as bad as it was. *)
Definition faultsOn {A} (c : M Store A) (refs : list nat) : Prop :=
  forall h,
    match firstFault h refs with
    | Some e => exists h', c h = (Panic e, h')
    | None => exists a h', c h = (Ret a, h') /\ forall i, faultAt h' i = faultAt h i
    end.

(** The same for a computation that writes to a record, and returns nil
    when it does not panic. *)
Definition faults (c : M (Store * list string) (option IO.error))
    (refs : list nat) : Prop :=
  forall h log,
    match firstFault h refs with
    | Some e => exists st, c (h, log) = (Panic e, st)
    | None => exists h' log', c (h, log) = (Ret None, (h', log'))
                              /\ forall i, faultAt h' i = faultAt h i
    end.

(** A pipe that takes [n] more writes. *)
Definition pipeWith (n : nat) : IO.Pipe := {| IO.accepted := []; IO.room := n |}.



(** * Properties *)

(** ** Strings *)

Lemma append_cons (x : ascii) (a b : string) :
  String x a +:+ b = String x (a +:+ b).
Proof. reflexivity. Qed.

Lemma append_assoc (a b c : string) : (a +:+ b) +:+ c = a +:+ (b +:+ c).
Proof.
  induction a as [|x a IH]; [reflexivity|].
  rewrite !append_cons. cbn. now rewrite IH.
Qed.

Lemma append_nil_r (a : string) : a +:+ "" = a.
Proof.
  induction a as [|x a IH]; [reflexivity|].
  rewrite !append_cons. cbn. now rewrite IH.
Qed.

Lemma length_append (a b : string) :
  String.length (a +:+ b) = (String.length a + String.length b)%nat.
Proof.
  induction a as [|x a IH]; [reflexivity|].
  rewrite !append_cons. cbn. now rewrite IH.
Qed.

Lemma concat_nosep_cons (x : string) (l : list string) :
  String.concat "" (x :: l) = x +:+ String.concat "" l.
Proof. destruct l; cbn; [now rewrite append_nil_r | reflexivity]. Qed.

Lemma Join_snoc (l : list string) (a b sep : string) :
  Strings.Join (l ++ [a; b]) sep = Strings.Join (l ++ [a]) sep +:+ sep +:+ b.
Proof.
  unfold Strings.Join. induction l as [|x l IH]; simpl.
  - reflexivity.
  - destruct l as [|y l]; simpl in *.
    + now rewrite ?append_assoc.
    + rewrite IH. now rewrite ?append_assoc.
Qed.

Lemma Join_snoc1 (l : list string) (a sep : string) :
  l <> [] -> Strings.Join (l ++ [a]) sep = Strings.Join l sep +:+ sep +:+ a.
Proof.
  unfold Strings.Join. induction l as [|x l IH]; intros Hne; [congruence|].
  destruct l as [|y l]; [reflexivity|].
  cbn [app String.concat] in *. rewrite IH by discriminate.
  now rewrite !append_assoc.
Qed.

Lemma length_Repeat (s : string) (n : nat) :
  String.length (Strings.Repeat s n) = (n * String.length s)%nat.
Proof. induction n as [|n IH]; simpl; [reflexivity|]. rewrite length_append. lia. Qed.

Lemma Repeat_succ (s : string) (n : nat) :
  Strings.Repeat s (n + 1) = s +:+ Strings.Repeat s n.
Proof. now rewrite Nat.add_1_r. Qed.

(** ** The monad *)

Lemma bind_ret {S A B} (c : M S A) (k : A -> M S B) st a st' :
  c st = (Ret a, st') -> bind c k st = k a st'.
Proof. unfold bind. now intros ->. Qed.

Lemma bind_panic {S A B} (c : M S A) (k : A -> M S B) st e st' :
  c st = (Panic e, st') -> bind c k st = (Panic e, st').
Proof. unfold bind. now intros ->. Qed.

Lemma onStore_eq {W A} (c : M Store A) (h : Store) (w : W) :
  onStore c (h, w) = (fst (c h), (snd (c h), w)).
Proof. unfold onStore. now destruct (c h). Qed.

Lemma forEach_cons {S A} (f : A -> M S (option IO.error)) x l :
  forEach f (x :: l) = (err <- f x ;; orReturn err (forEach f l)).
Proof. reflexivity. Qed.

Lemma forEach_app {S A} (f : A -> M S (option IO.error)) l1 l2 st st1 :
  forEach f l1 st = (Ret None, st1) ->
  forEach f (l1 ++ l2) st = forEach f l2 st1.
Proof.
  revert st. induction l1 as [|x l1 IH]; intros st Hrun.
  - cbn in Hrun. now inversion Hrun.
  - rewrite <- app_comm_cons, forEach_cons. rewrite forEach_cons in Hrun.
    unfold bind in *. destruct (f x st) as [[[e|]|e] st2]; cbn in *;
      try discriminate.
    now apply IH.
Qed.

(** ** Bytes and characters *)

Lemma Z_of_ascii_range (c : ascii) : 0 <= Z_of_ascii c < 256.
Proof. unfold Z_of_ascii. pose proof (N_ascii_bounded c). lia. Qed.

Lemma ascii_of_Z_of_ascii (c : ascii) : ascii_of_Z (Z_of_ascii c) = c.
Proof.
  unfold ascii_of_Z. rewrite Z.mod_small by apply Z_of_ascii_range.
  unfold Z_of_ascii. rewrite N2Z.id. apply ascii_N_embedding.
Qed.

Lemma Z_of_ascii_inj (c d : ascii) : Z_of_ascii c = Z_of_ascii d -> c = d.
Proof.
  intros E. rewrite <- (ascii_of_Z_of_ascii c), <- (ascii_of_Z_of_ascii d).
  now rewrite E.
Qed.

Lemma ascii_eqb_Z (c d : ascii) :
  Ascii.eqb c d = (Z_of_ascii c =? Z_of_ascii d).
Proof.
  destruct (Ascii.eqb_spec c d) as [->|Hne].
  - now rewrite Z.eqb_refl.
  - symmetry. apply Z.eqb_neq. intros E. now apply Hne, Z_of_ascii_inj.
Qed.

(** ** The loop of [Quote] runs to the end of the string *)

Lemma DecodeRuneInString_width (c : ascii) (t : string) :
  (1 <= snd (Utf8.DecodeRuneInString (String c t)) <= 4)%nat.
Proof.
  unfold Utf8.DecodeRuneInString.
  repeat case_match; cbn [snd]; lia.
Qed.

Lemma length_skip (width : nat) (s : string) :
  (String.length (Strconv.skip width s) <= String.length s)%nat.
Proof.
  revert s. induction width as [|width IH]; intros [|c t]; cbn; try lia.
  specialize (IH t). lia.
Qed.

Lemma length_skip_cons (width : nat) (c : ascii) (t : string) :
  (1 <= width)%nat ->
  (String.length (Strconv.skip width (String c t)) <= String.length t)%nat.
Proof. destruct width; [lia|]. intros _. cbn [Strconv.skip]. apply length_skip. Qed.

(** Every turn of the loop drops at least one byte: with as many turns as
    the string has bytes, the loop ends on the empty string, and more turns
    change nothing. *)
Lemma quoteLoop_turns (isPrintTable : Z -> bool) (n : nat) : forall m s,
  (String.length s <= n)%nat -> (String.length s <= m)%nat ->
  Strconv.quoteLoop isPrintTable n s = Strconv.quoteLoop isPrintTable m s.
Proof.
  induction n as [|n IH]; intros m s Hn Hm.
  - destruct s; [now destruct m | cbn in Hn; lia].
  - destruct s as [|c t]; [now destruct m|].
    destruct m as [|m]; [cbn in Hm; lia|].
    cbn [Strconv.quoteLoop]. cbn [String.length] in Hn, Hm.
    pose proof (DecodeRuneInString_width c t) as Hwidth.
    destruct (Utf8.DecodeRuneInString (String c t)) as [r width].
    cbn [snd] in Hwidth.
    pose proof (length_skip_cons width c t ltac:(lia)) as Hskip.
    pose proof (length_skip_cons 1 c t ltac:(lia)) as Hskip1.
    destruct (Utf8.RuneSelf <=? Z_of_ascii c).
    + destruct ((width =? 1)%nat && (r =? Utf8.RuneError)).
      * do 3 f_equal. apply IH; lia.
      * f_equal. apply IH; lia.
    + destruct ((1 =? 1)%nat && (Z_of_ascii c =? Utf8.RuneError)).
      * do 3 f_equal. apply IH; lia.
      * f_equal. apply IH; lia.
Qed.

(** ** A reader is read once *)

(** A reader that [io.ReadAll] read to the end is at the end. *)
Lemma ReadAll_drains (rd : IO.Reader) (b : list byte) (rd' : IO.Reader) :
  IO.ReadAll rd = (b, None, rd') -> rd' = IO.AtEOF.
Proof.
  revert b. induction rd as [|p next IH|e next IH]; intros b Hread; cbn in Hread.
  - now inversion Hread.
  - destruct (IO.ReadAll next) as [[b' err] r'].
    inversion Hread; subst. now apply (IH b').
  - discriminate.
Qed.

(** After a read to the end, the next read of the same reader finds no
    byte. *)
Lemma ReadAllAt_again (icon : nat) (h h' : Store) (rd : IO.Reader) (b : list byte) :
  h !! icon = Some rd ->
  ReadAllAt icon h = (Ret (b, None), h') ->
  ReadAllAt icon h' = (Ret ([], None), h').
Proof.
  unfold ReadAllAt. intros Hrd. rewrite Hrd.
  destruct (IO.ReadAll rd) as [[b' err] rd'] eqn:Hread. intros Hrun.
  inversion Hrun; subst.
  rewrite lookup_insert_eq, (ReadAll_drains rd b rd' Hread). cbn.
  now rewrite insert_insert_eq.
Qed.

Lemma Z_of_byte_range (b : byte) : 0 <= Z_of_byte b < 2 ^ 8.
Proof. unfold Z_of_byte. pose proof (Byte.to_N_bounded b). lia. Qed.

Lemma byte_of_Z_of_byte (b : byte) : byte_of_Z (Z_of_byte b) = b.
Proof.
  unfold byte_of_Z. rewrite Z.mod_small by apply Z_of_byte_range.
  unfold Z_of_byte. now rewrite N2Z.id, Byte.of_to_N.
Qed.

Lemma byte_of_Z_mod (z : Z) (b : byte) :
  z mod 256 = Z_of_byte b -> byte_of_Z z = b.
Proof.
  intros E. rewrite <- (byte_of_Z_of_byte b). unfold byte_of_Z.
  rewrite E. now rewrite (Z.mod_small (Z_of_byte b)) by apply Z_of_byte_range.
Qed.

(** ** Base64 *)
Module Base64Facts.
Import Base64.

(** Each of the 64 positions of the alphabet decodes to itself, and none
    holds the padding character. *)
Lemma alphabet_table :
  forallb (fun n => (decodeMap (encode (Z.of_nat n)) =? Z.of_nat n)
                      && negb (Ascii.eqb (encode (Z.of_nat n)) StdPadding))
          (seq 0 64) = true.
Proof. vm_compute. reflexivity. Qed.

Lemma decodeMap_encode (i : Z) :
  0 <= i < 64 ->
  decodeMap (encode i) = i /\ Ascii.eqb (encode i) StdPadding = false.
Proof.
  intros Hi. pose proof alphabet_table as Htab.
  rewrite forallb_forall in Htab.
  assert (Hin : In (Z.to_nat i) (seq 0 64)) by (apply in_seq; lia).
  apply Htab in Hin. rewrite Z2Nat.id in Hin by lia.
  apply andb_true_iff in Hin as [Hd Hp].
  apply Z.eqb_eq in Hd. apply negb_true_iff in Hp. now split.
Qed.

Lemma sextet_range (x : Z) : 0 <= Z.land x 0x3F < 64.
Proof.
  change 0x3F with (Z.ones 6). rewrite Z.land_ones by lia.
  apply Z.mod_pos_bound. lia.
Qed.

Lemma decode_sextet (x : Z) :
  decodeMap (encode (Z.land x 0x3F)) = Z.land x 0x3F
  /\ Ascii.eqb (encode (Z.land x 0x3F)) StdPadding = false
  /\ (Z.land x 0x3F =? 0xFF) = false.
Proof.
  pose proof (sextet_range x) as Hr.
  destruct (decodeMap_encode _ Hr) as [Hd Hp].
  repeat split; [assumption | assumption | apply Z.eqb_neq; lia].
Qed.

(** Three bytes packed into 24 bits, cut into four sextets and packed
    again, are the same three bytes. *)
Lemma quantum3 (a b c : Z) :
  0 <= a < 2 ^ 8 -> 0 <= b < 2 ^ 8 -> 0 <= c < 2 ^ 8 ->
  let val := Z.lor (Z.lor (Z.shiftl a 16) (Z.shiftl b 8)) c in
  let val' :=
    Z.lor (Z.lor (Z.lor (Z.shiftl (Z.land (Z.shiftr val 18) 0x3F) 18)
                        (Z.shiftl (Z.land (Z.shiftr val 12) 0x3F) 12))
                 (Z.shiftl (Z.land (Z.shiftr val 6) 0x3F) 6))
          (Z.land val 0x3F) in
  Z.shiftr val' 16 mod 256 = a /\ Z.shiftr val' 8 mod 256 = b
  /\ val' mod 256 = c.
Proof.
  intros Ha Hb Hc val val'. subst val val'.
  change 256 with (2 ^ 8). rewrite <- !Z.land_ones by lia.
  change 0x3F with (Z.ones 6).
  repeat split; prove_Zeq_bitwise.
Qed.

Lemma quantum2 (a b : Z) :
  0 <= a < 2 ^ 8 -> 0 <= b < 2 ^ 8 ->
  let val := Z.lor (Z.shiftl a 16) (Z.shiftl b 8) in
  let val' :=
    Z.lor (Z.lor (Z.shiftl (Z.land (Z.shiftr val 18) 0x3F) 18)
                 (Z.shiftl (Z.land (Z.shiftr val 12) 0x3F) 12))
          (Z.shiftl (Z.land (Z.shiftr val 6) 0x3F) 6) in
  Z.shiftr val' 16 mod 256 = a /\ Z.shiftr val' 8 mod 256 = b.
Proof.
  intros Ha Hb val val'. subst val val'.
  change 256 with (2 ^ 8). rewrite <- !Z.land_ones by lia.
  change 0x3F with (Z.ones 6).
  repeat split; prove_Zeq_bitwise.
Qed.

Lemma quantum1 (a : Z) :
  0 <= a < 2 ^ 8 ->
  let val := Z.shiftl a 16 in
  let val' :=
    Z.lor (Z.shiftl (Z.land (Z.shiftr val 18) 0x3F) 18)
          (Z.shiftl (Z.land (Z.shiftr val 12) 0x3F) 12) in
  Z.shiftr val' 16 mod 256 = a.
Proof.
  intros Ha val val'. subst val val'.
  change 256 with (2 ^ 8). rewrite <- !Z.land_ones by lia.
  change 0x3F with (Z.ones 6).
  prove_Zeq_bitwise.
Qed.

Ltac sextets :=
  repeat match goal with
    | |- context [decodeMap (encode (Z.land ?x 0x3F))] =>
        let Hd := fresh "Hd" in let Hp := fresh "Hp" in let Hn := fresh "Hn" in
        destruct (decode_sextet x) as (Hd & Hp & Hn);
        rewrite ?Hd, ?Hp, ?Hn; clear Hd Hp Hn
    end.

Lemma DecodeString_EncodeToString_upto (n : nat) : forall src : list byte,
  (length src <= n)%nat -> DecodeString (EncodeToString src) = Some src.
Proof.
  induction n as [|n IH]; intros src Hlen.
  - destruct src; [reflexivity | cbn in Hlen; lia].
  - destruct src as [|s0 [|s1 [|s2 rest]]].
    + reflexivity.
    + cbn [EncodeToString DecodeString]. cbv zeta.
      sextets. cbn [orb]. rewrite Ascii.eqb_refl.
      f_equal. f_equal. apply byte_of_Z_mod.
      apply (quantum1 (Z_of_byte s0)), Z_of_byte_range.
    + cbn [EncodeToString DecodeString]. cbv zeta.
      sextets. cbn [orb]. rewrite Ascii.eqb_refl.
      destruct (quantum2 (Z_of_byte s0) (Z_of_byte s1))
        as [H0 H1]; try apply Z_of_byte_range.
      f_equal. f_equal; [|f_equal]; now apply byte_of_Z_mod.
    + cbn [EncodeToString DecodeString]. cbv zeta.
      sextets. cbn [orb].
      rewrite IH by (cbn in Hlen; lia).
      destruct (quantum3 (Z_of_byte s0) (Z_of_byte s1) (Z_of_byte s2))
        as (H0 & H1 & H2); try apply Z_of_byte_range.
      f_equal. f_equal; [|f_equal; [|f_equal]]; now apply byte_of_Z_mod.
Qed.

(** Decoding what [EncodeToString] produced gives the bytes back. *)
Lemma DecodeString_EncodeToString (src : list byte) :
  DecodeString (EncodeToString src) = Some src.
Proof. now apply (DecodeString_EncodeToString_upto (length src)). Qed.

End Base64Facts.

Section Properties.

Variable isPrintTable : Z -> bool.

(** ** %q on printable ASCII *)

Lemma appendEscapedRune_ascii (c : ascii) :
  0x20 <= Z_of_ascii c <= 0x7E ->
  Strconv.appendEscapedRune isPrintTable (Z_of_ascii c) =
    if Ascii.eqb c dquote || Ascii.eqb c backslash
    then String backslash (String c "") else String c "".
Proof.
  intros Hc. unfold Strconv.appendEscapedRune.
  rewrite !ascii_eqb_Z, ascii_of_Z_of_ascii.
  destruct ((Z_of_ascii c =? Z_of_ascii dquote)
            || (Z_of_ascii c =? Z_of_ascii backslash)); [reflexivity|].
  unfold Strconv.IsPrint.
  replace (Z_of_ascii c <=? 0xFF) with true by (symmetry; apply Z.leb_le; lia).
  replace (0x20 <=? Z_of_ascii c) with true by (symmetry; apply Z.leb_le; lia).
  replace (Z_of_ascii c <=? 0x7E) with true by (symmetry; apply Z.leb_le; lia).
  cbn [andb]. unfold Utf8.AppendRune.
  replace (Z_of_ascii c <=? 0x7F) with true by (symmetry; apply Z.leb_le; lia).
  unfold Utf8.bytes. cbn [map string_of_list_ascii].
  now rewrite ascii_of_Z_of_ascii.
Qed.

Lemma quoteLoop_ascii (s : string) :
  printableAscii s = true ->
  forall turns, (String.length s <= turns)%nat ->
  Strconv.quoteLoop isPrintTable turns s = escapeQuotes s.
Proof.
  unfold printableAscii.
  induction s as [|c s IH]; intros Hs turns Hlen.
  - now destruct turns.
  - cbn [list_ascii_of_string forallb] in Hs.
    apply andb_true_iff in Hs as [Hc Hs].
    apply andb_true_iff in Hc as [Hlo Hhi].
    apply Z.leb_le in Hlo, Hhi.
    destruct turns as [|turns]; [cbn in Hlen; lia|].
    cbn [Strconv.quoteLoop].
    replace (Utf8.RuneSelf <=? Z_of_ascii c) with false
      by (symmetry; apply Z.leb_gt; unfold Utf8.RuneSelf; lia).
    cbn [Nat.eqb andb].
    replace (Z_of_ascii c =? Utf8.RuneError) with false
      by (symmetry; apply Z.eqb_neq; unfold Utf8.RuneError; lia).
    rewrite appendEscapedRune_ascii by lia.
    cbn [Strconv.skip escapeQuotes].
    rewrite IH by (cbn in Hlen; auto; lia).
    now destruct (Ascii.eqb c dquote || Ascii.eqb c backslash).
Qed.

Lemma Quote_ascii (s : string) :
  printableAscii s = true ->
  Strconv.Quote isPrintTable s
    = String dquote (escapeQuotes s +:+ String dquote "").
Proof.
  intros Hs. unfold Strconv.Quote. now rewrite quoteLoop_ascii.
Qed.

(** ** The loop over the arguments *)

Lemma paramLoop_spec (args : list string) : forall part i,
  paramLoop part i args
    = part +:+ String.concat ""
        (imap (fun j arg => " param" +:+ Fmt.verb_d (N.of_nat (i + j + 1))
                              +:+ "='" +:+ arg +:+ "'") args).
Proof.
  induction args as [|arg args IH]; intros part i.
  - cbn. now rewrite append_nil_r.
  - cbn [paramLoop]. rewrite IH, imap_cons, concat_nosep_cons.
    rewrite Nat.add_0_r, append_assoc. do 3 f_equal.
    apply imap_ext. intros j x _. cbn. do 3 f_equal. lia.
Qed.

Lemma shellPart_spec (action : ShellAction) :
  shellPart isPrintTable action
    = "terminal=" +:+ Fmt.verb_t (OpenTerminal action)
        +:+ " shell=" +:+ Strconv.Quote isPrintTable (Command action)
        +:+ paramFields (Args action).
Proof.
  unfold shellPart, paramFields, Fmt.verb_q. rewrite paramLoop_spec.
  now rewrite !append_assoc.
Qed.

(** ** What [renderSelf] returns *)

Lemma renderSelf_no_icon (m : MenuItem) (h : Store) :
  Icon m = None ->
  MenuItem_renderSelf isPrintTable m h
    = (Ret (Strings.Join (partsBeforeIcon isPrintTable m ++ tailParts m) " "), h).
Proof. intros Hi. unfold MenuItem_renderSelf. now rewrite Hi. Qed.

Lemma renderSelf_icon_read (m : MenuItem) (h h' : Store) icon b :
  Icon m = Some icon ->
  ReadAllAt icon h = (Ret (b, None), h') ->
  MenuItem_renderSelf isPrintTable m h
    = (Ret (Strings.Join
              (partsBeforeIcon isPrintTable m
                 ++ [imageType m +:+ "=" +:+ Base64.EncodeToString b]
                 ++ tailParts m) " "), h').
Proof.
  intros Hi Hread. unfold MenuItem_renderSelf. rewrite Hi.
  unfold bind at 1. unfold bind at 1. rewrite Hread. cbn.
  now rewrite <- app_assoc.
Qed.

Lemma renderSelf_icon_fault (m : MenuItem) (h h' : Store) icon b e :
  Icon m = Some icon ->
  ReadAllAt icon h = (Ret (b, Some e), h') ->
  MenuItem_renderSelf isPrintTable m h = (Panic e, h').
Proof.
  intros Hi Hread. unfold MenuItem_renderSelf. rewrite Hi.
  unfold bind at 1. unfold bind at 1. now rewrite Hread.
Qed.

Lemma ReadAllAt_returns (icon : nat) (h : Store) :
  exists b err h', ReadAllAt icon h = (Ret (b, err), h').
Proof.
  unfold ReadAllAt. destruct (h !! icon) as [rd|]; [|now eauto].
  destruct (IO.ReadAll rd) as [[b err] rd']. eauto.
Qed.

(** ** C3 *)

(** C3.  A menu item with no shortcut, a zero [MaxLength], no colour, no
    action, no icon and [Refresh] false renders as its title followed by
    [| refresh=false trim=false], whatever the readers hold, and reads
    nothing. *)
Theorem C3_field_presence (m : MenuItem) (h : Store) :
  Shortcut m = "" ->
  MaxLength (Style_ m) = 0%N ->
  Color (Style_ m) = "" ->
  Action_ m = None ->
  Icon m = None ->
  Refresh m = false ->
  MenuItem_renderSelf isPrintTable m h
    = (Ret (Title m +:+ "| refresh=false trim=false"), h).
Proof.
  intros Hkey Hlen Hcolor Haction Hicon Hrefresh.
  rewrite renderSelf_no_icon by assumption.
  unfold partsBeforeIcon, partsBeforeAction, tailParts.
  rewrite Hkey, Hlen, Hcolor, Haction, Hrefresh. cbn.
  now rewrite append_assoc.
Qed.

(** ** C10 *)

(** C10.  [NewCopyAction(text)] is the shell action that runs [/bin/bash]
    with the two arguments [-c] and [echo -n <text> | pbcopy], the text
    copied in as it is, and does not open a terminal; rendered, the text
    stands unchanged between the single quotes of [param2]. *)
Theorem C10_copy_action (text : string) :
  Command (NewCopyAction text) = "/bin/bash"
  /\ Args (NewCopyAction text) = ["-c"; "echo -n " +:+ text +:+ " | pbcopy"]
  /\ OpenTerminal (NewCopyAction text) = false
  /\ shellPart isPrintTable (NewCopyAction text)
       = "terminal=false shell=" +:+ quoted "/bin/bash"
           +:+ " param1='-c' param2='echo -n " +:+ text +:+ " | pbcopy'".
Proof.
  repeat split.
  rewrite shellPart_spec. cbn [NewCopyAction Command Args OpenTerminal].
  rewrite Quote_ascii by reflexivity.
  unfold paramFields. cbn.
  now rewrite !append_assoc.
Qed.

(** ** C2 *)

(** C2 (amended).  For a menu item whose action is a [ShellAction], the
    action field is [terminal=<true|false> shell=<q>] followed by
    [ param<i>='<arg>'] for each argument, numbered from one, in order,
    each argument between single quotes and unescaped.  [<q>] is the
    command as [%q] formats it: for a command of printable ASCII, the
    command between double quotes with a backslash put before every
    embedded double quote and backslash. *)
Theorem C2_shell_action_field (m : MenuItem) (action : ShellAction) :
  Action_ m = Some (Shell action) ->
  partsBeforeIcon isPrintTable m
    = partsBeforeAction m ++ [shellPart isPrintTable action]
  /\ shellPart isPrintTable action
       = "terminal=" +:+ Fmt.verb_t (OpenTerminal action)
           +:+ " shell=" +:+ Fmt.verb_q isPrintTable (Command action)
           +:+ paramFields (Args action)
  /\ (printableAscii (Command action) = true ->
        Fmt.verb_q isPrintTable (Command action)
          = String dquote (escapeQuotes (Command action) +:+ String dquote "")).
Proof.
  intros Haction. split; [|split].
  - unfold partsBeforeIcon. now rewrite Haction.
  - apply shellPart_spec.
  - apply Quote_ascii.
Qed.

(** ** C8 *)

(** C8.  For a menu item with an icon whose reader is read to the end
    without error, [renderSelf] puts, after the fields before it and
    before [refresh], the field [<imageType>=<base64>]: the payload is the
    padded standard encoding of the bytes read, decoding it gives those
    bytes back, and the image type is [templateImage] for a template icon
    and [image] otherwise. *)
Theorem C8_icon_field (m : MenuItem) (h : Store) (icon : nat)
    (rd rd' : IO.Reader) (b : list byte) :
  Icon m = Some icon ->
  h !! icon = Some rd ->
  IO.ReadAll rd = (b, None, rd') ->
  MenuItem_renderSelf isPrintTable m h
    = (Ret (Strings.Join
              (partsBeforeIcon isPrintTable m
                 ++ [imageType m +:+ "=" +:+ Base64.EncodeToString b]
                 ++ tailParts m) " "),
       <[icon := rd']> h)
  /\ Base64.DecodeString (Base64.EncodeToString b) = Some b
  /\ imageType m
       = (if IconImageTemplate (Style_ m) then "templateImage" else "image").
Proof.
  intros Hicon Hrd Hread. split; [|split].
  - apply renderSelf_icon_read with (icon := icon); [assumption|].
    unfold ReadAllAt. now rewrite Hrd, Hread.
  - apply Base64Facts.DecodeString_EncodeToString.
  - reflexivity.
Qed.

(** ** [renderSelf] never returns the empty string *)

Lemma partsBeforeIcon_cons (m : MenuItem) :
  exists rest, partsBeforeIcon isPrintTable m = (Title m +:+ "|") :: rest.
Proof.
  unfold partsBeforeIcon, partsBeforeAction.
  destruct (nonEmpty (Shortcut m)), (0 <? MaxLength (Style_ m))%N,
    (nonEmpty (Color (Style_ m))), (Action_ m) as [[a|a|]|]; cbn; eauto.
Qed.

(** What [renderSelf] returns ends with the two fields it appends last,
    each after a space. *)
Lemma renderSelf_ends (m : MenuItem) (h h' : Store) (s : string) :
  MenuItem_renderSelf isPrintTable m h = (Ret s, h') ->
  exists front,
    s = front +:+ " refresh=" +:+ Fmt.verb_t (Refresh m) +:+ " trim=false".
Proof.
  intros Hrun.
  assert (Hshape : exists first rest,
             s = Strings.Join ((first :: rest) ++ tailParts m) " ").
  { destruct (partsBeforeIcon_cons m) as [rest Hparts].
    destruct (Icon m) as [icon|] eqn:Hicon.
    - destruct (ReadAllAt_returns icon h) as (b & [e|] & h1 & Hread).
      + rewrite (renderSelf_icon_fault m h h1 icon b e Hicon Hread) in Hrun.
        discriminate.
      + rewrite (renderSelf_icon_read m h h1 icon b Hicon Hread), Hparts in Hrun.
        exists (Title m +:+ "|"),
               (rest ++ [imageType m +:+ "=" +:+ Base64.EncodeToString b]).
        inversion Hrun; subst. f_equal. cbn [app].
        now rewrite <- List.app_assoc.
    - rewrite (renderSelf_no_icon m h Hicon), Hparts in Hrun.
      inversion Hrun; subst. eauto. }
  destruct Hshape as (first & rest & ->). unfold tailParts.
  rewrite Join_snoc, Join_snoc1 by discriminate.
  exists (Strings.Join (first :: rest) " ").
  now rewrite !append_assoc.
Qed.

Lemma nonEmpty_append_r (a b : string) : nonEmpty b = true -> nonEmpty (a +:+ b) = true.
Proof. destruct a; [trivial | reflexivity]. Qed.

Lemma renderSelf_nonEmpty (m : MenuItem) (h h' : Store) (s : string) :
  MenuItem_renderSelf isPrintTable m h = (Ret s, h') -> nonEmpty s = true.
Proof.
  intros Hrun. destruct (renderSelf_ends m h h' s Hrun) as [front ->].
  apply nonEmpty_append_r. reflexivity.
Qed.


(** [renderSelf] returns, unless the read of the icon fails. *)
Lemma renderSelf_outcome (m : MenuItem) (h : Store) :
  (exists s h', MenuItem_renderSelf isPrintTable m h = (Ret s, h'))
  \/ (exists icon rd b e rd',
        Icon m = Some icon /\ h !! icon = Some rd
        /\ IO.ReadAll rd = (b, Some e, rd')
        /\ MenuItem_renderSelf isPrintTable m h = (Panic e, <[icon := rd']> h)).
Proof.
  destruct (Icon m) as [icon|] eqn:Hicon.
  - destruct (h !! icon) as [rd|] eqn:Hrd.
    + destruct (IO.ReadAll rd) as [[b [e|]] rd'] eqn:Hread.
      * right. exists icon, rd, b, e, rd'. repeat split; try assumption.
        apply renderSelf_icon_fault with (icon := icon) (b := b); [assumption|].
        unfold ReadAllAt. now rewrite Hrd, Hread.
      * left. eexists _, _.
        apply renderSelf_icon_read with (icon := icon) (b := b); [assumption|].
        unfold ReadAllAt. now rewrite Hrd, Hread.
    + left. eexists _, _.
      apply renderSelf_icon_read with (icon := icon) (b := []); [assumption|].
      unfold ReadAllAt. now rewrite Hrd.
  - left. eexists _, _. now apply renderSelf_no_icon.
Qed.

(** ** Induction on a menu tree *)

Lemma MenuItem_submenu_ind (P : MenuItem -> Prop) :
  (forall m : MenuItem, Forall P (SubMenu m) -> P m) -> forall m : MenuItem, P m.
Proof.
  intros step. fix IH 1. intros m. apply step.
  destruct m as [title icon style key action refresh alt sub]. cbn [SubMenu].
  induction sub as [|child sub IHsub]; constructor; [apply IH | exact IHsub].
Qed.

(** ** Running [printElement] *)

Lemma forEach_map {S A B} (f : B -> M S (option IO.error)) (g : A -> B) l :
  forEach f (map g l) = forEach (fun x => f (g x)) l.
Proof.
  induction l as [|x l IH]; [reflexivity|].
  cbn [map]. rewrite !forEach_cons. now rewrite IH.
Qed.

Lemma forEach_ext {S A} (f g : A -> M S (option IO.error)) l st :
  (forall x st, In x l -> f x st = g x st) ->
  forEach f l st = forEach g l st.
Proof.
  revert st. induction l as [|x l IH]; intros st Hfg; [reflexivity|].
  rewrite !forEach_cons. unfold bind. rewrite Hfg by now left.
  destruct (g x st) as [[[e|]|e] st1]; try reflexivity.
  cbn. apply IH. intros y st2 Hy. apply Hfg. now right.
Qed.

Lemma forEach_panic {S A} (f : A -> M S (option IO.error)) pre x post st st1 e st2 :
  forEach f pre st = (Ret None, st1) ->
  f x st1 = (Panic e, st2) ->
  forEach f (pre ++ x :: post) st = (Panic e, st2).
Proof.
  intros Hpre Hx. rewrite (forEach_app _ _ _ _ _ Hpre), forEach_cons.
  now apply bind_panic.
Qed.

Section Writers.

Context {W : Type} `{IO.Writer W}.

Lemma printItem_eq (m : MenuItem) (level : nat) :
  printItem isPrintTable m level
    = printBody (MenuItem_renderSelf isPrintTable m)
        (forEach (fun child => printItem isPrintTable child (level + 1)) (SubMenu m))
        (MenuItem_renderAlt isPrintTable m) level.
Proof. now destruct m. Qed.

(** [printElement], as the source has it: through the three methods of
    the interface. *)
Lemma printElement_eq (el : XbarElement) (level : nat) (st : Store * W) :
  printElement isPrintTable el level st
    = printBody (renderSelf isPrintTable el)
        (forEach (fun child => printElement isPrintTable child (level + 1))
                 (children el))
        (renderAlt isPrintTable el) level st.
Proof.
  destruct el as [|m]; [reflexivity|].
  cbn [printElement renderSelf renderAlt children]. rewrite printItem_eq.
  unfold MenuItem_children. now rewrite forEach_map.
Qed.

(** [printBody], step by step. *)
Lemma printBody_run (self alt : M Store string)
    (kids : M (Store * W) (option IO.error)) (level : nat) (h : Store) (w : W) :
  printBody self kids alt level (h, w) =
    match self h with
    | (Panic e, h1) => (Panic e, (h1, w))
    | (Ret s, h1) =>
        match IO.Write w (Strings.Repeat "--" level +:+ s +:+ String newline "") with
        | (w1, Some e) => (Ret (Some e), (h1, w1))
        | (w1, None) =>
            match kids (h1, w1) with
            | (Panic e, st) => (Panic e, st)
            | (Ret (Some e), st) => (Ret (Some e), st)
            | (Ret None, (h2, w2)) =>
                match alt h2 with
                | (Panic e, h3) => (Panic e, (h3, w2))
                | (Ret a, h3) =>
                    if nonEmpty a then
                      match IO.Write w2 (Strings.Repeat "--" level +:+ a
                                           +:+ " alternate=true" +:+ String newline "") with
                      | (w3, err) => (Ret err, (h3, w3))
                      end
                    else (Ret None, (h3, w2))
                end
            end
        end
    end.
Proof.
  unfold printBody, bind, onStore, Fprintf, orReturn, ret.
  destruct (self h) as [[s|e] h1]; [|reflexivity].
  destruct (IO.Write w _) as [w1 [e|]]; [reflexivity|].
  destruct (kids (h1, w1)) as [[[e|]|e] [h2 w2]]; try reflexivity.
  destruct (alt h2) as [[a|e] h3]; [|reflexivity].
  destruct (nonEmpty a); [|reflexivity].
  destruct (IO.Write w2 _) as [w3 [e|]]; reflexivity.
Qed.

(** [RunW], step by step. *)
Lemma RunW_run (p : Plugin) (h : Store) (w : W) :
  RunW isPrintTable p (h, w) =
    match MenuItem_renderSelf isPrintTable (Plugin_Title p) h with
    | (Panic e, h1) => (Panic e, (h1, w))
    | (Ret title, h1) =>
        match IO.Write w (title +:+ String newline "") with
        | (w1, Some e) => (Ret (Some e), (h1, w1))
        | (w1, None) =>
            if (0 <? length (Elements p))%nat then
              match IO.Write w1 ("---" +:+ String newline "") with
              | (w2, Some e) => (Ret (Some e), (h1, w2))
              | (w2, None) =>
                  forEach (fun item => printElement isPrintTable item 0)
                          (Elements p) (h1, w2)
              end
            else (Ret None, (h1, w1))
        end
    end.
Proof.
  unfold RunW, bind, onStore, Fprintln, Fprintf, orReturn, ret.
  destruct (MenuItem_renderSelf _ _ h) as [[title|e] h1]; [|reflexivity].
  destruct (IO.Write w _) as [w1 [e|]]; [reflexivity|].
  destruct (0 <? length (Elements p))%nat; [|reflexivity].
  destruct (IO.Write w1 _) as [w2 [e|]]; reflexivity.
Qed.

End Writers.

(** ** A writer that records: every run only appends *)

Lemma appends_run {A} (c : M (Store * list string) A) h log r h' out :
  appends c -> c (h, []) = (r, (h', out)) -> c (h, log) = (r, (h', log ++ out)).
Proof. intros Hc Hrun. rewrite Hc, Hrun. reflexivity. Qed.

Lemma appends_ret {A} (a : A) : appends (ret a).
Proof. intros h log. cbn. now rewrite app_nil_r. Qed.

Lemma appends_onStore {A} (c : M Store A) : appends (onStore c).
Proof. intros h log. rewrite !onStore_eq. cbn. now rewrite app_nil_r. Qed.

Lemma appends_Fprint (text : string) : appends (Fprintf text).
Proof. intros h log. reflexivity. Qed.

Lemma appends_bind {A B} (c : M (Store * list string) A)
    (k : A -> M (Store * list string) B) :
  appends c -> (forall a, appends (k a)) -> appends (bind c k).
Proof.
  intros Hc Hk h log. unfold bind. rewrite (Hc h log).
  destruct (c (h, [])) as [[a|e] [h1 out]]; cbn [fst snd].
  - rewrite (Hk a h1 (log ++ out)), (Hk a h1 out).
    destruct (k a (h1, [])) as [r [h2 out2]]; cbn [fst snd].
    now rewrite app_assoc.
  - reflexivity.
Qed.

Lemma appends_orReturn (err : option IO.error)
    (rest : M (Store * list string) (option IO.error)) :
  appends rest -> appends (orReturn err rest).
Proof. destruct err; [intros _; apply appends_ret | trivial]. Qed.

Lemma appends_forEach {A} (f : A -> M (Store * list string) (option IO.error)) l :
  Forall (fun x => appends (f x)) l -> appends (forEach f l).
Proof.
  induction 1 as [|x l Hx _ IH]; [apply appends_ret|].
  rewrite forEach_cons. apply appends_bind; [assumption|].
  intros err. now apply appends_orReturn.
Qed.

(** Goals [appends c] for a [c] put together from the steps above. *)
Ltac appends_steps :=
  repeat first
    [ assumption
    | apply appends_ret | apply appends_onStore | apply appends_Fprint
    | apply appends_orReturn
    | apply appends_bind; [|intro]
    | match goal with
      | |- appends (if ?b then _ else _) => destruct b
      | H : forall level, appends (forEach _ _) |- appends (forEach _ _) => apply H
      end ].

Lemma appends_printBody self kids alt level :
  appends kids -> appends (printBody self kids alt level).
Proof. intros Hkids. unfold printBody. appends_steps. Qed.

Lemma appends_printItem (m : MenuItem) : forall level,
  appends (printItem isPrintTable m level).
Proof.
  induction m as [m IH] using MenuItem_submenu_ind. intros level.
  rewrite printItem_eq. apply appends_printBody, appends_forEach.
  eapply Forall_impl; [exact IH|]. cbn. auto.
Qed.

Lemma appends_printElement (el : XbarElement) (level : nat) :
  appends (printElement isPrintTable el level).
Proof.
  destruct el as [|m]; [|apply appends_printItem].
  apply appends_printBody, appends_ret.
Qed.

Lemma appends_RunW (p : Plugin) : appends (RunW isPrintTable p).
Proof.
  assert (Hloop : forall level,
             appends (forEach (fun item => printElement isPrintTable item level)
                              (Elements p))).
  { intros level. apply appends_forEach, Forall_forall.
    intros el _. apply appends_printElement. }
  unfold RunW. appends_steps.
Qed.

(** ** Successful runs, taken apart *)

Lemma printBody_recorded (self alt : M Store string)
    (kids : M (Store * list string) (option IO.error)) (level : nat)
    (h h1 h2 h3 : Store) (s a : string) (log out : list string) :
  appends kids ->
  self h = (Ret s, h1) ->
  kids (h1, []) = (Ret None, (h2, out)) ->
  alt h2 = (Ret a, h3) ->
  printBody self kids alt level (h, log)
    = (Ret None, (h3, log ++ [lineOf level s] ++ out
                        ++ (if nonEmpty a then [altLineOf level a] else []))).
Proof.
  intros Hframe Hself Hkids Halt. rewrite printBody_run, Hself.
  cbn [IO.Write IO.Recorder].
  rewrite (appends_run kids h1 _ _ h2 out Hframe Hkids), Halt.
  unfold lineOf, altLineOf.
  destruct (nonEmpty a); cbn [IO.Write IO.Recorder];
    now rewrite <- ?List.app_assoc, ?app_nil_r.
Qed.

Lemma printBody_success (self alt : M Store string)
    (kids : M (Store * list string) (option IO.error)) (level : nat)
    (h h' : Store) (log : list string) :
  appends kids ->
  printBody self kids alt level (h, []) = (Ret None, (h', log)) ->
  exists s h1 out h2 a,
    self h = (Ret s, h1)
    /\ kids (h1, []) = (Ret None, (h2, out))
    /\ alt h2 = (Ret a, h')
    /\ log = [lineOf level s] ++ out
               ++ (if nonEmpty a then [altLineOf level a] else []).
Proof.
  intros Hframe Hrun. rewrite printBody_run in Hrun.
  destruct (self h) as [[s|e] h1] eqn:Hself; [|discriminate].
  cbn [IO.Write IO.Recorder] in Hrun.
  rewrite (Hframe h1 _) in Hrun.
  destruct (kids (h1, [])) as [[[e|]|e] [h2 out]] eqn:Hkids;
    cbn [fst snd] in Hrun; try discriminate.
  destruct (alt h2) as [[a|e] h3] eqn:Halt; [|discriminate].
  exists s, h1, out, h2, a.
  destruct (nonEmpty a); cbn [IO.Write IO.Recorder] in Hrun;
    inversion Hrun; subst; repeat split; try assumption; try reflexivity.
  cbn. now rewrite List.app_nil_r.
Qed.

Lemma forEach_success_cons {A} (f : A -> M (Store * list string) (option IO.error))
    x l h h' out :
  Forall (fun y => appends (f y)) (x :: l) ->
  forEach f (x :: l) (h, []) = (Ret None, (h', out)) ->
  exists h1 out1 out2,
    f x (h, []) = (Ret None, (h1, out1))
    /\ forEach f l (h1, []) = (Ret None, (h', out2))
    /\ out = out1 ++ out2.
Proof.
  intros Hframe Hrun. inversion Hframe as [|? ? Hx Hl]; subst.
  rewrite forEach_cons in Hrun. unfold bind in Hrun.
  destruct (f x (h, [])) as [[[e|]|e] [h1 out1]] eqn:Hfx;
    cbn in Hrun; try discriminate.
  pose proof (appends_forEach f l Hl) as Hloop.
  rewrite (Hloop h1 out1) in Hrun.
  destruct (forEach f l (h1, [])) as [r [h2 out2]] eqn:Hrest.
  cbn [fst snd] in Hrun. inversion Hrun; subst. eauto 6.
Qed.

Lemma forEach_success_member {A} (f : A -> M (Store * list string) (option IO.error))
    l : forall h h' out x,
  Forall (fun y => appends (f y)) l ->
  forEach f l (h, []) = (Ret None, (h', out)) ->
  In x l ->
  exists hx hx' outx,
    f x (hx, []) = (Ret None, (hx', outx)) /\ forall line, In line outx -> In line out.
Proof.
  induction l as [|y l IH]; intros h h' out x Hframe Hrun Hin; [destruct Hin|].
  destruct (forEach_success_cons f y l h h' out Hframe Hrun)
    as (h1 & out1 & out2 & Hy & Hrest & ->).
  destruct Hin as [->|Hin].
  - exists h, h1, out1. split; [assumption|].
    intros line Hline. apply in_or_app. now left.
  - inversion Hframe; subst.
    destruct (IH h1 h' out2 x ltac:(assumption) Hrest Hin)
      as (hx & hx' & outx & Hx & Hsub).
    exists hx, hx', outx. split; [assumption|].
    intros line Hline. apply in_or_app. right. now apply Hsub.
Qed.

Lemma appends_children (el : XbarElement) (level : nat) :
  Forall (fun child => appends (printElement isPrintTable child level)) (children el).
Proof. apply Forall_forall. intros child _. apply appends_printElement. Qed.

(** ** C4 *)

(** C4.  When an item with an alternate is printed and nothing fails, what
    the writer receives is, in this order: the line of the item, every line
    of the subtrees of its children (printed one level deeper), and last
    the line of the alternate, which carries the indent of the item itself
    and ends in [ alternate=true]. *)
Theorem C4_alt_after_children (m alt : MenuItem) (level : nat)
    (h h1 h2 h3 : Store) (self altBody : string) (kids log : list string) :
  Alt m = Some alt ->
  MenuItem_renderSelf isPrintTable m h = (Ret self, h1) ->
  forEach (fun child => printElement isPrintTable child (level + 1))
          (children (Item m)) (h1, []) = (Ret None, (h2, kids)) ->
  MenuItem_renderSelf isPrintTable alt h2 = (Ret altBody, h3) ->
  printElement isPrintTable (Item m) level (h, log)
    = (Ret None,
       (h3, log ++ [Strings.Repeat "--" level +:+ self +:+ String newline ""]
                ++ kids
                ++ [Strings.Repeat "--" level +:+ altBody
                      +:+ " alternate=true" +:+ String newline ""])).
Proof.
  intros Halt Hself Hkids Hbody. rewrite printElement_eq.
  rewrite (printBody_recorded _ _ _ level h h1 h2 h3 self altBody log kids).
  - now rewrite (renderSelf_nonEmpty alt h2 h3 altBody Hbody).
  - apply appends_forEach, appends_children.
  - exact Hself.
  - exact Hkids.
  - cbn [renderAlt]. unfold MenuItem_renderAlt. now rewrite Halt.
Qed.

(** ** C5 *)

Lemma printElement_line (el n : XbarElement) (d : nat) :
  nodeAt el d n ->
  forall level h h' log,
    printElement isPrintTable el level (h, []) = (Ret None, (h', log)) ->
    exists hn hn' body,
      renderSelf isPrintTable n hn = (Ret body, hn')
      /\ In (lineOf (level + d) body) log.
Proof.
  induction 1 as [el | el child n d Hchild Hnode IH];
    intros level h h' log Hrun; rewrite printElement_eq in Hrun;
    apply printBody_success in Hrun
      as (s & h1 & out & h2 & a & Hself & Hkids & Halt & ->);
    try (apply appends_forEach, appends_children).
  - exists h, h1, s. split; [assumption|].
    rewrite Nat.add_0_r. now left.
  - destruct (forEach_success_member _ _ h1 h2 out child
                (appends_children el (level + 1)) Hkids Hchild)
      as (hx & hx' & outx & Hx & Hsub).
    destruct (IH _ _ _ _ Hx) as (hn & hn' & body & Hbody & Hline).
    exists hn, hn', body. split; [assumption|].
    replace (level + S d)%nat with (level + 1 + d)%nat by lia.
    apply in_or_app. right. apply in_or_app. left. now apply Hsub.
Qed.

Lemma RunW_success (p : Plugin) (h h' : Store) (log : list string) :
  RunW isPrintTable p (h, []) = (Ret None, (h', log)) ->
  exists title h1 out,
    MenuItem_renderSelf isPrintTable (Plugin_Title p) h = (Ret title, h1)
    /\ forEach (fun item => printElement isPrintTable item 0) (Elements p) (h1, [])
         = (Ret None, (h', out))
    /\ log = (title +:+ String newline "")
               :: (if (0 <? length (Elements p))%nat
                   then ["---" +:+ String newline ""] else []) ++ out.
Proof.
  intros Hrun. rewrite RunW_run in Hrun.
  destruct (MenuItem_renderSelf _ _ h) as [[title|e] h1]; [|discriminate].
  cbn [IO.Write IO.Recorder] in Hrun. exists title, h1.
  destruct (Elements p) as [|el els] eqn:Hels; cbn [length Nat.ltb Nat.leb] in *.
  - inversion Hrun; subst. exists []. now repeat split.
  - change (0 <? S (length els))%nat with true in *. cbn iota in Hrun.
    pose proof (appends_forEach (fun item => printElement isPrintTable item 0)
                  (el :: els)) as Hframe.
    rewrite Hframe in Hrun
      by (apply Forall_forall; intros; apply appends_printElement).
    destruct (forEach _ (el :: els) (h1, [])) as [r [h2 out]].
    cbn [fst snd] in Hrun. inversion Hrun; subst. exists out. now repeat split.
Qed.

(** C5.  In a render in which nothing fails, every element [d] levels
    under a top-level element has a line made of [d] times the token [--]
    followed by what its own [renderSelf] returned; that indent is [2 * d]
    characters long, it is empty at depth 0, and the indent one level
    deeper is the same with one more token in front. *)
Theorem C5_depth_indent (p : Plugin) (el n : XbarElement) (d : nat)
    (h h' : Store) (log : list string) :
  In el (Elements p) ->
  nodeAt el d n ->
  RunW isPrintTable p (h, []) = (Ret None, (h', log)) ->
  (exists hn hn' body,
      renderSelf isPrintTable n hn = (Ret body, hn')
      /\ In (Strings.Repeat "--" d +:+ body +:+ String newline "") log)
  /\ String.length (Strings.Repeat "--" d) = (2 * d)%nat
  /\ Strings.Repeat "--" 0 = ""
  /\ Strings.Repeat "--" (d + 1) = "--" +:+ Strings.Repeat "--" d.
Proof.
  intros Hel Hnode Hrun. split; [|split; [|split]].
  - apply RunW_success in Hrun as (title & h1 & out & _ & Hloop & ->).
    destruct (forEach_success_member _ _ h1 h' out el
                ltac:(apply Forall_forall; intros; apply appends_printElement)
                Hloop Hel)
      as (hx & hx' & outx & Hx & Hsub).
    destruct (printElement_line el n d Hnode 0%nat hx hx' outx Hx)
      as (hn & hn' & body & Hbody & Hline).
    exists hn, hn', body. split; [assumption|].
    right. apply in_or_app. right. now apply Hsub.
  - rewrite length_Repeat. cbn. lia.
  - reflexivity.
  - apply Repeat_succ.
Qed.

(** ** C9 *)

Lemma lineCount_eq (m : MenuItem) :
  lineCount m = (1 + list_sum (map lineCount (SubMenu m))
                   + match Alt m with Some _ => 1 | None => 0 end)%nat.
Proof. now destruct m. Qed.

Lemma renderSelf_bareItem (m : MenuItem) :
  MenuItem_renderSelf isPrintTable (bareItem m) = MenuItem_renderSelf isPrintTable m.
Proof. now destruct m. Qed.

Lemma renderAlt_recorded (m : MenuItem) (h h' : Store) (a : string) :
  MenuItem_renderAlt isPrintTable m h = (Ret a, h') ->
  match Alt m with
  | None => a = "" /\ h' = h
  | Some alt => MenuItem_renderSelf isPrintTable alt h = (Ret a, h')
                /\ nonEmpty a = true
  end.
Proof.
  unfold MenuItem_renderAlt. destruct (Alt m) as [alt|]; intros Hrun.
  - split; [assumption|]. now apply (renderSelf_nonEmpty alt h h').
  - now inversion Hrun.
Qed.

Lemma forEach_count (l : list MenuItem) (level : nat) :
  Forall (fun child => forall level h h' log,
            printItem isPrintTable child level (h, []) = (Ret None, (h', log)) ->
            length log = lineCount child) l ->
  forall h h' out,
    forEach (fun child => printItem isPrintTable child level) l (h, [])
      = (Ret None, (h', out)) ->
    length out = list_sum (map lineCount l).
Proof.
  induction 1 as [|child l Hchild _ IH]; intros h h' out Hrun.
  - now inversion Hrun.
  - apply forEach_success_cons in Hrun as (h1 & out1 & out2 & Hc & Hrest & ->).
    + rewrite length_app. cbn [map list_sum].
      now rewrite (Hchild _ _ _ _ Hc), (IH _ _ _ Hrest).
    + apply Forall_forall. intros c _. apply appends_printItem.
Qed.

Lemma printItem_count (m : MenuItem) : forall level h h' log,
  printItem isPrintTable m level (h, []) = (Ret None, (h', log)) ->
  length log = lineCount m.
Proof.
  induction m as [m IH] using MenuItem_submenu_ind.
  intros level h h' log Hrun. rewrite printItem_eq in Hrun.
  apply printBody_success in Hrun
    as (s & h1 & out & h2 & a & _ & Hkids & Halt & ->).
  - rewrite lineCount_eq, !length_app.
    rewrite (forEach_count _ _ IH _ _ _ Hkids).
    apply renderAlt_recorded in Halt.
    destruct (Alt m) as [alt|].
    + destruct Halt as [_ ->]. cbn. lia.
    + destruct Halt as [-> _]. cbn. lia.
  - apply appends_forEach, Forall_forall. intros c _. apply appends_printItem.
Qed.

(** C9.  [renderSelf] of a menu item returns a string that is not empty and
    ends with the [refresh] and [trim] fields, unless the read of its icon
    fails, in which case it panics.  So,
    when an item is printed and nothing fails, the writer receives the
    line of the item, the lines of its children, and then nothing more if
    [Alt] is nil, or one line if it is not, made from what [renderSelf] of
    the alternate returned; the number of lines is one per item of the
    tree plus one per item that has an alternate; and the submenu and the
    alternate of an alternate have no effect on what is printed. *)
Theorem C9_alternate_line (m : MenuItem) :
  (forall h,
      (exists s h' front,
          MenuItem_renderSelf isPrintTable m h = (Ret s, h')
          /\ s <> ""
          /\ s = front +:+ " refresh=" +:+ Fmt.verb_t (Refresh m) +:+ " trim=false")
      \/ (exists icon rd b e rd',
            Icon m = Some icon /\ h !! icon = Some rd
            /\ IO.ReadAll rd = (b, Some e, rd')
            /\ MenuItem_renderSelf isPrintTable m h = (Panic e, <[icon := rd']> h)))
  /\ (forall level h h' log,
        printElement isPrintTable (Item m) level (h, []) = (Ret None, (h', log)) ->
        exists self h1 kids h2,
          MenuItem_renderSelf isPrintTable m h = (Ret self, h1)
          /\ forEach (fun child => printElement isPrintTable child (level + 1))
                     (children (Item m)) (h1, []) = (Ret None, (h2, kids))
          /\ match Alt m with
             | None => h' = h2 /\ log = [lineOf level self] ++ kids
             | Some alt =>
                 exists body,
                   MenuItem_renderSelf isPrintTable alt h2 = (Ret body, h')
                   /\ log = [lineOf level self] ++ kids ++ [altLineOf level body]
             end)
  /\ (forall level h h' log,
        printElement isPrintTable (Item m) level (h, []) = (Ret None, (h', log)) ->
        length log = lineCount m)
  /\ (forall alt, Alt m = Some alt ->
        forall (W : Type) (writer : IO.Writer W) level (st : Store * W),
          printElement isPrintTable (Item m) level st
            = printElement isPrintTable (Item (WithAlt (bareItem alt) m)) level st).
Proof.
  repeat split.
  - intros h. destruct (renderSelf_outcome m h) as [(s & h' & Hrun)|Hpanic];
      [left | now right].
    destruct (renderSelf_ends m h h' s Hrun) as [front Hs].
    exists s, h', front. repeat split; try assumption.
    intros ->. now apply renderSelf_nonEmpty in Hrun.
  - intros level h h' log Hrun. rewrite printElement_eq in Hrun.
    apply printBody_success in Hrun
      as (s & h1 & out & h2 & a & Hself & Hkids & Halt & ->);
      [|apply appends_forEach, appends_children].
    exists s, h1, out, h2. split; [exact Hself|]. split; [exact Hkids|].
    apply renderAlt_recorded in Halt. destruct (Alt m) as [alt|].
    + destruct Halt as [Hbody ->]. now exists a.
    + destruct Halt as [-> ->]. now rewrite app_nil_r.
  - intros level h h' log Hrun. now apply printItem_count in Hrun.
  - intros alt Halt W writer level st. cbn [printElement].
    rewrite !printItem_eq. cbn [WithAlt SubMenu].
    replace (MenuItem_renderAlt isPrintTable (WithAlt (bareItem alt) m))
      with (MenuItem_renderAlt isPrintTable m).
    + reflexivity.
    + unfold MenuItem_renderAlt. cbn [WithAlt Alt]. rewrite Halt.
      now rewrite renderSelf_bareItem.
Qed.

(** ** The record of a run is what any writer receives *)

Section Replaying.

Context {W : Type} `{IO.Writer W}.

Lemma replay_app (w w1 : W) (l1 l2 : list string) :
  replay w l1 = (w1, None) -> replay w (l1 ++ l2) = replay w1 l2.
Proof.
  revert w. induction l1 as [|line l1 IH]; intros w Hrun; cbn in *.
  - now inversion Hrun.
  - destruct (IO.Write w line) as [w' [e|]]; [discriminate | now apply IH].
Qed.

Lemma replay_app_inv (w w2 : W) (l1 l2 : list string) :
  replay w (l1 ++ l2) = (w2, None) ->
  exists w1, replay w l1 = (w1, None) /\ replay w1 l2 = (w2, None).
Proof.
  revert w. induction l1 as [|line l1 IH]; intros w Hrun; cbn in *.
  - eauto.
  - destruct (IO.Write w line) as [w' [e|]]; [discriminate | now apply IH].
Qed.

Lemma follows_ret {A} (a : A) : follows (W := W) (ret a) (ret a).
Proof. intros h w w' Hrun. cbn in *. now inversion Hrun. Qed.

Lemma follows_onStore {A} (c : M Store A) : follows (W := W) (onStore c) (onStore c).
Proof.
  intros h w w' Hrun. rewrite !onStore_eq in *. cbn in *. now inversion Hrun.
Qed.

Lemma follows_Fprint (text : string) : follows (W := W) (Fprintf text) (Fprintf text).
Proof.
  intros h w w' Hrun. cbn in *.
  destruct (IO.Write w text) as [w1 [e|]]; [discriminate | now inversion Hrun].
Qed.

Lemma follows_bind {A B} (c : M (Store * W) A) (k : A -> M (Store * W) B)
    (cR : M (Store * list string) A) (kR : A -> M (Store * list string) B) :
  follows c cR -> (forall a, appends (kR a)) -> (forall a, follows (k a) (kR a)) ->
  follows (bind c k) (bind cR kR).
Proof.
  intros Hc HkR Hk h w w' Hrun. unfold bind in *.
  specialize (Hc h w).
  destruct (cR (h, [])) as [[a|e] [h1 log1]]; cbn [fst snd] in *.
  - rewrite (HkR a h1 log1) in Hrun |- *. cbn [fst snd] in *.
    apply replay_app_inv in Hrun as (w1 & Hfirst & Hrest).
    rewrite (Hc w1 Hfirst). now apply Hk.
  - now rewrite (Hc w' Hrun).
Qed.

Lemma follows_orReturn (err : option IO.error) rest restR :
  follows (W := W) rest restR -> follows (orReturn err rest) (orReturn err restR).
Proof. destruct err; [intros _; apply follows_ret | trivial]. Qed.

Lemma follows_forEach {A} (f : A -> M (Store * W) (option IO.error))
    (fR : A -> M (Store * list string) (option IO.error)) l :
  Forall (fun x => appends (fR x) /\ follows (f x) (fR x)) l ->
  follows (forEach f l) (forEach fR l).
Proof.
  induction 1 as [|x l [Hframe Hx] Hl IH]; [apply follows_ret|].
  rewrite !forEach_cons. apply follows_bind; [assumption| |].
  - intros err. apply appends_orReturn, appends_forEach.
    eapply Forall_impl; [exact Hl|]. now intros y [Hy _].
  - intros err. now apply follows_orReturn.
Qed.

Lemma follows_printBody self alt level kids kidsR :
  appends kidsR -> follows (W := W) kids kidsR ->
  follows (printBody self kids alt level) (printBody self kidsR alt level).
Proof.
  intros Hframe Hkids. unfold printBody.
  apply follows_bind; [apply follows_onStore | intros s; appends_steps |]; intros s.
  apply follows_bind; [apply follows_Fprint | intros err; appends_steps |]; intros err.
  apply follows_orReturn.
  apply follows_bind; [assumption | intros err'; appends_steps |]; intros err'.
  apply follows_orReturn.
  apply follows_bind; [apply follows_onStore | intros a; appends_steps |]; intros a.
  destruct (nonEmpty a); [|apply follows_ret].
  apply follows_bind; [apply follows_Fprint | intros err''; appends_steps |];
    intros err''.
  apply follows_orReturn, follows_ret.
Qed.

Lemma follows_printItem (m : MenuItem) : forall level,
  follows (W := W) (printItem isPrintTable m level) (printItem isPrintTable m level).
Proof.
  induction m as [m IH] using MenuItem_submenu_ind. intros level.
  rewrite !printItem_eq. apply follows_printBody.
  - apply appends_forEach, Forall_forall. intros c _. apply appends_printItem.
  - apply follows_forEach. eapply Forall_impl; [exact IH|].
    intros c Hc. split; [apply appends_printItem | apply Hc].
Qed.

Lemma follows_printElement (el : XbarElement) (level : nat) :
  follows (W := W) (printElement isPrintTable el level)
          (printElement isPrintTable el level).
Proof.
  destruct el as [|m]; [|apply follows_printItem].
  apply follows_printBody; [apply appends_ret | apply follows_ret].
Qed.

(** Whatever the writer, as long as it accepts them, the lines it is handed
    by [RunW] are the lines a recording writer records, in that order, and
    the outcome and the readers are the same. *)
Lemma follows_RunW (p : Plugin) :
  follows (W := W) (RunW isPrintTable p) (RunW isPrintTable p).
Proof.
  assert (Hloop : forall level,
             appends (forEach (fun item => printElement isPrintTable item level)
                              (Elements p))).
  { intros level. apply appends_forEach, Forall_forall.
    intros el _. apply appends_printElement. }
  unfold RunW.
  apply follows_bind; [apply follows_onStore | intros title; appends_steps |];
    intros title.
  apply follows_bind; [apply follows_Fprint | intros err; appends_steps |];
    intros err.
  apply follows_orReturn.
  destruct (0 <? length (Elements p))%nat; [|apply follows_ret].
  apply follows_bind; [apply follows_Fprint | intros err'; appends_steps |];
    intros err'.
  apply follows_orReturn, follows_forEach, Forall_forall.
  intros el _. split; [apply appends_printElement | apply follows_printElement].
Qed.

End Replaying.

(** A [bytes.Buffer] accepts every line: it ends up holding the recorded
    lines, concatenated. *)
Lemma replay_Buffer (log : list string) : forall w : string,
  replay w log = (w +:+ String.concat "" log, None).
Proof.
  induction log as [|line log IH]; intros w.
  - cbn. now rewrite append_nil_r.
  - cbn [replay IO.Write IO.Buffer]. rewrite IH, concat_nosep_cons.
    now rewrite append_assoc.
Qed.

Lemma RunW_Buffer (p : Plugin) (h : Store) (w : string) :
  RunW isPrintTable p (h, w)
    = (fst (RunW isPrintTable p (h, ([] : list string))),
       (fst (snd (RunW isPrintTable p (h, ([] : list string)))),
        w +:+ String.concat "" (snd (snd (RunW isPrintTable p (h, ([] : list string))))))).
Proof. apply follows_RunW, replay_Buffer. Qed.

(** ** C7 *)

Section Panics.

Context {W : Type} `{IO.Writer W}.

Lemma renderSelf_fault (m : MenuItem) (h : Store) icon rd b e rd' :
  Icon m = Some icon ->
  h !! icon = Some rd ->
  IO.ReadAll rd = (b, Some e, rd') ->
  MenuItem_renderSelf isPrintTable m h = (Panic e, <[icon := rd']> h).
Proof.
  intros Hicon Hrd Hread.
  apply renderSelf_icon_fault with (icon := icon) (b := b); [assumption|].
  unfold ReadAllAt. now rewrite Hrd, Hread.
Qed.

(** C7.  A failed read of an icon ends the render with a panic that
    carries the error, whichever item holds the icon, and nothing is
    written from then on:
    - the item itself panics, after one [ReadAll], and [printElement]
      leaves the writer as it found it: no line for the item, none for
      its children, none for its alternate;
    - a failed read for the alternate of an item comes after the lines of
      the item and of its children, and no alternate line follows;
    - a panic under one child is the outcome of the parent, in the state
      of the panic: the children after it and the alternate are not
      rendered;
    - [RunW] does not return an error but panics, in the state of the
      panic, for the title as for any element. *)
Theorem C7_icon_read_failure (e : IO.error) :
  (forall m level h (w : W) icon rd b rd',
      Icon m = Some icon -> h !! icon = Some rd ->
      IO.ReadAll rd = (b, Some e, rd') ->
      MenuItem_renderSelf isPrintTable m h = (Panic e, <[icon := rd']> h)
      /\ printElement isPrintTable (Item m) level (h, w)
           = (Panic e, (<[icon := rd']> h, w)))
  /\ (forall m alt level h (w : W) self h1 w1 h2 w2 icon rd b rd',
        Alt m = Some alt ->
        MenuItem_renderSelf isPrintTable m h = (Ret self, h1) ->
        IO.Write w (lineOf level self) = (w1, None) ->
        forEach (fun child => printElement isPrintTable child (level + 1))
                (children (Item m)) (h1, w1) = (Ret None, (h2, w2)) ->
        Icon alt = Some icon -> h2 !! icon = Some rd ->
        IO.ReadAll rd = (b, Some e, rd') ->
        printElement isPrintTable (Item m) level (h, w)
          = (Panic e, (<[icon := rd']> h2, w2)))
  /\ (forall el level h (w : W) self h1 w1 pre child post st1 st2,
        renderSelf isPrintTable el h = (Ret self, h1) ->
        IO.Write w (lineOf level self) = (w1, None) ->
        children el = pre ++ child :: post ->
        forEach (fun child => printElement isPrintTable child (level + 1))
                pre (h1, w1) = (Ret None, st1) ->
        printElement isPrintTable child (level + 1) st1 = (Panic e, st2) ->
        printElement isPrintTable el level (h, w) = (Panic e, st2))
  /\ (forall p h (w : W) h',
        MenuItem_renderSelf isPrintTable (Plugin_Title p) h = (Panic e, h') ->
        RunW isPrintTable p (h, w) = (Panic e, (h', w)))
  /\ (forall p h (w : W) title h1 w1 w2 pre el post st1 st2,
        MenuItem_renderSelf isPrintTable (Plugin_Title p) h = (Ret title, h1) ->
        IO.Write w (title +:+ String newline "") = (w1, None) ->
        IO.Write w1 ("---" +:+ String newline "") = (w2, None) ->
        Elements p = pre ++ el :: post ->
        forEach (fun item => printElement isPrintTable item 0) pre (h1, w2)
          = (Ret None, st1) ->
        printElement isPrintTable el 0 st1 = (Panic e, st2) ->
        RunW isPrintTable p (h, w) = (Panic e, st2)).
Proof.
  split; [|split; [|split; [|split]]].
  - intros m level h w icon rd b rd' Hicon Hrd Hread.
    pose proof (renderSelf_fault m h icon rd b e rd' Hicon Hrd Hread) as Hself.
    split; [exact Hself|].
    rewrite printElement_eq, printBody_run. cbn [renderSelf]. now rewrite Hself.
  - intros m alt level h w self h1 w1 h2 w2 icon rd b rd'
      Halt Hself Hwrite Hkids Hicon Hrd Hread.
    rewrite printElement_eq, printBody_run. cbn [renderSelf renderAlt].
    unfold lineOf in Hwrite. rewrite Hself, Hwrite, Hkids.
    unfold MenuItem_renderAlt. rewrite Halt.
    now rewrite (renderSelf_fault alt h2 icon rd b e rd' Hicon Hrd Hread).
  - intros el level h w self h1 w1 pre child post st1 st2
      Hself Hwrite Hchildren Hpre Hchild.
    rewrite printElement_eq, printBody_run.
    unfold lineOf in Hwrite. rewrite Hself, Hwrite, Hchildren.
    now rewrite (forEach_panic _ pre child post _ st1 e st2 Hpre Hchild).
  - intros p h w h' Htitle. rewrite RunW_run. now rewrite Htitle.
  - intros p h w title h1 w1 w2 pre el post st1 st2
      Htitle Hw1 Hw2 Hels Hpre Hel.
    rewrite RunW_run, Htitle, Hw1, Hels.
    replace (0 <? length (pre ++ el :: post))%nat with true
      by (symmetry; apply Nat.ltb_lt; rewrite length_app; cbn; lia).
    rewrite Hw2. exact (forEach_panic _ pre el post _ st1 e st2 Hpre Hel).
Qed.

End Panics.

(** ** C1 *)

Section Determinism.

Context {W : Type} `{IO.Writer W}.

Lemma storeBlind_ret {A} (a : A) : storeBlind (W := W) (ret a).
Proof. intros h w. reflexivity. Qed.

Lemma storeBlind_Fprint (text : string) : storeBlind (W := W) (Fprintf text).
Proof. intros h w. unfold Fprintf. now destruct (IO.Write w text). Qed.

Lemma storeBlind_onStore {A} (c : M Store A) : pureOnStore c -> storeBlind (W := W) (onStore c).
Proof. intros [a Hc] h w. rewrite !onStore_eq, !Hc. reflexivity. Qed.

Lemma storeBlind_bind {A B} (c : M (Store * W) A) (k : A -> M (Store * W) B) :
  storeBlind (W := W) c -> (forall a, storeBlind (W := W) (k a)) -> storeBlind (W := W) (bind c k).
Proof.
  intros Hc Hk h w. unfold bind. rewrite (Hc h w), (Hc ∅ w).
  destruct (c (∅, w)) as [[a|e] [h1 w1]]; cbn [fst snd]; [|reflexivity].
  now rewrite (Hk a h w1).
Qed.

Lemma storeBlind_orReturn (err : option IO.error) rest :
  storeBlind (W := W) rest -> storeBlind (W := W) (orReturn err rest).
Proof. destruct err; [intros _; apply storeBlind_ret | trivial]. Qed.

Lemma storeBlind_forEach {A} (f : A -> M (Store * W) (option IO.error)) l :
  Forall (fun x => storeBlind (W := W) (f x)) l -> storeBlind (W := W) (forEach f l).
Proof.
  induction 1 as [|x l Hx _ IH]; [apply storeBlind_ret|].
  rewrite forEach_cons. apply storeBlind_bind; [assumption|].
  intros err. now apply storeBlind_orReturn.
Qed.

Lemma storeBlind_printBody self kids alt level :
  pureOnStore self -> storeBlind (W := W) kids -> pureOnStore alt ->
  storeBlind (W := W) (printBody self kids alt level).
Proof.
  intros Hself Hkids Halt. unfold printBody.
  apply storeBlind_bind; [now apply storeBlind_onStore|]. intros s.
  apply storeBlind_bind; [apply storeBlind_Fprint|]. intros err.
  apply storeBlind_orReturn.
  apply storeBlind_bind; [assumption|]. intros err'.
  apply storeBlind_orReturn.
  apply storeBlind_bind; [now apply storeBlind_onStore|]. intros a.
  destruct (nonEmpty a); [|apply storeBlind_ret].
  apply storeBlind_bind; [apply storeBlind_Fprint|]. intros err''.
  apply storeBlind_orReturn, storeBlind_ret.
Qed.

Lemma pure_renderSelf (m : MenuItem) :
  Icon m = None -> pureOnStore (MenuItem_renderSelf isPrintTable m).
Proof. intros Hicon. eexists. intros h. now apply renderSelf_no_icon. Qed.

Lemma iconFree_eq (m : MenuItem) :
  iconFree m = true ->
  Icon m = None
  /\ match Alt m with Some alt => Icon alt = None | None => True end
  /\ forallb iconFree (SubMenu m) = true.
Proof.
  destruct m as [t icon st key act r alt sub]. cbn.
  destruct icon; [discriminate|]. cbn.
  destruct alt as [[ta [ia|] sa ka aa ra alta suba]|]; cbn;
    try discriminate; auto.
Qed.

Lemma storeBlind_printItem (m : MenuItem) : forall level,
  iconFree m = true -> storeBlind (W := W) (printItem isPrintTable m level).
Proof.
  induction m as [m IH] using MenuItem_submenu_ind. intros level Hfree.
  apply iconFree_eq in Hfree as (Hicon & Halt & Hsub).
  rewrite printItem_eq. apply storeBlind_printBody.
  - now apply pure_renderSelf.
  - apply storeBlind_forEach. rewrite forallb_forall in Hsub.
    rewrite List.Forall_forall in IH |- *. intros child Hin.
    apply IH; auto.
  - unfold MenuItem_renderAlt. destruct (Alt m) as [alt|].
    + now apply pure_renderSelf.
    + now exists "".
Qed.

Lemma storeBlind_printElement (el : XbarElement) (level : nat) :
  iconFreeElement el = true -> storeBlind (W := W) (printElement isPrintTable el level).
Proof.
  destruct el as [|m]; [intros _ | apply storeBlind_printItem].
  apply storeBlind_printBody; [now exists "---" | apply storeBlind_ret | now exists ""].
Qed.

Lemma storeBlind_RunW (p : Plugin) :
  iconFreePlugin p = true -> storeBlind (W := W) (RunW isPrintTable p).
Proof.
  unfold iconFreePlugin. intros [Htitle Hels]%andb_true_iff.
  unfold RunW.
  apply storeBlind_bind.
  { apply storeBlind_onStore, pure_renderSelf.
    now destruct (Icon (Plugin_Title p)). }
  intros title.
  apply storeBlind_bind; [apply storeBlind_Fprint|]. intros err.
  apply storeBlind_orReturn.
  destruct (0 <? length (Elements p))%nat; [|apply storeBlind_ret].
  apply storeBlind_bind; [apply storeBlind_Fprint|]. intros err'.
  apply storeBlind_orReturn, storeBlind_forEach, List.Forall_forall.
  intros el Hin. apply storeBlind_printElement.
  rewrite forallb_forall in Hels. now apply Hels.
Qed.

(** C1 (amended).  For a plugin none of whose rendered items carries an
    icon (the title, the elements, their submenus, their alternates),
    rendering it twice into writers in the same state gives the same
    outcome and leaves the two writers in the same state, and the readers
    are left as they were. *)
Theorem C1_two_runs (p : Plugin) (h h1 h2 : Store) (w w1 w2 : W)
    (r1 r2 : outcome (option IO.error)) :
  iconFreePlugin p = true ->
  RunW isPrintTable p (h, w) = (r1, (h1, w1)) ->
  RunW isPrintTable p (h1, w) = (r2, (h2, w2)) ->
  r1 = r2 /\ w1 = w2 /\ h1 = h /\ h2 = h.
Proof.
  intros Hfree Hfirst Hsecond. pose proof (storeBlind_RunW p Hfree) as Hblind.
  rewrite (Hblind h w) in Hfirst. rewrite (Hblind h1 w) in Hsecond.
  inversion Hfirst; inversion Hsecond; subst. auto.
Qed.

End Determinism.

(** ** The whole output of a plugin without icons *)

Lemma itemLines_eq (level : nat) (m : MenuItem) :
  itemLines isPrintTable level m
    = lineOf level (selfText isPrintTable m)
        :: List.concat (map (itemLines isPrintTable (level + 1)) (SubMenu m))
        ++ match Alt m with
           | Some alt => [altLineOf level (selfText isPrintTable alt)]
           | None => []
           end.
Proof. now destruct m. Qed.

Lemma forEach_layout {A} (f : A -> M (Store * list string) (option IO.error))
    (lines : A -> list string) (l : list A) (h : Store) :
  Forall (fun x => appends (f x) /\ f x (h, []) = (Ret None, (h, lines x))) l ->
  forEach f l (h, []) = (Ret None, (h, List.concat (map lines l))).
Proof.
  induction 1 as [|x l [Hframe Hx] Hl IH]; [reflexivity|].
  rewrite forEach_cons. unfold bind. rewrite Hx. cbn [orReturn].
  rewrite (appends_run (forEach f l) h (lines x) (Ret None) h
             (List.concat (map lines l))); [reflexivity | | exact IH].
  apply appends_forEach. eapply Forall_impl; [exact Hl|]. now intros y [Hy _].
Qed.

Lemma printItem_layout (m : MenuItem) : forall level h,
  iconFree m = true ->
  printItem isPrintTable m level (h, []) = (Ret None, (h, itemLines isPrintTable level m)).
Proof.
  induction m as [m IH] using MenuItem_submenu_ind. intros level h Hfree.
  apply iconFree_eq in Hfree as (Hicon & Halt & Hsub).
  rewrite printItem_eq, itemLines_eq.
  rewrite (printBody_recorded _ _ _ level h h h h (selfText isPrintTable m)
             (match Alt m with
              | Some alt => selfText isPrintTable alt
              | None => ""
              end) []
             (List.concat (map (itemLines isPrintTable (level + 1)) (SubMenu m)))).
  - destruct (Alt m) as [alt|]; [|reflexivity].
    pose proof (renderSelf_nonEmpty alt h h _ (renderSelf_no_icon alt h Halt))
      as Hne.
    fold (selfText isPrintTable alt) in Hne. now rewrite Hne.
  - apply appends_forEach, Forall_forall. intros c _. apply appends_printItem.
  - now apply renderSelf_no_icon.
  - apply forEach_layout. rewrite forallb_forall in Hsub.
    rewrite List.Forall_forall in IH |- *. intros child Hin.
    split; [apply appends_printItem | now apply IH; auto].
  - unfold MenuItem_renderAlt. destruct (Alt m) as [alt|]; [|reflexivity].
    now apply renderSelf_no_icon.
Qed.

Lemma printElement_layout (el : XbarElement) (level : nat) (h : Store) :
  iconFreeElement el = true ->
  printElement isPrintTable el level (h, [])
    = (Ret None, (h, elementLines isPrintTable level el)).
Proof.
  destruct el as [|m]; [intros _; reflexivity | apply printItem_layout].
Qed.

(** A plugin without icons, rendered into a record that holds [log], ends
    without error with the record holding [log] and then the lines of the
    protocol: whatever the readers are, and they are left alone. *)
Lemma RunW_layout (p : Plugin) (h : Store) (log : list string) :
  iconFreePlugin p = true ->
  RunW isPrintTable p (h, log) = (Ret None, (h, log ++ pluginLines isPrintTable p)).
Proof.
  unfold iconFreePlugin. intros [Htitle Hels]%andb_true_iff.
  apply appends_run; [apply appends_RunW|].
  rewrite RunW_run, renderSelf_no_icon
    by now destruct (Icon (Plugin_Title p)).
  cbn [IO.Write IO.Recorder]. unfold pluginLines.
  destruct (Elements p) as [|el els] eqn:Heq; [reflexivity|].
  change (0 <? length (el :: els))%nat with true. cbn iota.
  rewrite (appends_run _ h _ (Ret None) h
             (List.concat (map (elementLines isPrintTable 0) (el :: els)))).
  - reflexivity.
  - apply appends_forEach, Forall_forall. intros x _. apply appends_printElement.
  - apply forEach_layout, List.Forall_forall. intros x Hin.
    split; [apply appends_printElement|].
    apply printElement_layout. rewrite forallb_forall in Hels. now apply Hels.
Qed.


End Properties.

(** ** Concrete runs *)

Lemma C3_field_presence_witness :
  MenuItem_renderSelf asciiTable (NewMenuItem "London") ∅
    = (Ret "London| refresh=false trim=false", ∅).
Proof. apply (C3_field_presence asciiTable (NewMenuItem "London") ∅); reflexivity. Defined.

Lemma C2_shell_action_field_witness :
  Action_ (WithShell "say" ["hello"; "world"] (NewMenuItem "Say Hello"))
    = Some (Shell (NewShellAction "say" ["hello"; "world"]))
  /\ shellPart asciiTable (NewShellAction "say" ["hello"; "world"])
       = "terminal=false shell=" +:+ quoted "say" +:+ " param1='hello' param2='world'".
Proof.
  split; [reflexivity|].
  destruct (C2_shell_action_field asciiTable
              (WithShell "say" ["hello"; "world"] (NewMenuItem "Say Hello"))
              (NewShellAction "say" ["hello"; "world"]) eq_refl)
    as (_ & Hfield & Hquote).
  rewrite Hfield, Hquote by reflexivity. reflexivity.
Defined.

(** C2, as stated, fails on the command [echo "hi"]: [%q] writes a
    backslash before each of its double quotes. *)
Lemma C2_counterexample :
  shellPart asciiTable quotedCommand
    = "terminal=false shell="
        +:+ quoted ("echo " +:+ String backslash (String dquote "hi")
                            +:+ String backslash (String dquote ""))
        +:+ " param1='x'"
  /\ shellFieldUnescaped quotedCommand
       = "terminal=false shell=" +:+ quoted ("echo " +:+ quoted "hi") +:+ " param1='x'"
  /\ shellPart asciiTable quotedCommand <> shellFieldUnescaped quotedCommand.
Proof. split; [reflexivity | split; [reflexivity | discriminate]]. Qed.

Lemma C8_icon_field_witness :
  MenuItem_renderSelf asciiTable (Plugin_Title statusPlugin) statusStore
    = (Ret "| templateImage=iVBORw== refresh=false trim=false",
       <[0%nat := IO.AtEOF]> statusStore)
  /\ Base64.DecodeString "iVBORw==" = Some pngMagic.
Proof.
  destruct (C8_icon_field asciiTable (Plugin_Title statusPlugin) statusStore
              0%nat (IO.NewReader pngMagic) IO.AtEOF pngMagic
              eq_refl eq_refl eq_refl) as (Hline & Hdecode & _).
  split; [exact Hline | exact Hdecode].
Defined.

(** *** The library functions on known values *)

(** The test vectors of RFC 4648, section 10. *)
Example base64_vectors :
  map (fun s => Base64.EncodeToString (bytesOf s))
      [""; "f"; "fo"; "foo"; "foob"; "fooba"; "foobar"]
    = [""; "Zg=="; "Zm8="; "Zm9v"; "Zm9vYg=="; "Zm9vYmE="; "Zm9vYmFy"].
Proof. reflexivity. Qed.

Example base64_rejects_inner_padding : Base64.DecodeString "Zm9v=mE=" = None.
Proof. reflexivity. Qed.

(** [%q] leaves printable text alone, puts a backslash before the quote
    and the backslash, names the newline, and writes other control bytes
    and bytes that are no UTF-8 in hexadecimal. *)
Example quote_escapes :
  Fmt.verb_q asciiTable
      ("a" +:+ String dquote "b" +:+ String backslash "c" +:+ String newline "d"
           +:+ String "001" "e" +:+ String "233" "f")
    = String dquote
        ("a" +:+ String backslash
           (String dquote ("b\\c\nd\x01e\xe9f" +:+ String dquote ""))).
Proof. reflexivity. Qed.

(** A rune above U+00FF goes through the table: copied when printable,
    written with its code point otherwise. *)
Example quote_wide :
  Fmt.verb_q (fun _ => true) "€" = quoted "€"
  /\ Fmt.verb_q (fun _ => false) "€" = quoted "\u20ac".
Proof. split; reflexivity. Qed.

Example readAll_stops_at_error :
  IO.ReadAll (IO.Chunk (bytesOf "ab") (IO.Chunk (bytesOf "c")
               (IO.Fault "broken" (IO.Chunk (bytesOf "d") IO.AtEOF))))
    = (bytesOf "abc", Some "broken", IO.Chunk (bytesOf "d") IO.AtEOF).
Proof. reflexivity. Qed.

(** *** The examples of [xbargo_test.go], with their expected output *)

Example ExamplePlugin_runShell :
  RunW asciiTable runShellPlugin (∅, "")
    = (Ret None,
       (∅, unlines
          ["🐌| refresh=false trim=false";
           "---";
           "🗣️ Say Hello| terminal=false shell=" +:+ quoted "say"
             +:+ " param1='hello' param2='world' refresh=false trim=false";
           "🗣️ Say Goodbye| terminal=false shell=" +:+ quoted "say"
             +:+ " param1='goodbye' param2='world' refresh=false trim=false alternate=true";
           "---";
           "🔋 Battery Preferences| key=shift+b terminal=false shell=" +:+ quoted "open"
             +:+ " param1='-b' param2='com.apple.systempreferences' param3='/System/Library/PreferencePanes/Battery.prefPane' refresh=false trim=false";
           "---";
           "🏠 Home Directory| refresh=false trim=false";
           "--View Tree| terminal=true shell=" +:+ quoted "tree"
             +:+ " param1='-d' param2='-L' param3='1' param4='/tmp/xbargo_test' refresh=false trim=false";
           "--Copy Path| key=CmdOrCtrl+c terminal=false shell=" +:+ quoted "/bin/bash"
             +:+ " param1='-c' param2='echo -n /tmp/xbargo_test | pbcopy' refresh=false trim=false";
           "---";
           "ℹ️ Send Notification| key=ctrl+OptionOrAlt+n terminal=false shell="
             +:+ quoted "osascript"
             +:+ " param1='-e' param2='display notification "
             +:+ quoted "This is a notification" +:+ " with title " +:+ quoted "Example"
             +:+ " subtitle " +:+ quoted "Thanks for clicking!"
             +:+ "' refresh=false trim=false"])).
Proof. vm_compute. reflexivity. Qed.

Example ExamplePlugin_alternateOptions :
  RunW asciiTable alternateOptionsPlugin (∅, "")
    = (Ret None,
       (∅, unlines
          ["Alternate Options| refresh=false trim=false";
           "---";
           "Hello| refresh=false trim=false";
           "Option key is pressed| refresh=false trim=false alternate=true";
           "Another| refresh=false trim=false"])).
Proof. vm_compute. reflexivity. Qed.

Example ExamplePlugin_submenus :
  RunW asciiTable submenusPlugin (∅, "")
    = (Ret None,
       (∅, unlines
          ["Submenu| refresh=false trim=false";
           "---";
           "Places| refresh=false trim=false";
           "--London| refresh=false trim=false";
           "--Paris| refresh=false trim=false";
           "--Tokyo| refresh=false trim=false";
           "---";
           "Fruit| refresh=false trim=false";
           "--Apple| refresh=false trim=false";
           "--Orange| refresh=false trim=false";
           "--Melon| refresh=false trim=false";
           "----Watermelon| refresh=false trim=false";
           "----Honeydew| refresh=false trim=false"])).
Proof. vm_compute. reflexivity. Qed.

(** The same output, as the layout of the protocol gives it. *)
Example submenus_layout :
  pluginLines asciiTable submenusPlugin
    = map ln
        ["Submenu| refresh=false trim=false";
         "---";
         "Places| refresh=false trim=false";
         "--London| refresh=false trim=false";
         "--Paris| refresh=false trim=false";
         "--Tokyo| refresh=false trim=false";
         "---";
         "Fruit| refresh=false trim=false";
         "--Apple| refresh=false trim=false";
         "--Orange| refresh=false trim=false";
         "--Melon| refresh=false trim=false";
         "----Watermelon| refresh=false trim=false";
         "----Honeydew| refresh=false trim=false"].
Proof. vm_compute. reflexivity. Qed.

(** A writer that fails: the error of the third [Write] is what [RunW]
    returns, and nothing is written after it. *)
Example closed_pipe :
  RunW asciiTable submenusPlugin (∅, {| IO.accepted := []; IO.room := 2 |})
    = (Ret (Some IO.ErrClosedPipe),
       (∅, {| IO.accepted := [ln "Submenu| refresh=false trim=false"; ln "---"];
              IO.room := 0 |})).
Proof. vm_compute. reflexivity. Qed.

(** *** The properties on concrete plugins *)

(** C1, as stated, fails on a plugin whose title has an icon behind a
    [bytes.Reader]: the first render drains the reader, the second finds
    it at the end and encodes no bytes. *)
Lemma C1_counterexample :
  snd (snd (RunW asciiTable statusPlugin (statusStore, "")))
    = ln "| templateImage=iVBORw== refresh=false trim=false"
  /\ fst (snd (RunW asciiTable statusPlugin (statusStore, "")))
       = <[0%nat := IO.AtEOF]> statusStore
  /\ snd (snd (RunW asciiTable statusPlugin (<[0%nat := IO.AtEOF]> statusStore, "")))
       = ln "| templateImage= refresh=false trim=false"
  /\ snd (snd (RunW asciiTable statusPlugin (statusStore, "")))
       <> snd (snd (RunW asciiTable statusPlugin
                      (fst (snd (RunW asciiTable statusPlugin (statusStore, ""))), ""))).
Proof.
  split; [reflexivity|]. split; [reflexivity|]. split; [reflexivity|].
  vm_compute. discriminate.
Qed.

Lemma C1_two_runs_witness :
  iconFreePlugin placesPlugin = true
  /\ RunW asciiTable placesPlugin (∅, "")
       = (Ret None,
          (∅, unlines ["Submenu| refresh=false trim=false"; "---";
                       "Places| refresh=false trim=false";
                       "--London| refresh=false trim=false";
                       "--Paris| refresh=false trim=false"]))
  /\ snd (snd (RunW asciiTable placesPlugin (∅, "")))
       = snd (snd (RunW asciiTable placesPlugin
                     (fst (snd (RunW asciiTable placesPlugin (∅, ""))), ""))).
Proof.
  split; [reflexivity|]. split; [reflexivity|].
  destruct (RunW asciiTable placesPlugin (∅, "")) as [r1 [h1 w1]] eqn:Hfirst.
  destruct (RunW asciiTable placesPlugin (h1, "")) as [r2 [h2 w2]] eqn:Hsecond.
  cbn [fst snd]. rewrite Hsecond. cbn [fst snd].
  now destruct (C1_two_runs asciiTable placesPlugin ∅ h1 h2 "" w1 w2 r1 r2
                  eq_refl Hfirst Hsecond) as (_ & Hw & _).
Defined.

Lemma C4_alt_after_children_witness :
  printElement asciiTable (Item placesWithAlt) 0 (∅, [])
    = (Ret None,
       (∅, [ln "Places| refresh=false trim=false";
            ln "--London| refresh=false trim=false";
            ln "--Paris| refresh=false trim=false";
            ln "Option key is pressed| refresh=false trim=false alternate=true"])).
Proof.
  exact (C4_alt_after_children asciiTable placesWithAlt
           (NewMenuItem "Option key is pressed") 0 ∅ ∅ ∅ ∅
           "Places| refresh=false trim=false"
           "Option key is pressed| refresh=false trim=false"
           [ln "--London| refresh=false trim=false";
            ln "--Paris| refresh=false trim=false"] []
           eq_refl eq_refl eq_refl eq_refl).
Defined.

Lemma C5_depth_indent_witness :
  (exists hn hn' body,
      renderSelf asciiTable (Item (NewMenuItem "London")) hn = (Ret body, hn')
      /\ In (Strings.Repeat "--" 1 +:+ body +:+ String newline "")
            (snd (snd (RunW asciiTable placesPlugin (∅, [])))))
  /\ String.length (Strings.Repeat "--" 1) = 2%nat
  /\ Strings.Repeat "--" 0 = ""
  /\ Strings.Repeat "--" (1 + 1) = "--" +:+ Strings.Repeat "--" 1.
Proof.
  apply (C5_depth_indent asciiTable placesPlugin
           (Item (WithSubMenu [NewMenuItem "London"; NewMenuItem "Paris"]
                    (NewMenuItem "Places")))
           (Item (NewMenuItem "London")) 1 ∅ ∅).
  - left. reflexivity.
  - apply nodeAt_child with (child := Item (NewMenuItem "London")).
    + left. reflexivity.
    + apply nodeAt_here.
  - reflexivity.
Defined.

(** The icon of [Status] cannot be read: the render panics with the
    reader's error after the lines of [Hello] and [Statuses]; [After] and
    [Last] are never printed. *)
Lemma C7_icon_read_failure_witness :
  RunW asciiTable brokenPlugin (brokenStore, [])
    = (Panic ErrUnexpectedEOF,
       (<[7%nat := IO.AtEOF]> brokenStore,
        [ln "T| refresh=false trim=false"; ln "---";
         ln "Hello| refresh=false trim=false";
         ln "Statuses| refresh=false trim=false"])).
Proof.
  destruct (C7_icon_read_failure asciiTable (W := list string) ErrUnexpectedEOF)
    as (Hitem & _ & Hchild & _ & Hplugin).
  eapply (Hplugin brokenPlugin brokenStore [] "T| refresh=false trim=false"
            brokenStore _ _ [Item (NewMenuItem "Hello")] _ [Item (NewMenuItem "Last")]);
    [reflexivity | reflexivity | reflexivity | reflexivity | reflexivity |].
  eapply (Hchild _ 0%nat brokenStore _ "Statuses| refresh=false trim=false"
            brokenStore _ [] (Item (WithIcon 7%nat (NewMenuItem "Status")))
            [Item (NewMenuItem "After")]);
    [reflexivity | reflexivity | reflexivity | reflexivity |].
  eapply (Hitem (WithIcon 7%nat (NewMenuItem "Status")) 1%nat brokenStore _ 7%nat);
    reflexivity.
Defined.

Lemma C9_alternate_line_witness :
  length (snd (snd (printElement asciiTable (Item placesWithAlt) 0 (∅, [])))) = 4%nat
  /\ printElement asciiTable (Item placesWithAlt) 0 (∅, "")
       = printElement asciiTable
           (Item (WithAlt (NewMenuItem "Option key is pressed") placesWithAlt)) 0 (∅, "").
Proof.
  destruct (C9_alternate_line asciiTable placesWithAlt) as (_ & _ & Hcount & Hbare).
  split.
  - apply (Hcount 0%nat ∅ ∅). reflexivity.
  - apply (Hbare (NewMenuItem "Option key is pressed") eq_refl string IO.Buffer).
Defined.

(** * Further properties of the package *)

Section Further.

Variable isPrintTable : Z -> bool.

(** ** Separators *)

(** X1.  A separator prints one line, its [---] behind the indent of its
    level, with a single [Write] whose error it returns; it reads no
    reader, cannot panic and has no alternate line.  In the loop over a
    list of elements it adds that one line between what the elements before
    it and the elements after it print. *)
Theorem X1_separator (level : nat) :
  (forall (W : Type) (writer : IO.Writer W) (h : Store) (w : W),
      printElement isPrintTable Separator level (h, w)
        = (Ret (snd (IO.Write w (lineOf level "---"))),
           (h, fst (IO.Write w (lineOf level "---")))))
  /\ (forall (pre post : list XbarElement) (h h1 : Store) (log log1 : list string),
        forEach (fun item => printElement isPrintTable item level) pre (h, log)
          = (Ret None, (h1, log1)) ->
        forEach (fun item => printElement isPrintTable item level)
                (pre ++ Separator :: post) (h, log)
          = forEach (fun item => printElement isPrintTable item level) post
              (h1, log1 ++ [lineOf level "---"])).
Proof.
  split.
  - intros W writer h w. cbn [printElement]. rewrite printBody_run.
    unfold Separator_renderSelf, Separator_renderAlt, ret, lineOf. cbn [nonEmpty].
    now destruct (IO.Write w _) as [w1 [e|]].
  - intros pre post h h1 log log1 Hpre.
    rewrite (forEach_app _ pre (Separator :: post) _ _ Hpre), forEach_cons.
    unfold bind. cbn [printElement]. rewrite printBody_run.
    reflexivity.
Qed.

(** ** The title of a plugin *)

(** X2.  The title of a plugin made by [NewPlugin] renders its icon as a
    template image, a menu item made by [NewMenuItem] as a plain image:
    with text [t] and an icon that reads as the bytes [b], the first is
    [t| templateImage=<base64 of b> refresh=false trim=false] and the second
    [t| image=<base64 of b> refresh=false trim=false]. *)
Theorem X2_template_by_default (text : string) (icon : nat) (h : Store)
    (rd rd' : IO.Reader) (b : list byte) :
  h !! icon = Some rd ->
  IO.ReadAll rd = (b, None, rd') ->
  MenuItem_renderSelf isPrintTable
      (Plugin_Title (Plugin_WithIcon icon (WithText text NewPlugin))) h
    = (Ret (text +:+ "| templateImage=" +:+ Base64.EncodeToString b
                 +:+ " refresh=false trim=false"),
       <[icon := rd']> h)
  /\ MenuItem_renderSelf isPrintTable (WithIcon icon (NewMenuItem text)) h
       = (Ret (text +:+ "| image=" +:+ Base64.EncodeToString b
                    +:+ " refresh=false trim=false"),
          <[icon := rd']> h).
Proof.
  intros Hrd Hread.
  assert (Hat : ReadAllAt icon h = (Ret (b, None), <[icon := rd']> h))
    by (unfold ReadAllAt; now rewrite Hrd, Hread).
  split.
  - rewrite (renderSelf_icon_read isPrintTable
               (Plugin_Title (Plugin_WithIcon icon (WithText text NewPlugin)))
               h _ icon b eq_refl Hat).
    cbn. now rewrite !append_assoc.
  - rewrite (renderSelf_icon_read isPrintTable (WithIcon icon (NewMenuItem text))
               h _ icon b eq_refl Hat).
    cbn. now rewrite !append_assoc.
Qed.

(** ** One reader, two users *)

(** X3.  A reader is read once.  When an item whose icon is a reader has
    been rendered, an item that holds the same reader (the same item in a
    second render, or another item given the same icon) is rendered with
    an empty payload: its icon field is the image type followed by [=] and
    nothing. *)
Theorem X3_shared_reader (m1 m2 : MenuItem) (icon : nat) (rd : IO.Reader)
    (h h1 : Store) (s1 : string) :
  Icon m1 = Some icon ->
  Icon m2 = Some icon ->
  h !! icon = Some rd ->
  MenuItem_renderSelf isPrintTable m1 h = (Ret s1, h1) ->
  MenuItem_renderSelf isPrintTable m2 h1
    = (Ret (Strings.Join
              (partsBeforeIcon isPrintTable m2 ++ [imageType m2 +:+ "="]
                 ++ tailParts m2) " "),
       h1).
Proof.
  intros Hicon1 Hicon2 Hrd Hrun.
  destruct (ReadAllAt_returns icon h) as (b & [e|] & h' & Hread).
  - rewrite (renderSelf_icon_fault isPrintTable m1 h h' icon b e Hicon1 Hread) in Hrun.
    discriminate.
  - rewrite (renderSelf_icon_read isPrintTable m1 h h' icon b Hicon1 Hread) in Hrun.
    inversion Hrun; subst h'.
    pose proof (ReadAllAt_again icon h h1 rd b Hrd Hread) as Hagain.
    now rewrite (renderSelf_icon_read isPrintTable m2 h1 h1 icon [] Hicon2 Hagain).
Qed.

(** ** The line of an item *)

Lemma nonEmpty_true (s : string) : s <> "" -> nonEmpty s = true.
Proof.
  intros Hs. unfold nonEmpty. apply negb_true_iff. now apply String.eqb_neq.
Qed.

(** X4.  With every optional field set (a shortcut, a positive length, a
    colour, a URI to open, an icon that is read without error) the fields
    of the line stand in this order, one space between them: key, length,
    color, href, image, refresh, trim. *)
Theorem X4_field_order (m : MenuItem) (action : HrefAction) (icon : nat)
    (h : Store) (rd rd' : IO.Reader) (b : list byte) :
  Shortcut m <> "" ->
  (0 < MaxLength (Style_ m))%N ->
  Color (Style_ m) <> "" ->
  Action_ m = Some (Href action) ->
  Icon m = Some icon ->
  h !! icon = Some rd ->
  IO.ReadAll rd = (b, None, rd') ->
  MenuItem_renderSelf isPrintTable m h
    = (Ret (Title m +:+ "| key=" +:+ Shortcut m
              +:+ " length=" +:+ Fmt.verb_d (MaxLength (Style_ m))
              +:+ " color=" +:+ Color (Style_ m)
              +:+ " href=" +:+ URI action
              +:+ " " +:+ imageType m +:+ "=" +:+ Base64.EncodeToString b
              +:+ " refresh=" +:+ Fmt.verb_t (Refresh m) +:+ " trim=false"),
       <[icon := rd']> h).
Proof.
  intros Hkey Hlen Hcolor Haction Hicon Hrd Hread.
  assert (Hat : ReadAllAt icon h = (Ret (b, None), <[icon := rd']> h))
    by (unfold ReadAllAt; now rewrite Hrd, Hread).
  rewrite (renderSelf_icon_read isPrintTable m h _ icon b Hicon Hat).
  unfold partsBeforeIcon, partsBeforeAction, tailParts.
  rewrite Haction, (nonEmpty_true _ Hkey), (nonEmpty_true _ Hcolor).
  apply N.ltb_lt in Hlen. rewrite Hlen.
  cbn [app Strings.Join String.concat]. f_equal. f_equal.
  now rewrite !append_assoc.
Qed.

(** ** Shortcuts *)

Lemma Join_plus (modifiers : list string) (key : string) :
  Strings.Join (modifiers ++ [key]) "+"
    = String.concat "" (map (fun md => md +:+ "+") modifiers) +:+ key.
Proof.
  unfold Strings.Join. induction modifiers as [|md rest IH]; [reflexivity|].
  cbn [app map]. rewrite concat_nosep_cons, (append_assoc (md +:+ "+")), <- IH.
  destruct rest; cbn [app String.concat]; now rewrite append_assoc.
Qed.

Lemma append_empty (a b : string) : a +:+ b = "" -> a = "" /\ b = "".
Proof.
  destruct a as [|c a].
  - intros Hb. split; [reflexivity|exact Hb].
  - rewrite append_cons. discriminate.
Qed.

(** X5.  [WithShortcut] sets the shortcut to the modifiers in the order
    given, each followed by [+], and then the key; a shortcut set before is
    replaced.  The result is empty only for an empty key without modifiers.
    When it is not empty, the line of the item starts with the title, [|],
    and the field [key=] holding that shortcut. *)
Theorem X5_shortcut (key : string) (modifiers : list string) (m : MenuItem) :
  Shortcut (WithShortcut key modifiers m)
    = String.concat "" (map (fun md => md +:+ "+") modifiers) +:+ key
  /\ (Shortcut (WithShortcut key modifiers m) = "" <-> key = "" /\ modifiers = [])
  /\ (forall h h' s,
        key <> "" \/ modifiers <> [] ->
        MenuItem_renderSelf isPrintTable (WithShortcut key modifiers m) h = (Ret s, h') ->
        exists more,
          s = Title m +:+ "| key=" +:+ Shortcut (WithShortcut key modifiers m)
                +:+ " " +:+ more).
Proof.
  assert (Hsc : Shortcut (WithShortcut key modifiers m)
                = String.concat "" (map (fun md => md +:+ "+") modifiers) +:+ key)
    by (cbn [WithShortcut Shortcut]; apply Join_plus).
  assert (Hempty : Shortcut (WithShortcut key modifiers m) = ""
                   <-> key = "" /\ modifiers = []).
  { rewrite Hsc. split.
    - intros Happ. apply append_empty in Happ as [Hmods ->]. split; [reflexivity|].
      destruct modifiers as [|md rest]; [reflexivity|].
      cbn [map] in Hmods. rewrite concat_nosep_cons in Hmods.
      apply append_empty in Hmods as [Hmd _].
      apply append_empty in Hmd as [_ Hplus]. discriminate.
    - now intros [-> ->]. }
  split; [exact Hsc|]. split; [exact Hempty|].
  intros h h' s Hsome Hrun.
  set (item := WithShortcut key modifiers m) in *.
  assert (Hne : nonEmpty (Shortcut item) = true).
  { apply nonEmpty_true. intros Heq. apply Hempty in Heq as [-> ->].
    now destruct Hsome. }
  assert (Hparts : exists rest,
             partsBeforeIcon isPrintTable item
             = (Title m +:+ "|") :: ("key=" +:+ Shortcut item) :: rest).
  { unfold partsBeforeIcon, partsBeforeAction. rewrite Hne.
    change (Title item) with (Title m).
    destruct (0 <? MaxLength (Style_ item))%N,
      (nonEmpty (Color (Style_ item))), (Action_ item) as [[a|a|]|];
      cbn [app]; eauto. }
  destruct Hparts as [rest Hparts].
  assert (Hshape : exists third others,
             s = Strings.Join ((Title m +:+ "|") :: ("key=" +:+ Shortcut item)
                                 :: third :: others) " ").
  { destruct (Icon item) as [icon|] eqn:Hicon.
    - destruct (ReadAllAt_returns icon h) as (b & [e|] & h1 & Hread).
      + rewrite (renderSelf_icon_fault isPrintTable item h h1 icon b e Hicon Hread)
          in Hrun. discriminate.
      + rewrite (renderSelf_icon_read isPrintTable item h h1 icon b Hicon Hread),
          Hparts in Hrun.
        inversion Hrun; subst. unfold tailParts.
        destruct rest as [|third rest]; cbn [app]; eauto.
    - rewrite (renderSelf_no_icon isPrintTable item h Hicon), Hparts in Hrun.
      inversion Hrun; subst. unfold tailParts.
      destruct rest as [|third rest]; cbn [app]; eauto. }
  destruct Hshape as (third & others & ->).
  exists (Strings.Join (third :: others) " ").
  unfold Strings.Join. cbn [String.concat].
  now rewrite !append_assoc.
Qed.

(** ** Writers that refuse a line *)

Ltac appends_tail :=
  repeat first
    [ assumption
    | apply appends_ret | apply appends_onStore | apply appends_Fprint
    | apply appends_orReturn
    | apply appends_bind; [|intro]
    | match goal with
      | |- appends (if ?b then _ else _) => destruct b
      end ].

Lemma quiet_ret : quiet (ret None).
Proof. intros st e. discriminate. Qed.

Lemma quiet_Fprint (text : string) : quiet (Fprintf text).
Proof. intros [h w] e. discriminate. Qed.

Lemma quiet_onStore {A} (c : M Store A)
    (k : A -> M (Store * list string) (option IO.error)) :
  (forall a, quiet (k a)) -> quiet (bind (onStore c) k).
Proof.
  intros Hk [h w] e. unfold bind. rewrite onStore_eq.
  destruct (c h) as [[a|e0] h1]; cbn [fst snd]; [apply Hk|discriminate].
Qed.

Lemma quiet_bind (c rest : M (Store * list string) (option IO.error)) :
  quiet c -> quiet rest -> quiet (err <- c ;; orReturn err rest).
Proof.
  intros Hc Hrest st e. unfold bind. specialize (Hc st).
  destruct (c st) as [[[e0|]|e0] st1]; cbn [fst orReturn] in *.
  - now destruct (Hc e0).
  - apply Hrest.
  - discriminate.
Qed.

Lemma quiet_forEach {A} (f : A -> M (Store * list string) (option IO.error)) l :
  Forall (fun x => quiet (f x)) l -> quiet (forEach f l).
Proof.
  induction 1 as [|x rest Hx _ IH]; [apply quiet_ret|].
  rewrite forEach_cons. now apply quiet_bind.
Qed.

Lemma quiet_printBody self kids alt level :
  quiet kids -> quiet (printBody self kids alt level).
Proof.
  intros Hkids. unfold printBody.
  apply quiet_onStore; intros s.
  apply quiet_bind; [apply quiet_Fprint|].
  apply quiet_bind; [exact Hkids|].
  apply quiet_onStore; intros a.
  destruct (nonEmpty a); [|apply quiet_ret].
  apply quiet_bind; [apply quiet_Fprint|apply quiet_ret].
Qed.

Lemma quiet_printItem (m : MenuItem) : forall level,
  quiet (printItem isPrintTable m level).
Proof.
  induction m as [m IH] using MenuItem_submenu_ind; intros level.
  rewrite printItem_eq. apply quiet_printBody, quiet_forEach.
  eapply Forall_impl; [exact IH|]. intros child Hchild. apply Hchild.
Qed.

Lemma quiet_printElement (el : XbarElement) (level : nat) :
  quiet (printElement isPrintTable el level).
Proof.
  destruct el as [|m]; [|apply quiet_printItem].
  apply quiet_printBody, quiet_ret.
Qed.

Lemma quiet_RunW (p : Plugin) : quiet (RunW isPrintTable p).
Proof.
  unfold RunW, Fprintln.
  apply quiet_onStore; intros title.
  apply quiet_bind; [apply quiet_Fprint|].
  destruct (0 <? length (Elements p))%nat; [|apply quiet_ret].
  apply quiet_bind; [apply quiet_Fprint|].
  apply quiet_forEach, Forall_forall. intros el _. apply quiet_printElement.
Qed.

(** The first refusal of a writer, found in a record. *)
Lemma replay_refused {W} `{IO.Writer W} (log : list string) : forall (w w' : W) e,
  replay w log = (w', Some e) <->
  exists pre line post wk,
    log = pre ++ line :: post
    /\ replay w pre = (wk, None) /\ IO.Write wk line = (w', Some e).
Proof.
  induction log as [|line rest IH]; intros w w' e.
  - split; [discriminate|]. intros (pre & l & post & wk & Hlog & _).
    now destruct pre.
  - cbn [replay]. destruct (IO.Write w line) as [w1 [e1|]] eqn:Hw.
    + split.
      * intros Heq. inversion Heq; subst. now exists [], line, rest, w.
      * intros (pre & l & post & wk & Hlog & Hpre & Hl).
        destruct pre as [|x pre]; cbn [app] in Hlog; inversion Hlog; subst.
        -- cbn in Hpre. inversion Hpre; subst. rewrite Hw in Hl. now inversion Hl.
        -- cbn [replay] in Hpre. rewrite Hw in Hpre. discriminate.
    + rewrite IH. split.
      * intros (pre & l & post & wk & -> & Hpre & Hl).
        exists (line :: pre), l, post, wk. cbn [app replay]. now rewrite Hw.
      * intros (pre & l & post & wk & Hlog & Hpre & Hl).
        destruct pre as [|x pre]; cbn [app] in Hlog; inversion Hlog; subst.
        -- cbn in Hpre. inversion Hpre; subst. rewrite Hw in Hl. discriminate.
        -- cbn [replay] in Hpre. rewrite Hw in Hpre. now exists pre, l, post, wk.
Qed.

Section Refusing.

Context {W : Type} `{IO.Writer W}.

Lemma replay_app_stop (w w1 : W) (l1 l2 : list string) (e : IO.error) :
  replay w l1 = (w1, Some e) -> replay w (l1 ++ l2) = (w1, Some e).
Proof.
  revert w. induction l1 as [|x l1 IH]; intros w; [discriminate|].
  cbn [replay app]. destruct (IO.Write w x) as [w' [e'|]]; [trivial|apply IH].
Qed.

Lemma stops_ret (a : option IO.error) : stops (W := W) (ret a) (ret a).
Proof. intros h w w' e. discriminate. Qed.

Lemma stops_Fprint (text : string) : stops (W := W) (Fprintf text) (Fprintf text).
Proof.
  intros h w w' e. cbn. destruct (IO.Write w text) as [w1 [e1|]]; [|discriminate].
  intros Heq. inversion Heq; subst. eauto.
Qed.

Lemma stops_onStore {A} (c : M Store A) (k : A -> M (Store * W) (option IO.error))
    (kR : A -> M (Store * list string) (option IO.error)) :
  (forall a, stops (k a) (kR a)) -> stops (bind (onStore c) k) (bind (onStore c) kR).
Proof.
  intros Hk h w w' e. unfold bind. rewrite !onStore_eq.
  destruct (c h) as [[a|e0] h1]; cbn [fst snd]; [apply Hk|discriminate].
Qed.

Lemma stops_bind (c rest : M (Store * W) (option IO.error))
    (cR restR : M (Store * list string) (option IO.error)) :
  follows c cR -> stops c cR -> appends restR -> stops rest restR ->
  stops (err <- c ;; orReturn err rest) (err <- cR ;; orReturn err restR).
Proof.
  intros Hf Hs Ha Hrest h w w' e.
  specialize (Hf h w). specialize (Hs h w).
  unfold bind.
  destruct (cR (h, [])) as [[[e0|]|e0] [h1 out1]] eqn:HcR; cbn [fst snd] in *.
  - cbn [orReturn ret fst snd]. intros Hre.
    destruct (Hs _ _ Hre) as [h' ->]. cbn. eauto.
  - cbn [orReturn]. rewrite (Ha h1 out1). cbn [fst snd]. intros Hre.
    destruct (replay w out1) as [w1 [e1|]] eqn:H1.
    + rewrite (replay_app_stop _ _ _ _ _ H1) in Hre. inversion Hre; subst.
      destruct (Hs _ _ eq_refl) as [h' ->]. cbn. eauto.
    + rewrite (replay_app _ _ _ _ H1) in Hre. rewrite (Hf _ eq_refl).
      cbn [orReturn]. exact (Hrest h1 w1 _ _ Hre).
  - cbn [fst snd]. intros Hre. destruct (Hs _ _ Hre) as [h' ->]. cbn. eauto.
Qed.

Lemma stops_forEach {A} (f : A -> M (Store * W) (option IO.error))
    (fR : A -> M (Store * list string) (option IO.error)) l :
  Forall (fun x => appends (fR x) /\ follows (f x) (fR x) /\ stops (f x) (fR x)) l ->
  stops (forEach f l) (forEach fR l).
Proof.
  induction 1 as [|x rest (Ha & Hf & Hs) Hall IH]; [apply stops_ret|].
  rewrite !forEach_cons. apply stops_bind; try assumption.
  apply appends_forEach. eapply Forall_impl; [exact Hall|]. now intros y (? & _).
Qed.

Lemma stops_printBody self alt level kids kidsR :
  appends kidsR -> follows (W := W) kids kidsR -> stops kids kidsR ->
  stops (printBody self kids alt level) (printBody self kidsR alt level).
Proof.
  intros Ha Hf Hs. unfold printBody.
  apply stops_onStore; intros s.
  apply stops_bind; [apply follows_Fprint|apply stops_Fprint|appends_tail|].
  apply stops_bind; [exact Hf|exact Hs|appends_tail|].
  apply stops_onStore; intros a.
  destruct (nonEmpty a); [|apply stops_ret].
  apply stops_bind;
    [apply follows_Fprint|apply stops_Fprint|apply appends_ret|apply stops_ret].
Qed.

Lemma stops_printItem (m : MenuItem) : forall level,
  stops (W := W) (printItem isPrintTable m level) (printItem isPrintTable m level).
Proof.
  induction m as [m IH] using MenuItem_submenu_ind; intros level.
  rewrite !printItem_eq. apply stops_printBody.
  - apply appends_forEach, Forall_forall. intros child _.
    apply appends_printItem.
  - apply follows_forEach, Forall_forall. intros child _. split.
    + apply appends_printItem.
    + apply follows_printItem.
  - apply stops_forEach. eapply Forall_impl; [exact IH|].
    intros child Hchild. split; [apply appends_printItem|].
    split; [apply follows_printItem|apply Hchild].
Qed.

Lemma stops_printElement (el : XbarElement) (level : nat) :
  stops (W := W) (printElement isPrintTable el level)
        (printElement isPrintTable el level).
Proof.
  destruct el as [|m]; [|apply stops_printItem].
  apply stops_printBody;
    [apply appends_ret|apply follows_ret|apply stops_ret].
Qed.

Lemma stops_RunW (p : Plugin) :
  stops (W := W) (RunW isPrintTable p) (RunW isPrintTable p).
Proof.
  unfold RunW, Fprintln.
  assert (Hall : Forall (fun el =>
              appends (printElement isPrintTable el 0)
              /\ follows (W := W) (printElement isPrintTable el 0)
                         (printElement isPrintTable el 0)
              /\ stops (W := W) (printElement isPrintTable el 0)
                       (printElement isPrintTable el 0)) (Elements p)).
  { apply Forall_forall. intros el _. split; [apply appends_printElement|].
    split; [apply follows_printElement|apply stops_printElement]. }
  assert (Happ : appends (forEach (fun item => printElement isPrintTable item 0)
                                  (Elements p))).
  { apply appends_forEach. eapply Forall_impl; [exact Hall|]. now intros el (? & _). }
  apply stops_onStore; intros title.
  apply stops_bind; [apply follows_Fprint|apply stops_Fprint| |].
  - destruct (0 <? length (Elements p))%nat; appends_tail.
  - destruct (0 <? length (Elements p))%nat; [|apply stops_ret].
    apply stops_bind; [apply follows_Fprint|apply stops_Fprint|exact Happ|].
    now apply stops_forEach.
Qed.

(** What [RunW] does with any writer, read off what it does with a
    recording one. *)
Lemma RunW_any_writer (p : Plugin) (h : Store) (w : W) :
  match replay w (snd (snd (RunW isPrintTable p (h, ([] : list string))))) with
  | (w', None) =>
      RunW isPrintTable p (h, w)
        = (fst (RunW isPrintTable p (h, ([] : list string))),
           (fst (snd (RunW isPrintTable p (h, ([] : list string)))), w'))
  | (w', Some e) =>
      exists h', RunW isPrintTable p (h, w) = (Ret (Some e), (h', w'))
  end.
Proof.
  destruct (replay w _) as [w' [e|]] eqn:Hre.
  - exact (stops_RunW p h w w' e Hre).
  - exact (follows_RunW isPrintTable p h w w' Hre).
Qed.

(** X6.  A writer that accepts every line: [RunW] hands it the lines
    that a recording writer records, in that order, one [Write] each, and
    has the outcome (nil or a panic) and the effect on the readers it has
    there. *)
Theorem X6_accepting_writer (p : Plugin) (h : Store) (w w' : W) :
  replay w (snd (snd (RunW isPrintTable p (h, ([] : list string))))) = (w', None) ->
  RunW isPrintTable p (h, w)
    = (fst (RunW isPrintTable p (h, ([] : list string))),
       (fst (snd (RunW isPrintTable p (h, ([] : list string)))), w')).
Proof.
  intros Hre. pose proof (RunW_any_writer p h w) as Hany.
  now rewrite Hre in Hany.
Qed.

(** X7.  [RunW] returns an error exactly when the writer refuses a line:
    the error is the one [Write] gave for the first line refused, the
    lines before it were written in order, and [Write] is not called
    again. *)
Theorem X7_write_error (p : Plugin) (h : Store) (w w' : W) (e : IO.error) :
  (exists h', RunW isPrintTable p (h, w) = (Ret (Some e), (h', w')))
  <-> exists pre line post wk,
        snd (snd (RunW isPrintTable p (h, ([] : list string)))) = pre ++ line :: post
        /\ replay w pre = (wk, None)
        /\ IO.Write wk line = (w', Some e).
Proof.
  rewrite <- replay_refused.
  pose proof (RunW_any_writer p h w) as Hany.
  destruct (replay w _) as [w1 [e1|]].
  - destruct Hany as [h1 Hrun]. split.
    + intros [h' Heq]. rewrite Hrun in Heq. now inversion Heq.
    + intros Heq. inversion Heq; subst. eauto.
  - split; [|discriminate]. intros [h' Heq]. rewrite Hany in Heq.
    exfalso. apply (quiet_RunW p (h, []) e). now inversion Heq.
Qed.

(** X8.  [RunW] panics with [e] exactly when the run against a recording
    writer panics with [e] and the writer accepts every line recorded
    before the panic; the writer then holds those lines, and the readers
    are as the recorded run leaves them.  A line refused before the
    failing read makes [RunW] return the error of the writer instead. *)
Theorem X8_panic (p : Plugin) (h : Store) (w : W) (e : IO.error)
    (st : Store * W) :
  RunW isPrintTable p (h, w) = (Panic e, st)
  <-> fst (RunW isPrintTable p (h, ([] : list string))) = Panic e
      /\ replay w (snd (snd (RunW isPrintTable p (h, ([] : list string)))))
         = (snd st, None)
      /\ fst st = fst (snd (RunW isPrintTable p (h, ([] : list string)))).
Proof.
  pose proof (RunW_any_writer p h w) as Hany.
  destruct (replay w _) as [w1 [e1|]].
  - destruct Hany as [h1 Hrun]. rewrite Hrun. split; [discriminate|].
    intros (_ & Heq & _). discriminate.
  - rewrite Hany. split.
    + intros Heq. inversion Heq; subst. now cbn.
    + intros (Hp & Hw & Hst). destruct st as [h' w'']. cbn [fst snd] in *.
      inversion Hw; subst. now rewrite Hp.
Qed.

(** X9.  A plugin without icons, any writer: [RunW] hands the writer the
    lines of the layout until one is refused or none is left, returns the
    error of the refusal if there was one and nil otherwise, never panics
    and leaves the readers alone.  Into a [bytes.Buffer] it writes the
    whole layout and returns nil. *)
Theorem X9_layout_any_writer (p : Plugin) (h : Store) (w : W) :
  iconFreePlugin p = true ->
  RunW isPrintTable p (h, w)
    = (Ret (snd (replay w (pluginLines isPrintTable p))),
       (h, fst (replay w (pluginLines isPrintTable p))))
  /\ forall buffer : string,
       RunW isPrintTable p (h, buffer)
         = (Ret None, (h, buffer +:+ String.concat "" (pluginLines isPrintTable p))).
Proof.
  intros Hfree.
  pose proof (RunW_layout isPrintTable p h [] Hfree) as Hlayout. cbn [app] in Hlayout.
  split.
  - pose proof (RunW_any_writer p h w) as Hany. rewrite Hlayout in Hany.
    cbn [fst snd] in Hany.
    destruct (replay w _) as [w1 [e1|]]; cbn [fst snd]; [|exact Hany].
    destruct Hany as [h1 Hrun].
    pose proof (storeBlind_RunW isPrintTable p Hfree h w) as Hblind.
    rewrite Hrun in Hblind. rewrite Hrun. inversion Hblind. congruence.
  - intros buffer. rewrite RunW_Buffer, Hlayout. reflexivity.
Qed.

End Refusing.

(** ** Adding elements and submenu items *)

Lemma forEach_app_run {S A} (f : A -> M S (option IO.error)) (l1 l2 : list A) :
  forall st,
    forEach f (l1 ++ l2) st
      = match forEach f l1 st with
        | (Ret None, st1) => forEach f l2 st1
        | failed => failed
        end.
Proof.
  induction l1 as [|x l1 IH]; intros st; [reflexivity|].
  cbn [app]. rewrite !forEach_cons. unfold bind.
  destruct (f x st) as [[[e|]|e] st1]; cbn [orReturn ret]; [reflexivity| |reflexivity].
  apply IH.
Qed.

Section Adding.

Context {W : Type} `{IO.Writer W}.

(** X10.  [WithElements] adds elements at the end.  For a plugin that has
    elements, [RunW] after [WithElements] does what [RunW] did before and
    then, if that returned nil, prints the new elements at level 0; a
    failure before them is the result, and nothing of them is printed.
    For a plugin without elements the separator line that follows the title comes
    first, unless no element was added. *)
Theorem X10_WithElements (p : Plugin) (elements : list XbarElement)
    (h : Store) (w : W) :
  (Elements p <> [] ->
     RunW isPrintTable (WithElements elements p) (h, w)
       = match RunW isPrintTable p (h, w) with
         | (Ret None, st) =>
             forEach (fun item => printElement isPrintTable item 0) elements st
         | failed => failed
         end)
  /\ (Elements p = [] -> elements <> [] ->
        RunW isPrintTable (WithElements elements p) (h, w)
          = match RunW isPrintTable p (h, w) with
            | (Ret None, st) =>
                (err <- Fprintln "---" ;;
                 orReturn err
                   (forEach (fun item => printElement isPrintTable item 0) elements)) st
            | failed => failed
            end)
  /\ (elements = [] ->
        RunW isPrintTable (WithElements elements p) (h, w) = RunW isPrintTable p (h, w)).
Proof.
  rewrite !RunW_run. cbn [WithElements Plugin_Title Elements].
  split; [|split].
  - intros Hsome.
    destruct (MenuItem_renderSelf isPrintTable (Plugin_Title p) h) as [[title|e] h1];
      [|reflexivity].
    destruct (IO.Write w _) as [w1 [e1|]]; [reflexivity|].
    destruct (Elements p) as [|el rest] eqn:Hels; [now destruct Hsome|].
    cbn [app length Nat.ltb Nat.leb].
    destruct (IO.Write w1 _) as [w2 [e2|]]; [reflexivity|].
    rewrite (forEach_app_run _ (el :: rest) elements).
    now destruct (forEach _ (el :: rest) _) as [[[e3|]|e3] st3].
  - intros -> Hnew. cbn [app length Nat.ltb Nat.leb].
    destruct (MenuItem_renderSelf isPrintTable (Plugin_Title p) h) as [[title|e] h1];
      [|reflexivity].
    destruct (IO.Write w _) as [w1 [e1|]]; [reflexivity|].
    destruct elements as [|el rest]; [now destruct Hnew|].
    cbn [length Nat.ltb Nat.leb]. unfold bind, Fprintln, Fprintf.
    now destruct (IO.Write w1 _) as [w2 [e2|]].
  - intros ->. now rewrite List.app_nil_r.
Qed.

Lemma renderSelf_WithSubMenu (items : list MenuItem) (m : MenuItem) :
  MenuItem_renderSelf isPrintTable (WithSubMenu items m)
    = MenuItem_renderSelf isPrintTable m.
Proof. reflexivity. Qed.

(** X11.  [WithSubMenu] adds items at the end of the submenu.  For an item
    without alternate, printing it after [WithSubMenu] does what printing
    it did before and then, if that returned nil, prints the new items
    one level under it; a failure before them is the result. *)
Theorem X11_WithSubMenu (m : MenuItem) (items : list MenuItem) (level : nat)
    (st : Store * W) :
  Alt m = None ->
  printElement isPrintTable (Item (WithSubMenu items m)) level st
    = match printElement isPrintTable (Item m) level st with
      | (Ret None, st1) =>
          forEach (fun item => printElement isPrintTable (Item item) (level + 1))
                  items st1
      | failed => failed
      end.
Proof.
  intros Halt. destruct st as [h w]. cbn [printElement].
  rewrite !printItem_eq, !printBody_run, renderSelf_WithSubMenu.
  unfold MenuItem_renderAlt. cbn [WithSubMenu Alt SubMenu]. rewrite Halt.
  destruct (MenuItem_renderSelf isPrintTable m h) as [[s|e] h1]; [|reflexivity].
  destruct (IO.Write w _) as [w1 [e1|]]; [reflexivity|].
  rewrite forEach_app_run.
  destruct (forEach _ (SubMenu m) _) as [[[e2|]|e2] [h2 w2]]; try reflexivity.
  unfold ret. cbn [nonEmpty String.eqb negb].
  now destruct (forEach _ items _) as [[[e3|]|e3] [h3 w3]].
Qed.

End Adding.

(** ** One level deeper *)

Lemma nested_ret {A} (a : A) : nested (ret a) (ret a).
Proof. intros h. reflexivity. Qed.

Lemma nested_onStore {A} (c : M Store A) : nested (onStore c) (onStore c).
Proof. intros h. rewrite onStore_eq. reflexivity. Qed.

Lemma nested_Fprint (text : string) : nested (Fprintf (deeper text)) (Fprintf text).
Proof. intros h. reflexivity. Qed.

Lemma nested_bind {A B} (c1 c0 : M (Store * list string) A)
    (k1 k0 : A -> M (Store * list string) B) :
  nested c1 c0 -> (forall a, appends (k1 a)) -> (forall a, appends (k0 a)) ->
  (forall a, nested (k1 a) (k0 a)) -> nested (bind c1 k1) (bind c0 k0).
Proof.
  intros Hc Ha1 Ha0 Hk h. unfold bind. rewrite (Hc h).
  destruct (c0 (h, [])) as [[a|e] [h1 out]]; cbn [fst snd]; [|reflexivity].
  rewrite (Ha1 a h1 (map deeper out)), (Ha0 a h1 out), (Hk a h1). cbn [fst snd].
  now rewrite map_app.
Qed.

Lemma nested_orReturn (err : option IO.error) rest1 rest0 :
  nested rest1 rest0 -> nested (orReturn err rest1) (orReturn err rest0).
Proof. destruct err; [intros _; apply nested_ret|trivial]. Qed.

Lemma nested_forEach {A} (f1 f0 : A -> M (Store * list string) (option IO.error)) l :
  Forall (fun x => appends (f1 x) /\ appends (f0 x) /\ nested (f1 x) (f0 x)) l ->
  nested (forEach f1 l) (forEach f0 l).
Proof.
  induction 1 as [|x rest (Ha1 & Ha0 & Hx) Hall IH]; [apply nested_ret|].
  rewrite !forEach_cons. apply nested_bind; [exact Hx| | |].
  - intros err. apply appends_orReturn, appends_forEach.
    eapply Forall_impl; [exact Hall|]. now intros y (? & _).
  - intros err. apply appends_orReturn, appends_forEach.
    eapply Forall_impl; [exact Hall|]. now intros y (_ & ? & _).
  - intros err. now apply nested_orReturn.
Qed.

Lemma deeper_line (level : nat) (rest : string) :
  Strings.Repeat "--" (level + 1) +:+ rest
    = deeper (Strings.Repeat "--" level +:+ rest).
Proof. unfold deeper. now rewrite Repeat_succ, append_assoc. Qed.

Lemma nested_printBody self alt level kids1 kids0 :
  appends kids1 -> appends kids0 -> nested kids1 kids0 ->
  nested (printBody self kids1 alt (level + 1)) (printBody self kids0 alt level).
Proof.
  intros Ha1 Ha0 Hkids. unfold printBody.
  apply nested_bind;
    [apply nested_onStore|intros s; appends_tail|intros s; appends_tail|intros s].
  rewrite deeper_line.
  apply nested_bind;
    [apply nested_Fprint|intros err; appends_tail|intros err; appends_tail|intros err].
  apply nested_orReturn.
  apply nested_bind;
    [exact Hkids|intros err1; appends_tail|intros err1; appends_tail|intros err1].
  apply nested_orReturn.
  apply nested_bind;
    [apply nested_onStore|intros a; appends_tail|intros a; appends_tail|intros a].
  destruct (nonEmpty a); [|apply nested_ret].
  rewrite deeper_line.
  apply nested_bind;
    [apply nested_Fprint|intros err2; appends_tail|intros err2; appends_tail|intros err2].
  apply nested_orReturn, nested_ret.
Qed.

Lemma nested_printItem (m : MenuItem) : forall level,
  nested (printItem isPrintTable m (level + 1)) (printItem isPrintTable m level).
Proof.
  induction m as [m IH] using MenuItem_submenu_ind; intros level.
  rewrite !printItem_eq. apply nested_printBody.
  - apply appends_forEach, Forall_forall. intros child _. apply appends_printItem.
  - apply appends_forEach, Forall_forall. intros child _. apply appends_printItem.
  - apply nested_forEach. eapply Forall_impl; [exact IH|].
    intros child Hchild. split; [apply appends_printItem|].
    split; [apply appends_printItem|apply Hchild].
Qed.

Lemma nested_printElement (el : XbarElement) (level : nat) :
  nested (printElement isPrintTable el (level + 1)) (printElement isPrintTable el level).
Proof.
  destruct el as [|m]; [|apply nested_printItem].
  apply nested_printBody; [apply appends_ret|apply appends_ret|apply nested_ret].
Qed.

Lemma map_deeper_Repeat (k : nat) (l : list string) :
  map (fun line => Strings.Repeat "--" (k + 1) +:+ line) l
    = map deeper (map (fun line => Strings.Repeat "--" k +:+ line) l).
Proof.
  rewrite map_map. apply map_ext. intros line. apply deeper_line.
Qed.

(** X12.  The level of an element only indents it.  Printed [k] levels
    deeper, an element and everything under it give the same lines with
    [k] times [--] in front of each, the same outcome, and the same effect
    on the readers. *)
Theorem X12_level_indents (el : XbarElement) (level k : nat) (h : Store)
    (log : list string) :
  printElement isPrintTable el (level + k) (h, log)
    = (fst (printElement isPrintTable el level (h, [])),
       (fst (snd (printElement isPrintTable el level (h, []))),
        log ++ map (fun line => Strings.Repeat "--" k +:+ line)
                   (snd (snd (printElement isPrintTable el level (h, [])))))).
Proof.
  rewrite (appends_printElement isPrintTable el (level + k) h log).
  induction k as [|k IH].
  - rewrite Nat.add_0_r. do 3 f_equal.
    rewrite <- (map_id (snd (snd _))) at 1. apply map_ext. reflexivity.
  - replace (level + S k)%nat with ((level + k) + 1)%nat by lia.
    rewrite (nested_printElement el (level + k) h). cbn [fst snd].
    injection IH as Hout Hstore Hlog. apply app_inv_head in Hlog.
    rewrite Hout, Hstore, Hlog.
    replace (S k) with (k + 1)%nat by lia.
    now rewrite map_deeper_Repeat.
Qed.

(** ** The lines that are written *)

Lemma renderSelf_itemBody (m : MenuItem) (h h' : Store) (s : string) :
  MenuItem_renderSelf isPrintTable m h = (Ret s, h') -> itemBody s.
Proof.
  intros Hrun. destruct (renderSelf_ends isPrintTable m h h' s Hrun) as [front ->].
  now exists front, (Refresh m).
Qed.

Lemma writesLines_ret {A} (a : A) : writesLines (ret a).
Proof. intros h. constructor. Qed.

Lemma writesLines_forEach {A} (f : A -> M (Store * list string) (option IO.error)) l :
  Forall (fun x => appends (f x) /\ writesLines (f x)) l -> writesLines (forEach f l).
Proof.
  induction 1 as [|x rest [Ha Hx] Hall IH]; [apply writesLines_ret|].
  intros h. rewrite forEach_cons. unfold bind.
  specialize (Hx h). destruct (f x (h, [])) as [[[e|]|e] [h1 out]];
    cbn [fst snd orReturn ret] in *; try exact Hx.
  assert (Hrest : appends (forEach f rest)).
  { apply appends_forEach. eapply Forall_impl; [exact Hall|]. now intros y [? _]. }
  rewrite (Hrest h1 out). cbn [fst snd]. apply Forall_app. split; [exact Hx|apply IH].
Qed.

Lemma writesLines_printBody self alt level
    (kids : M (Store * list string) (option IO.error)) :
  (forall h s h', self h = (Ret s, h') -> protocolLine (lineOf level s)) ->
  (forall h a h', alt h = (Ret a, h') -> nonEmpty a = true ->
                  protocolLine (altLineOf level a)) ->
  appends kids -> writesLines kids ->
  writesLines (printBody self kids alt level).
Proof.
  intros Hself Halt Ha Hkids h. rewrite printBody_run.
  destruct (self h) as [[s|e] h1] eqn:Hs; [|constructor].
  unfold IO.Write, IO.Recorder. cbn [app].
  rewrite (Ha h1 [_]). specialize (Hkids h1).
  pose proof (Hself h s h1 Hs) as Hline.
  destruct (kids (h1, [])) as [[[e|]|e] [h2 out]]; cbn [fst snd] in *;
    try (constructor; assumption).
  destruct (alt h2) as [[a|e] h3] eqn:Halt2; [|constructor; assumption].
  destruct (nonEmpty a) eqn:Hne; cbn [fst snd]; [|constructor; assumption].
  rewrite <- List.app_assoc. cbn [app]. constructor; [assumption|].
  apply Forall_app. split; [assumption|].
  constructor; [|constructor]. exact (Halt h2 a h3 Halt2 Hne).
Qed.

Lemma writesLines_printItem (m : MenuItem) : forall level,
  writesLines (printItem isPrintTable m level).
Proof.
  induction m as [m IH] using MenuItem_submenu_ind; intros level.
  rewrite printItem_eq. apply writesLines_printBody.
  - intros h s h' Hrun. apply itemLine. exact (renderSelf_itemBody m h h' s Hrun).
  - intros h a h' Hrun Hne. apply alternateLine.
    pose proof (renderAlt_recorded isPrintTable m h h' a Hrun) as Halt.
    destruct (Alt m) as [alt|].
    + destruct Halt as [Halt _]. exact (renderSelf_itemBody alt h h' a Halt).
    + destruct Halt as [-> _]. discriminate.
  - apply appends_forEach, Forall_forall. intros child _. apply appends_printItem.
  - apply writesLines_forEach. eapply Forall_impl; [exact IH|].
    intros child Hchild. split; [apply appends_printItem|apply Hchild].
Qed.

Lemma writesLines_printElement (el : XbarElement) (level : nat) :
  writesLines (printElement isPrintTable el level).
Proof.
  destruct el as [|m]; [|apply writesLines_printItem].
  apply writesLines_printBody.
  - intros h s h' Hrun. inversion Hrun; subst. apply separatorLine.
  - intros h a h' Hrun. inversion Hrun; subst. discriminate.
  - apply appends_ret.
  - apply writesLines_ret.
Qed.

(** X13.  Every line that [RunW] writes is a line of the protocol: ended by
    a newline, and either a separator at some level, or the line of an item
    or of an alternate, whose fields end with [refresh=] and a boolean
    followed by [trim=false].  This holds as well when the run ends in a
    panic, for the lines written before it. *)
Theorem X13_protocol_lines (p : Plugin) (h : Store) (log : list string) :
  Forall protocolLine
         (drop (length log) (snd (snd (RunW isPrintTable p (h, log)))))
  /\ forall line, protocolLine line -> exists body, line = body +:+ String newline "".
Proof.
  split.
  - rewrite (appends_RunW isPrintTable p h log). cbn [fst snd].
    rewrite drop_app_length. rewrite RunW_run.
    destruct (MenuItem_renderSelf isPrintTable (Plugin_Title p) h)
      as [[title|e] h1] eqn:Htitle; [|constructor].
    unfold IO.Write, IO.Recorder. cbn [app].
    assert (Hfirst : protocolLine (title +:+ String newline "")).
    { apply (itemLine 0 title). exact (renderSelf_itemBody _ h h1 title Htitle). }
    destruct (0 <? length (Elements p))%nat; [|now repeat constructor].
    assert (Hall : Forall (fun el => appends (printElement isPrintTable el 0)
                                     /\ writesLines (printElement isPrintTable el 0))
                          (Elements p)).
    { apply Forall_forall. intros el _.
      split; [apply appends_printElement|apply writesLines_printElement]. }
    assert (Hrest : appends (forEach (fun item => printElement isPrintTable item 0)
                                     (Elements p))).
    { apply appends_forEach. eapply Forall_impl; [exact Hall|]. now intros y [? _]. }
    rewrite (Hrest h1 [_; _]). cbn [fst snd app].
    constructor; [exact Hfirst|]. constructor; [apply (separatorLine 0)|].
    exact (writesLines_forEach _ _ Hall h1).
  - intros line Hline. destruct Hline as [level|level body _|level body _].
    + exists (Strings.Repeat "--" level +:+ "---"). unfold lineOf.
      now rewrite !append_assoc.
    + exists (Strings.Repeat "--" level +:+ body). unfold lineOf.
      now rewrite !append_assoc.
    + exists (Strings.Repeat "--" level +:+ body +:+ " alternate=true").
      unfold altLineOf. now rewrite !append_assoc.
Qed.

(** ** One item, one line *)

Lemma noNewline_append (a b : string) :
  noNewline (a +:+ b) = noNewline a && noNewline b.
Proof.
  induction a as [|c a IH]; [reflexivity|].
  rewrite append_cons. cbn [noNewline]. now rewrite IH, andb_assoc.
Qed.

Lemma noNewline_Join (l : list string) :
  noNewline (Strings.Join l " ") = forallb noNewline l.
Proof.
  unfold Strings.Join. induction l as [|x [|y l] IH]; [reflexivity| |].
  - cbn [String.concat forallb]. now rewrite andb_true_r.
  - change (String.concat " " (x :: y :: l))
      with (x +:+ " " +:+ String.concat " " (y :: l)).
    rewrite !noNewline_append, IH. reflexivity.
Qed.

Lemma Z_of_ascii_of_Z (z : Z) : Z_of_ascii (ascii_of_Z z) = z mod 256.
Proof.
  unfold Z_of_ascii, ascii_of_Z.
  assert (0 <= z mod 256 < 256) by (apply Z.mod_pos_bound; lia).
  rewrite N_ascii_embedding by lia. lia.
Qed.

Lemma not_newline (z : Z) : z mod 256 <> 10 -> Ascii.eqb (ascii_of_Z z) newline = false.
Proof.
  intros Hz. apply Ascii.eqb_neq. intros Heq. apply Hz.
  rewrite <- Z_of_ascii_of_Z, Heq. reflexivity.
Qed.

(** A byte with its high bit set. *)
Lemma high_byte (k y : Z) :
  Z.testbit k 7 = true -> Ascii.eqb (ascii_of_Z (Z.lor k y)) newline = false.
Proof.
  intros Hk. apply not_newline. intros Heq.
  assert (Hbit : Z.testbit (Z.lor k y mod 2 ^ 8) 7 = true).
  { rewrite Z.mod_pow2_bits_low by lia. now rewrite Z.lor_spec, Hk. }
  change (2 ^ 8) with 256 in Hbit. rewrite Heq in Hbit. discriminate.
Qed.

Lemma noNewline_hexdigit (d : Z) : noNewline (Strconv.hexdigit d) = true.
Proof.
  unfold Strconv.hexdigit, index. generalize (Z.to_nat d) as n. intros n.
  do 16 (destruct n as [|n]; [reflexivity|]). reflexivity.
Qed.

Lemma noNewline_AppendRune (r : Z) :
  Strconv.IsPrint isPrintTable r = true -> noNewline (Utf8.AppendRune r) = true.
Proof.
  unfold Utf8.AppendRune, Utf8.bytes, Strconv.IsPrint.
  destruct (Z.leb_spec r 0x7F) as [Hascii|Hwide].
  - destruct (Z.leb_spec r 0xFF) as [_|Hlow]; [|lia].
    destruct (Z.leb_spec 0x20 r) as [Hfrom|Hfrom];
      destruct (Z.leb_spec r 0x7E) as [Hto|Hto]; cbn [andb];
      try (destruct (Z.leb_spec 0xA1 r); [lia|discriminate]).
    intros _. cbn [map string_of_list_ascii noNewline]. rewrite andb_true_r.
    apply negb_true_iff, not_newline. rewrite Z.mod_small by lia. lia.
  - intros _. destruct (r <=? 0x7FF); [|cbv zeta; destruct (_ <=? 0xFFFF)];
      cbn [map string_of_list_ascii noNewline];
      now rewrite !high_byte.
Qed.

Lemma noNewline_appendEscapedRune (r : Z) :
  noNewline (Strconv.appendEscapedRune isPrintTable r) = true.
Proof.
  unfold Strconv.appendEscapedRune.
  destruct ((r =? Z_of_ascii dquote) || (r =? Z_of_ascii backslash)) eqn:Hq.
  - apply orb_true_iff in Hq as [Hq|Hq]; apply Z.eqb_eq in Hq; subst r; reflexivity.
  - destruct (Strconv.IsPrint isPrintTable r) eqn:Hprint;
      [exact (noNewline_AppendRune r Hprint)|].
    repeat match goal with
           | |- noNewline (if ?b then _ else _) = true => destruct b
           | |- noNewline (let r := _ in _) = true => cbv zeta
           end;
      rewrite ?noNewline_append, ?noNewline_hexdigit; reflexivity.
Qed.

Lemma noNewline_quoteLoop (turns : nat) : forall s,
  noNewline (Strconv.quoteLoop isPrintTable turns s) = true.
Proof.
  induction turns as [|turns IH]; intros s; [reflexivity|].
  destruct s as [|c0 t]; [reflexivity|].
  cbn [Strconv.quoteLoop]. cbv zeta.
  destruct (if Utf8.RuneSelf <=? Z_of_ascii c0 then _ else _) as [r width].
  destruct ((width =? 1)%nat && (r =? Utf8.RuneError));
    rewrite ?noNewline_append, ?noNewline_hexdigit, ?noNewline_appendEscapedRune, ?IH;
    reflexivity.
Qed.

Lemma noNewline_verb_q (s : string) :
  noNewline (Fmt.verb_q isPrintTable s) = true.
Proof.
  unfold Fmt.verb_q, Strconv.Quote.
  change (String dquote ?x) with (String dquote "" +:+ x).
  now rewrite !noNewline_append, noNewline_quoteLoop.
Qed.

Lemma noNewline_verb_t (b : bool) : noNewline (Fmt.verb_t b) = true.
Proof. now destruct b. Qed.

Lemma noNewline_verb_d (n : N) : noNewline (Fmt.verb_d n) = true.
Proof.
  unfold Fmt.verb_d.
  assert (Hdigits : forall d, noNewline (NilEmpty.string_of_uint d) = true).
  { induction d; cbn [NilEmpty.string_of_uint noNewline]; now rewrite ?IHd. }
  unfold NilZero.string_of_uint. destruct (N.to_uint n); try apply Hdigits.
  reflexivity.
Qed.

Lemma inAlphabet_encode (x : Z) :
  inAlphabet (Base64.encode (Z.land x 0x3F)) = true.
Proof.
  assert (Htable : forallb (fun n => inAlphabet (Base64.encode (Z.of_nat n)))
                           (seq 0 64) = true) by (vm_compute; reflexivity).
  pose proof (Base64Facts.sextet_range x) as Hrange.
  rewrite forallb_forall in Htable.
  rewrite <- (Z2Nat.id (Z.land x 0x3F)) by lia.
  apply Htable, in_seq. lia.
Qed.

Lemma EncodeToString_upto (n : nat) : forall src : list byte,
  (length src <= n)%nat ->
  forallb inAlphabet (list_ascii_of_string (Base64.EncodeToString src)) = true
  /\ String.length (Base64.EncodeToString src) = (4 * ((length src + 2) / 3))%nat.
Proof.
  induction n as [|n IH]; intros src Hlen.
  - destruct src; [now split | cbn in Hlen; lia].
  - destruct src as [|s0 [|s1 [|s2 rest]]].
    + now split.
    + cbn [Base64.EncodeToString list_ascii_of_string forallb]. cbv zeta.
      rewrite !inAlphabet_encode. now split.
    + cbn [Base64.EncodeToString list_ascii_of_string forallb]. cbv zeta.
      rewrite !inAlphabet_encode. now split.
    + destruct (IH rest) as [Hall Hcount]; [cbn in Hlen; lia|].
      cbn [Base64.EncodeToString list_ascii_of_string forallb String.length length].
      cbv zeta. rewrite !inAlphabet_encode, Hall, Hcount. split; [reflexivity|].
      replace (S (S (S (length rest))) + 2)%nat with (1 * 3 + (length rest + 2))%nat
        by lia.
      rewrite Nat.div_add_l by lia. lia.
Qed.

Lemma noNewline_inAlphabet (s : string) :
  forallb inAlphabet (list_ascii_of_string s) = true -> noNewline s = true.
Proof.
  induction s as [|c s IH]; [reflexivity|].
  cbn [list_ascii_of_string forallb noNewline].
  intros [Hc Hs]%andb_true_iff. rewrite (IH Hs), andb_true_r.
  apply negb_true_iff, Ascii.eqb_neq. intros ->. discriminate.
Qed.

Lemma noNewline_EncodeToString (b : list byte) :
  noNewline (Base64.EncodeToString b) = true.
Proof.
  apply noNewline_inAlphabet. now apply (EncodeToString_upto (length b)).
Qed.

Lemma noNewline_paramLoop (args : list string) : forall part i,
  noNewline (paramLoop part i args) = noNewline part && forallb noNewline args.
Proof.
  induction args as [|arg rest IH]; intros part i.
  - cbn [paramLoop forallb]. now rewrite andb_true_r.
  - cbn [paramLoop forallb]. rewrite IH, !noNewline_append, noNewline_verb_d.
    cbn [noNewline Ascii.eqb newline]. cbn.
    now rewrite !andb_true_r, andb_assoc.
Qed.

Lemma noNewline_shellPart (action : ShellAction) :
  noNewline (shellPart isPrintTable action) = forallb noNewline (Args action).
Proof.
  unfold shellPart. cbv zeta.
  now rewrite noNewline_paramLoop, !noNewline_append, noNewline_verb_t,
    noNewline_verb_q.
Qed.

Lemma nonEmpty_false (s : string) : nonEmpty s = false -> s = "".
Proof.
  unfold nonEmpty. intros Hs. apply negb_false_iff in Hs. now apply String.eqb_eq.
Qed.

Lemma noNewline_partsBeforeIcon (m : MenuItem) :
  forallb noNewline (partsBeforeIcon isPrintTable m)
    = forallb noNewline (verbatimFields m).
Proof.
  unfold partsBeforeIcon, partsBeforeAction, verbatimFields.
  assert (Hkey : nonEmpty (Shortcut m) = false -> noNewline (Shortcut m) = true)
    by (now intros ->%nonEmpty_false).
  assert (Hcolor : nonEmpty (Color (Style_ m)) = false
                   -> noNewline (Color (Style_ m)) = true)
    by (now intros ->%nonEmpty_false).
  destruct (nonEmpty (Shortcut m)), (0 <? MaxLength (Style_ m))%N,
    (nonEmpty (Color (Style_ m))), (Action_ m) as [[a|a|]|];
    first [specialize (Hkey eq_refl)|clear Hkey];
    first [specialize (Hcolor eq_refl)|clear Hcolor];
    rewrite ?forallb_app; cbn [forallb app];
    rewrite ?noNewline_append, ?noNewline_verb_d, ?noNewline_shellPart,
      ?Hkey, ?Hcolor;
    cbn [noNewline Ascii.eqb newline Bool.eqb negb andb];
    rewrite ?andb_true_r, <- ?andb_assoc; reflexivity.
Qed.

(** X14.  The line of an item holds a newline only if a string that is
    formatted with [%s] holds one: the title, the shortcut, the colour,
    the URI or an argument of the command.  The command itself, which is
    formatted with [%q], and the bytes of the icon, which are encoded,
    never bring one in. *)
Theorem X14_one_line (m : MenuItem) (h h' : Store) (s : string) :
  MenuItem_renderSelf isPrintTable m h = (Ret s, h') ->
  noNewline s = forallb noNewline (verbatimFields m).
Proof.
  intros Hrun.
  assert (Htail : forallb noNewline (tailParts m) = true).
  { unfold tailParts. cbn [forallb].
    now rewrite noNewline_append, noNewline_verb_t. }
  destruct (Icon m) as [icon|] eqn:Hicon.
  - destruct (ReadAllAt_returns icon h) as (b & [e|] & h1 & Hread).
    + rewrite (renderSelf_icon_fault isPrintTable m h h1 icon b e Hicon Hread) in Hrun.
      discriminate.
    + rewrite (renderSelf_icon_read isPrintTable m h h1 icon b Hicon Hread) in Hrun.
      inversion Hrun; subst.
      rewrite noNewline_Join, !forallb_app, noNewline_partsBeforeIcon.
      cbn [forallb]. rewrite Htail, !noNewline_append, noNewline_EncodeToString.
      unfold imageType. destruct (IconImageTemplate (Style_ m));
        cbn; now rewrite !andb_true_r.
  - rewrite (renderSelf_no_icon isPrintTable m h Hicon) in Hrun.
    inversion Hrun; subst.
    now rewrite noNewline_Join, !forallb_app, Htail, noNewline_partsBeforeIcon,
      andb_true_r.
Qed.

(** X15.  The payload of the icon field is made of the 64 characters of
    the standard alphabet and of [=], so it holds neither a space nor a
    newline, and it has four characters for every three bytes read, the
    last group padded. *)
Theorem X15_icon_payload (m : MenuItem) (h : Store) (icon : nat)
    (rd rd' : IO.Reader) (b : list byte) :
  Icon m = Some icon ->
  h !! icon = Some rd ->
  IO.ReadAll rd = (b, None, rd') ->
  exists front,
    fst (MenuItem_renderSelf isPrintTable m h)
      = Ret (front +:+ "=" +:+ Base64.EncodeToString b
               +:+ " refresh=" +:+ Fmt.verb_t (Refresh m) +:+ " trim=false")
    /\ forallb inAlphabet (list_ascii_of_string (Base64.EncodeToString b)) = true
    /\ String.length (Base64.EncodeToString b) = (4 * ((length b + 2) / 3))%nat
    /\ inAlphabet " " = false /\ inAlphabet newline = false.
Proof.
  intros Hicon Hrd Hread.
  assert (Hat : ReadAllAt icon h = (Ret (b, None), <[icon := rd']> h))
    by (unfold ReadAllAt; now rewrite Hrd, Hread).
  rewrite (renderSelf_icon_read isPrintTable m h _ icon b Hicon Hat). cbn [fst].
  destruct (partsBeforeIcon_cons isPrintTable m) as [rest Hparts].
  exists (Strings.Join (partsBeforeIcon isPrintTable m) " " +:+ " " +:+ imageType m).
  destruct (EncodeToString_upto (length b) b (le_n _)) as [Hall Hcount].
  split; [|now repeat split].
  f_equal. unfold tailParts.
  change (?l ++ [?a] ++ [?x; ?y]) with (l ++ [a] ++ [x] ++ [y]).
  rewrite !List.app_assoc.
  rewrite !Join_snoc1; [now rewrite !append_assoc| | |];
    rewrite Hparts; discriminate.
Qed.

(** ** The command between its quotes *)

Lemma not_char (z : Z) (c : ascii) :
  z mod 256 <> Z_of_ascii c -> Ascii.eqb (ascii_of_Z z) c = false.
Proof.
  intros Hz. apply Ascii.eqb_neq. intros Heq. apply Hz.
  now rewrite <- Z_of_ascii_of_Z, Heq.
Qed.

Lemma high_byte_plain (k y : Z) :
  Z.testbit k 7 = true -> plainChar (ascii_of_Z (Z.lor k y)) = true.
Proof.
  intros Hk.
  assert (Hbit : Z.testbit (Z.lor k y mod 2 ^ 8) 7 = true).
  { rewrite Z.mod_pow2_bits_low by lia. now rewrite Z.lor_spec, Hk. }
  change (2 ^ 8) with 256 in Hbit.
  unfold plainChar. rewrite !not_char; [reflexivity| |];
    intros Heq; rewrite Heq in Hbit; discriminate.
Qed.

Lemma plain_append (a b : string) : plain (a +:+ b) = plain a && plain b.
Proof.
  unfold plain. induction a as [|c a IH]; [reflexivity|].
  rewrite append_cons. cbn [list_ascii_of_string forallb]. now rewrite IH, andb_assoc.
Qed.

Lemma plain_hexdigit (d : Z) : plain (Strconv.hexdigit d) = true.
Proof.
  unfold Strconv.hexdigit, index. generalize (Z.to_nat d) as n. intros n.
  do 16 (destruct n as [|n]; [reflexivity|]). reflexivity.
Qed.

Lemma plain_AppendRune (r : Z) :
  Strconv.IsPrint isPrintTable r = true ->
  r <> Z_of_ascii dquote -> r <> Z_of_ascii backslash ->
  plain (Utf8.AppendRune r) = true.
Proof.
  unfold Utf8.AppendRune, Utf8.bytes, Strconv.IsPrint, plain.
  destruct (Z.leb_spec r 0x7F) as [Hascii|Hwide].
  - destruct (Z.leb_spec r 0xFF) as [_|Hlow]; [|lia].
    destruct (Z.leb_spec 0x20 r) as [Hfrom|Hfrom];
      destruct (Z.leb_spec r 0x7E) as [Hto|Hto]; cbn [andb];
      try (destruct (Z.leb_spec 0xA1 r); [lia|discriminate]).
    intros _ Hq Hb. cbn [map string_of_list_ascii list_ascii_of_string forallb].
    rewrite andb_true_r. unfold plainChar.
    rewrite !not_char; [reflexivity| |]; rewrite Z.mod_small by lia; assumption.
  - intros _ _ _. destruct (r <=? 0x7FF); [|cbv zeta; destruct (_ <=? 0xFFFF)];
      cbn [map string_of_list_ascii list_ascii_of_string forallb];
      now rewrite !high_byte_plain.
Qed.

Lemma escaped_plain (u b : string) : plain u = true -> escaped (u +:+ b) = escaped b.
Proof.
  unfold plain. induction u as [|c u IH]; [reflexivity|].
  cbn [list_ascii_of_string forallb]. intros [Hc Hu]%andb_true_iff.
  rewrite append_cons. cbn [escaped].
  unfold plainChar in Hc. apply andb_true_iff in Hc as [Hq Hb].
  apply negb_true_iff in Hb. rewrite Hb, Hq. now apply IH.
Qed.

Lemma escaped_escape (c : ascii) (u b : string) :
  plain u = true -> escaped (String backslash (String c u) +:+ b) = escaped b.
Proof.
  intros Hu. rewrite !append_cons. cbn [escaped].
  rewrite Ascii.eqb_refl. now apply escaped_plain.
Qed.

Lemma escaped_appendEscapedRune (r : Z) (b : string) :
  escaped (Strconv.appendEscapedRune isPrintTable r +:+ b) = escaped b.
Proof.
  unfold Strconv.appendEscapedRune.
  destruct (Z.eqb_spec r (Z_of_ascii dquote)) as [Hq|Hq];
    [now apply (escaped_escape _ "")|].
  destruct (Z.eqb_spec r (Z_of_ascii backslash)) as [Hb|Hb];
    [now apply (escaped_escape _ "")|].
  cbn [orb].
  destruct (Strconv.IsPrint isPrintTable r) eqn:Hprint;
    [now apply escaped_plain, plain_AppendRune|].
  repeat match goal with
         | |- escaped ((if ?c then _ else _) +:+ _) = _ => destruct c
         | |- escaped ((let r := _ in _) +:+ _) = _ => cbv zeta
         end;
    try (now apply (escaped_escape _ ""));
    match goal with
    | |- escaped ((String ?x (String ?y "") +:+ ?u) +:+ _) = _ =>
        change (String x (String y "") +:+ u) with (String x (String y u));
        apply escaped_escape
    end;
    now rewrite ?plain_append, ?plain_hexdigit.
Qed.

Lemma escaped_quoteLoop (turns : nat) : forall s b,
  escaped (Strconv.quoteLoop isPrintTable turns s +:+ b) = escaped b.
Proof.
  induction turns as [|turns IH]; intros s b; [reflexivity|].
  destruct s as [|c0 t]; [reflexivity|].
  cbn [Strconv.quoteLoop]. cbv zeta.
  destruct (if Utf8.RuneSelf <=? Z_of_ascii c0 then _ else _) as [r width].
  destruct ((width =? 1)%nat && (r =? Utf8.RuneError)).
  - rewrite !append_assoc.
    match goal with
    | |- escaped (String ?x (String ?y "") +:+ ?u) = _ =>
        transitivity (escaped u); [exact (escaped_escape y "" u eq_refl)|]
    end.
    do 2 (rewrite escaped_plain by apply plain_hexdigit). apply IH.
  - rewrite append_assoc, escaped_appendEscapedRune. apply IH.
Qed.

(** X16.  [%q] puts the command between two double quotes; what stands
    between them holds no double quote that is not escaped, no backslash
    that opens no escape, and no newline.  So the first double quote after
    [shell=] that no backslash precedes is the one that closes the
    command, whatever bytes the command holds. *)
Theorem X16_quoted_command (action : ShellAction) :
  exists inner,
    Fmt.verb_q isPrintTable (Command action) = quoted inner
    /\ escaped inner = true
    /\ noNewline inner = true
    /\ shellPart isPrintTable action
         = "terminal=" +:+ Fmt.verb_t (OpenTerminal action)
             +:+ " shell=" +:+ quoted inner +:+ paramFields (Args action).
Proof.
  exists (Strconv.quoteLoop isPrintTable (String.length (Command action))
            (Command action)).
  split; [reflexivity|]. split; [|split].
  - rewrite <- (append_nil_r (Strconv.quoteLoop _ _ _)).
    now rewrite escaped_quoteLoop.
  - apply noNewline_quoteLoop.
  - apply shellPart_spec.
Qed.

(** ** The number of lines *)

Lemma forEach_count_by {A} (f : A -> M (Store * list string) (option IO.error))
    (count : A -> nat) (l : list A) :
  Forall (fun x => appends (f x)
                   /\ forall h h' log, f x (h, []) = (Ret None, (h', log)) ->
                                       length log = count x) l ->
  forall h h' out,
    forEach f l (h, []) = (Ret None, (h', out)) ->
    length out = list_sum (map count l).
Proof.
  induction 1 as [|x rest [Ha Hx] Hall IH]; intros h h' out Hrun.
  - inversion Hrun; subst. reflexivity.
  - apply forEach_success_cons in Hrun as (h1 & out1 & out2 & Hfirst & Hrest & ->).
    + cbn [map list_sum]. rewrite length_app, (Hx _ _ _ Hfirst), (IH _ _ _ Hrest).
      reflexivity.
    + constructor; [exact Ha|]. eapply Forall_impl; [exact Hall|]. now intros y [? _].
Qed.

Lemma printElement_count (el : XbarElement) (level : nat) (h h' : Store)
    (log : list string) :
  printElement isPrintTable el level (h, []) = (Ret None, (h', log)) ->
  length log = elementLineCount el.
Proof.
  destruct el as [|m]; [|apply printItem_count].
  cbn [printElement]. rewrite printBody_run. cbn. intros Hrun.
  now inversion Hrun.
Qed.

Lemma RunW_count (p : Plugin) (h h' : Store) (log : list string) :
  RunW isPrintTable p (h, []) = (Ret None, (h', log)) ->
  length log = pluginLineCount p.
Proof.
  intros Hrun.
  apply RunW_success in Hrun as (title & h1 & out & _ & Hels & ->).
  assert (Hout : length out = list_sum (map elementLineCount (Elements p))).
  { apply (forEach_count_by (fun item => printElement isPrintTable item 0)
             elementLineCount (Elements p)) with (h := h1) (h' := h');
      [|exact Hels].
    apply Forall_forall. intros el _. split; [apply appends_printElement|].
    intros h0 h0' log0. apply printElement_count. }
  unfold pluginLineCount. cbn [length]. rewrite length_app, Hout.
  destruct (0 <? length (Elements p))%nat; cbn [length]; lia.
Qed.

(** X17.  A run in which nothing fails calls [Write] once for the title,
    once for the separator under it if the plugin has elements, once for
    each separator among the elements, and for each item once for itself,
    once for its alternate if it has one, and as often as its submenu
    takes; whatever the writer that accepts the lines. *)
Theorem X17_number_of_writes (p : Plugin) (h h' : Store) (log : list string) :
  RunW isPrintTable p (h, []) = (Ret None, (h', log)) ->
  length log = pluginLineCount p
  /\ forall (W : Type) (writer : IO.Writer W) (w w' : W),
       replay w log = (w', None) ->
       RunW isPrintTable p (h, w) = (Ret None, (h', w')).
Proof.
  intros Hrun. split; [exact (RunW_count p h h' log Hrun)|].
  intros W writer w w' Hre.
  pose proof (follows_RunW isPrintTable p h w w') as Hany.
  rewrite Hrun in Hany. exact (Hany Hre).
Qed.

(** ** Readers after a run *)







Lemma icons_eq (m : MenuItem) :
  icons m = iconOf m
              ++ List.concat (map icons (SubMenu m))
              ++ match Alt m with Some alt => iconOf alt | None => [] end.
Proof. now destruct m. Qed.








(** ** Where a panic comes from *)

Lemma firstFault_app (h : Store) (l1 l2 : list nat) :
  firstFault h (l1 ++ l2)
    = match firstFault h l1 with
      | Some e => Some e
      | None => firstFault h l2
      end.
Proof.
  induction l1 as [|i l1 IH]; [reflexivity|].
  cbn [app firstFault]. now destruct (faultAt h i).
Qed.

Lemma firstFault_ext (h h' : Store) (l : list nat) :
  (forall i, faultAt h' i = faultAt h i) -> firstFault h' l = firstFault h l.
Proof.
  intros Hsame. induction l as [|i l IH]; [reflexivity|].
  cbn [firstFault]. now rewrite Hsame, IH.
Qed.

Lemma ReadAllAt_faultAt (icon : nat) (h : Store) :
  match faultAt h icon with
  | Some e => exists b h', ReadAllAt icon h = (Ret (b, Some e), h')
  | None => exists b h', ReadAllAt icon h = (Ret (b, None), h')
                         /\ forall i, faultAt h' i = faultAt h i
  end.
Proof.
  unfold ReadAllAt, faultAt. destruct (h !! icon) as [rd|] eqn:Hrd.
  - destruct (IO.ReadAll rd) as [[b [e|]] rd'] eqn:Hread; cbn [fst snd]; [eauto|].
    exists b, (<[icon := rd']> h). split; [reflexivity|]. intros i.
    destruct (decide (i = icon)) as [->|Hne].
    + rewrite lookup_insert_eq, Hrd, Hread.
      now rewrite (ReadAll_drains rd b rd' Hread).
    + now rewrite lookup_insert_ne.
  - exists [], h. now split.
Qed.

Lemma faultsOn_renderSelf (m : MenuItem) :
  faultsOn (MenuItem_renderSelf isPrintTable m) (iconOf m).
Proof.
  intros h. unfold iconOf. destruct (Icon m) as [icon|] eqn:Hicon.
  - cbn [firstFault]. pose proof (ReadAllAt_faultAt icon h) as Hread.
    destruct (faultAt h icon) as [e|].
    + destruct Hread as (b & h' & Hread).
      rewrite (renderSelf_icon_fault isPrintTable m h h' icon b e Hicon Hread). eauto.
    + destruct Hread as (b & h' & Hread & Hsame).
      rewrite (renderSelf_icon_read isPrintTable m h h' icon b Hicon Hread). eauto.
  - cbn [firstFault]. rewrite (renderSelf_no_icon isPrintTable m h Hicon). eauto.
Qed.

Lemma faultsOn_renderAlt (m : MenuItem) :
  faultsOn (MenuItem_renderAlt isPrintTable m)
           match Alt m with Some alt => iconOf alt | None => [] end.
Proof.
  unfold MenuItem_renderAlt. destruct (Alt m) as [alt|].
  - apply faultsOn_renderSelf.
  - intros h. cbn [firstFault]. unfold ret. eauto.
Qed.

Lemma Write_Recorder (w : list string) (text : string) :
  IO.Write w text = (w ++ [text], None).
Proof. reflexivity. Qed.

Lemma faults_ret : faults (ret None) [].
Proof. intros h log. cbn [firstFault]. unfold ret. eauto. Qed.

Lemma faults_forEach {A} (f : A -> M (Store * list string) (option IO.error))
    (reads : A -> list nat) (l : list A) :
  Forall (fun x => faults (f x) (reads x)) l ->
  faults (forEach f l) (List.concat (map reads l)).
Proof.
  induction 1 as [|x rest Hx _ IH]; [apply faults_ret|].
  intros h log. cbn [map List.concat]. rewrite firstFault_app, forEach_cons.
  unfold bind. specialize (Hx h log).
  destruct (firstFault h (reads x)) as [e|].
  - destruct Hx as [st ->]. eauto.
  - destruct Hx as (h1 & log1 & -> & Hsame). cbn [orReturn].
    specialize (IH h1 log1). rewrite (firstFault_ext h h1 _ Hsame) in IH.
    destruct (firstFault h _) as [e|]; [exact IH|].
    destruct IH as (h2 & log2 & -> & Hsame2).
    exists h2, log2. split; [reflexivity|]. intros i. now rewrite Hsame2.
Qed.

Lemma faults_printBody self alt level kids (r1 r2 r3 : list nat) :
  faultsOn self r1 -> faults kids r2 -> faultsOn alt r3 ->
  faults (printBody self kids alt level) (r1 ++ r2 ++ r3).
Proof.
  intros Hself Hkids Halt h log. rewrite printBody_run, !firstFault_app.
  specialize (Hself h). destruct (firstFault h r1) as [e|].
  - destruct Hself as [h1 ->]. eauto.
  - destruct Hself as (s & h1 & -> & Hsame1).
    unfold IO.Write, IO.Recorder.
    specialize (Hkids h1 (log ++ [Strings.Repeat "--" level +:+ s +:+ String newline ""])).
    rewrite (firstFault_ext h h1 _ Hsame1) in Hkids.
    destruct (firstFault h r2) as [e|].
    + destruct Hkids as [st ->]. eauto.
    + destruct Hkids as (h2 & log2 & -> & Hsame2).
      assert (Hsame12 : forall i, faultAt h2 i = faultAt h i)
        by (intros i; now rewrite Hsame2).
      specialize (Halt h2). rewrite (firstFault_ext h h2 _ Hsame12) in Halt.
      destruct (firstFault h r3) as [e|].
      * destruct Halt as [h3 ->]. eauto.
      * destruct Halt as (a & h3 & -> & Hsame3).
        assert (Hsame123 : forall i, faultAt h3 i = faultAt h i)
          by (intros i; now rewrite Hsame3).
        destruct (nonEmpty a); eauto.
Qed.

Lemma faults_printItem (m : MenuItem) : forall level,
  faults (printItem isPrintTable m level) (icons m).
Proof.
  induction m as [m IH] using MenuItem_submenu_ind; intros level.
  rewrite printItem_eq, icons_eq. apply faults_printBody.
  - apply faultsOn_renderSelf.
  - apply faults_forEach. eapply Forall_impl; [exact IH|].
    intros child Hchild. apply Hchild.
  - apply faultsOn_renderAlt.
Qed.

Lemma faults_printElement (el : XbarElement) (level : nat) :
  faults (printElement isPrintTable el level) (elementIcons el).
Proof.
  destruct el as [|m]; [|apply faults_printItem].
  apply (faults_printBody _ _ level _ [] [] []); [|apply faults_ret|];
    intros h; cbn [firstFault]; unfold Separator_renderSelf, Separator_renderAlt, ret;
    eauto.
Qed.

(** X19.  A panic of [RunW] is the failure of a read.  Take the readers of
    the plugin in the order they are read: the icon of the title, then
    for each element its own icon, those of its submenu, that of its
    alternate.  If [io.ReadAll] fails on one of them as they are before
    the run, [RunW] into a record panics with the error of the first
    that fails; if it fails on none, [RunW] returns nil. *)
Theorem X19_panic_cause (p : Plugin) (h : Store) (log : list string) :
  fst (RunW isPrintTable p (h, log))
    = match firstFault h (pluginIcons p) with
      | Some e => Panic e
      | None => Ret None
      end.
Proof.
  unfold pluginIcons. rewrite firstFault_app, RunW_run.
  pose proof (faultsOn_renderSelf (Plugin_Title p) h) as Htitle.
  destruct (firstFault h (iconOf (Plugin_Title p))) as [e|].
  - destruct Htitle as [h1 ->]. reflexivity.
  - destruct Htitle as (title & h1 & -> & Hsame).
    rewrite Write_Recorder. cbv beta iota.
    rewrite <- (firstFault_ext h h1 _ Hsame).
    destruct (0 <? length (Elements p))%nat eqn:Hsome.
    + rewrite Write_Recorder. cbv beta iota.
      assert (Hall : faults (forEach (fun item => printElement isPrintTable item 0)
                                     (Elements p))
                            (List.concat (map elementIcons (Elements p)))).
      { apply faults_forEach, Forall_forall. intros item _. apply faults_printElement. }
      specialize (Hall h1 ((log ++ [title +:+ String newline ""])
                             ++ ["---" +:+ String newline ""])).
      destruct (firstFault h1 _) as [e|].
      * destruct Hall as [st ->]. reflexivity.
      * destruct Hall as (h2 & log2 & -> & _). reflexivity.
    + destruct (Elements p); [reflexivity|discriminate].
Qed.

(** ** C6: the lines of a plugin without elements *)







End Further.

(** ** Concrete runs of the further properties *)

Lemma X2_template_by_default_witness :
  MenuItem_renderSelf asciiTable
      (Plugin_Title (Plugin_WithIcon 0%nat (WithText "Status" NewPlugin))) statusStore
    = (Ret "Status| templateImage=iVBORw== refresh=false trim=false",
       <[0%nat := IO.AtEOF]> statusStore)
  /\ MenuItem_renderSelf asciiTable (WithIcon 0%nat (NewMenuItem "Status")) statusStore
       = (Ret "Status| image=iVBORw== refresh=false trim=false",
          <[0%nat := IO.AtEOF]> statusStore).
Proof.
  exact (X2_template_by_default asciiTable "Status" 0%nat statusStore
           (IO.NewReader pngMagic) IO.AtEOF pngMagic eq_refl eq_refl).
Defined.

Lemma X3_shared_reader_witness :
  MenuItem_renderSelf asciiTable firstUser sharedStore
    = (Ret "Available| image=iVBORw== refresh=false trim=false",
       <[3%nat := IO.AtEOF]> sharedStore)
  /\ MenuItem_renderSelf asciiTable secondUser (<[3%nat := IO.AtEOF]> sharedStore)
       = (Ret "Also available| image= refresh=false trim=false",
          <[3%nat := IO.AtEOF]> sharedStore).
Proof.
  split; [reflexivity|].
  exact (X3_shared_reader asciiTable firstUser secondUser 3%nat
           (IO.NewReader pngMagic) sharedStore (<[3%nat := IO.AtEOF]> sharedStore)
           "Available| image=iVBORw== refresh=false trim=false"
           eq_refl eq_refl eq_refl eq_refl).
Defined.

Lemma X4_field_order_witness :
  MenuItem_renderSelf asciiTable fullItem sharedStore
    = (Ret ("Site| key=shift+k length=12 color=red href=https://xbarapp.com"
              +:+ " image=iVBORw== refresh=true trim=false"),
       <[3%nat := IO.AtEOF]> sharedStore).
Proof.
  apply (X4_field_order asciiTable fullItem (NewHrefAction "https://xbarapp.com")
           3%nat sharedStore (IO.NewReader pngMagic) IO.AtEOF pngMagic);
    [discriminate|reflexivity|discriminate|reflexivity|reflexivity|reflexivity
    |reflexivity].
Defined.

Lemma X6_accepting_writer_witness :
  RunW asciiTable placesPlugin (∅, pipeWith 5)
    = (Ret None,
       (∅, {| IO.accepted := pluginLines asciiTable placesPlugin; IO.room := 0 |})).
Proof.
  exact (X6_accepting_writer asciiTable placesPlugin ∅ (pipeWith 5)
           {| IO.accepted := pluginLines asciiTable placesPlugin; IO.room := 0 |}
           eq_refl).
Defined.

Lemma X9_layout_any_writer_witness :
  iconFreePlugin placesPlugin = true
  /\ RunW asciiTable placesPlugin (∅, pipeWith 3)
       = (Ret (Some IO.ErrClosedPipe),
          (∅, {| IO.accepted := take 3 (pluginLines asciiTable placesPlugin);
                 IO.room := 0 |}))
  /\ RunW asciiTable placesPlugin (∅, "")
       = (Ret None,
          (∅, unlines ["Submenu| refresh=false trim=false"; "---";
                       "Places| refresh=false trim=false";
                       "--London| refresh=false trim=false";
                       "--Paris| refresh=false trim=false"])).
Proof.
  split; [reflexivity|].
  destruct (X9_layout_any_writer asciiTable placesPlugin ∅ (pipeWith 3) eq_refl)
    as [Hpipe Hbuffer].
  split; [exact Hpipe|exact (Hbuffer "")].
Defined.

Lemma X11_WithSubMenu_witness :
  printElement asciiTable
      (Item (WithSubMenu [NewMenuItem "London"; NewMenuItem "Paris"]
               (NewMenuItem "Places"))) 0 (∅, [])
    = forEach (fun item => printElement asciiTable (Item item) (0 + 1))
        [NewMenuItem "London"; NewMenuItem "Paris"]
        (∅, [ln "Places| refresh=false trim=false"]).
Proof.
  exact (X11_WithSubMenu asciiTable (NewMenuItem "Places")
           [NewMenuItem "London"; NewMenuItem "Paris"] 0%nat (∅, []) eq_refl).
Defined.

Lemma X14_one_line_witness :
  noNewline (Command (NewShellAction ("date" +:+ String newline "uptime") ["-u"]))
    = false
  /\ noNewline ("Clock| terminal=false shell=" +:+ quoted "date\nuptime"
                  +:+ " param1='-u' image=iVBORw== refresh=false trim=false")
       = forallb noNewline (verbatimFields twoLineCommand).
Proof.
  split; [reflexivity|].
  apply (X14_one_line asciiTable twoLineCommand sharedStore
           (<[3%nat := IO.AtEOF]> sharedStore)).
  reflexivity.
Defined.

Lemma X15_icon_payload_witness :
  exists front,
    fst (MenuItem_renderSelf asciiTable firstUser sharedStore)
      = Ret (front +:+ "=" +:+ Base64.EncodeToString pngMagic
               +:+ " refresh=" +:+ Fmt.verb_t (Refresh firstUser) +:+ " trim=false")
    /\ forallb inAlphabet (list_ascii_of_string (Base64.EncodeToString pngMagic)) = true
    /\ String.length (Base64.EncodeToString pngMagic)
       = (4 * ((length pngMagic + 2) / 3))%nat
    /\ inAlphabet " " = false /\ inAlphabet newline = false.
Proof.
  exact (X15_icon_payload asciiTable firstUser sharedStore 3%nat
           (IO.NewReader pngMagic) IO.AtEOF pngMagic eq_refl eq_refl eq_refl).
Defined.

Lemma X17_number_of_writes_witness :
  pluginLineCount submenusPlugin = 13%nat
  /\ length (pluginLines asciiTable submenusPlugin) = pluginLineCount submenusPlugin.
Proof.
  split; [reflexivity|].
  destruct (X17_number_of_writes asciiTable submenusPlugin ∅ ∅
              (pluginLines asciiTable submenusPlugin) eq_refl) as [Hcount _].
  exact Hcount.
Defined.



